(** * pyGeomSegEval: the matching engine and the metric aggregator of
      [eval_geom.py], embedded and verified.

    The development follows the pipeline of the program:
    annotation lists -> weight matrix -> margin vectors -> link matrix
    -> segmentation metrics.

    Modelling choices.
    - Python exceptions are values of [result]: every index operation
      ([a[i,j]], [l[i]], [a[i,:]]) is bounds-checked and raises
      [IndexError] out of range, [assert] raises [AssertionError].
    - A two-dimensional numpy array is its shape together with its rows;
      [np.empty] fills it with an arbitrary value that the loops overwrite.
    - Python integers are [Z]; loop indices ([range]) are [nat].
    - The floating-point type [np.float] is an interface ([Float]) with the
      operations and literals the program uses.  Two instances are given:
      the rationals (exact arithmetic) and IEEE binary64 (what numpy
      computes with).  Theorems about control flow hold for every
      instance; the theorem that needs order reasoning states the laws it
      uses.
    - [v.sum()] is the pairwise summation that numpy applies to a float64
      slice: from the first to the last entry below 8 entries, with eight
      partial sums up to 128 entries, by halves above.  The order of the
      additions changes the rounding in binary64 and nothing in exact
      arithmetic.
    - The fields of an annotation hold a value or [None]: the XML driver
      can commit an annotation without shape, on which [&] raises
      [TypeError]. *)

From Stdlib Require Import QArith Lqa Floats Uint63.
From stdpp Require Import base list numbers strings pretty gmap.

Local Open Scope nat_scope.

(** ** Exceptions and loops *)

(** An attribute dictionary: string keys, string values. *)
Abbreviation dict := (gmap string string).

(** The exceptions of the program. *)
Inductive exn : Type :=
  | AssertionError (msg : string)
  | IndexError
  | TypeError                 (* an operation on [None]: [&], subscript *)
  | AttributeError            (* [None.area()] *)
  | ValueError (arg : string)
  | UnknownFormat (atype : string) (attributes : dict)
      (* ValueError("Unknown annotation format: t=%s; attr=%s") *)
  | KeyError (key : string)
  | StrIndexError             (* string index out of range *)
  | NameError (name : string) (* a global name that is not defined *)
  | XMLFileError (msg : string)
  | UnsupportedFile (filename : string)
  | NoInputDriverCompatibleError (filename : string)
  | OtherError (msg : string).

Inductive result (A : Type) : Type :=
  | Ok (a : A)
  | Raise (e : exn).
Arguments Ok {A} a.
Arguments Raise {A} e.

#[global] Instance result_ret : MRet result := fun _ a => Ok a.
#[global] Instance result_bind : MBind result := fun _ _ k m =>
  match m with
  | Ok a => k a
  | Raise e => Raise e
  end.

(** [assert cond, msg] *)
Definition py_assert (cond : bool) (msg : string) : result unit :=
  if cond then Ok tt else Raise (AssertionError msg).

(** [l[i]] on a Python list or a one-dimensional array. *)
Definition list_getitem {A} (l : list A) (i : nat) : result A :=
  match l !! i with
  | Some x => Ok x
  | None => Raise IndexError
  end.

(** [l[i] = v] on a one-dimensional array. *)
Definition list_setitem {A} (l : list A) (i : nat) (v : A) : result (list A) :=
  if decide (i < length l) then Ok (<[i := v]> l) else Raise IndexError.

(** [for i in l: s = body i s] *)
Fixpoint for_each {S} (l : list nat) (body : nat -> S -> result S) (s : S)
  : result S :=
  match l with
  | [] => Ok s
  | i :: l' => s' ← body i s; for_each l' body s'
  end.

(** [for i in range(n): ...] *)
Definition for_range {S} (n : nat) (body : nat -> S -> result S) (s : S)
  : result S :=
  for_each (seq 0 n) body s.

(** A loop body that may execute [break]. *)
Inductive flow (S : Type) : Type :=
  | Next (s : S)
  | Break (s : S).
Arguments Next {S} s.
Arguments Break {S} s.

Fixpoint for_each_break {S} (l : list nat) (body : nat -> S -> result (flow S))
  (s : S) : result S :=
  match l with
  | [] => Ok s
  | i :: l' =>
      r ← body i s;
      match r with
      | Next s' => for_each_break l' body s'
      | Break s' => Ok s'
      end
  end.

Definition for_range_break {S} (n : nat) (body : nat -> S -> result (flow S))
  (s : S) : result S :=
  for_each_break (seq 0 n) body s.

(** ** The floating-point interface *)

Class Float (F : Type) : Type := {
  f_zero : F;                 (* 0, and the sum of an empty slice *)
  f_add : F -> F -> F;        (* + *)
  f_div : F -> F -> F;        (* / on numpy scalars: never raises *)
  f_gt : F -> F -> bool;      (* > *)
  f_ge : F -> F -> bool;      (* >= *)
  f_lit_0_2 : F;              (* the literal 0.2 *)
  f_lit_0_5 : F               (* the literal 0.5 *)
}.

(** Exact arithmetic. *)
#[global] Instance Q_float : Float Q := {
  f_zero := 0%Q;
  f_add := Qplus;
  f_div := Qdiv;
  f_gt := fun a b => negb (Qle_bool a b);
  f_ge := fun a b => Qle_bool b a;
  f_lit_0_2 := (1 # 5)%Q;
  f_lit_0_5 := (1 # 2)%Q
}.

(** IEEE 754 binary64, the arithmetic of [np.float]. *)
#[global] Instance binary64_float : Float float := {
  f_zero := 0%float;
  f_add := PrimFloat.add;
  f_div := PrimFloat.div;
  f_gt := fun a b => PrimFloat.ltb b a;
  f_ge := fun a b => PrimFloat.leb b a;
  f_lit_0_2 := 0x1.999999999999ap-3%float;
  f_lit_0_5 := 0.5%float
}.

(** The order laws used to show that margins are positive: adding
    non-negative numbers gives a non-negative number, positive as soon as
    one of them is.  They are proved below for exact arithmetic; in
    binary64 they say that rounding to nearest is monotone. *)
Class FloatOrder (F : Type) `{Float F} : Prop := {
  f_zero_ge : f_ge f_zero f_zero = true;
  f_add_ge_ge : forall a b,
    f_ge a f_zero = true -> f_ge b f_zero = true ->
    f_ge (f_add a b) f_zero = true;
  f_add_gt_ge : forall a b,
    f_gt a f_zero = true -> f_ge b f_zero = true ->
    f_gt (f_add a b) f_zero = true;
  f_add_ge_gt : forall a b,
    f_ge a f_zero = true -> f_gt b f_zero = true ->
    f_gt (f_add a b) f_zero = true
}.

(** The laws of exact arithmetic: addition is associative and commutative
    and 0 is neutral.  They hold for the rationals and not for binary64,
    where the result of a sum depends on the order of the additions. *)
Class FloatExact (F : Type) `{Float F} : Prop := {
  f_add_assoc : forall a b c, f_add a (f_add b c) = f_add (f_add a b) c;
  f_add_comm : forall a b, f_add a b = f_add b a;
  f_add_zero : forall a, f_add f_zero a = a
}.

(** ** numpy arrays *)

Module np.

Record ndarray (A : Type) : Type := mk_ndarray {
  shape : nat * nat;
  rows : list (list A)
}.
Arguments mk_ndarray {A} shape rows.
Arguments shape {A} _.
Arguments rows {A} _.

(** The rows agree with the shape: true of every array numpy builds. *)
Definition well_shaped {A} (a : ndarray A) : bool :=
  (length (rows a) =? fst (shape a))
  && forallb (fun r => length r =? snd (shape a)) (rows a).

(** [np.empty((n, m))]: [junk] stands for the uninitialised content. *)
Definition empty {A} (junk : A) (n m : nat) : ndarray A :=
  mk_ndarray (n, m) (replicate n (replicate m junk)).

(** [np.empty(n)] *)
Definition empty1 {A} (junk : A) (n : nat) : list A := replicate n junk.

(** The cell at [(i, j)], if there is one. *)
Definition lookup {A} (a : ndarray A) (i j : nat) : option A :=
  rows a !! i ≫= fun r => r !! j.

(** [a[i, j]] (and [a[i][j]]) *)
Definition getitem {A} (a : ndarray A) (i j : nat) : result A :=
  match rows a !! i with
  | Some r => list_getitem r j
  | None => Raise IndexError
  end.

(** [a[i, j] = v] *)
Definition setitem {A} (a : ndarray A) (i j : nat) (v : A)
  : result (ndarray A) :=
  match rows a !! i with
  | Some r =>
      r' ← list_setitem r j v;
      Ok (mk_ndarray (shape a) (<[i := r']> (rows a)))
  | None => Raise IndexError
  end.

(** [a[i, :]] *)
Definition getrow {A} (a : ndarray A) (i : nat) : result (list A) :=
  list_getitem (rows a) i.

(** [a[:, j]] *)
Definition getcol {A} (a : ndarray A) (j : nat) : result (list A) :=
  if decide (j < snd (shape a)) then
    match mapM (fun r : list A => r !! j) (rows a) with
    | Some c => Ok c
    | None => Raise IndexError
    end
  else Raise IndexError.

(** [v.sum()] on a one-dimensional float64 slice, contiguous (a row) or
    strided (a column): the reduction [np.add.reduce] adds to its identity
    0 the pairwise sum of the entries ([pairwise_sum_DOUBLE] of numpy's
    [umath] loops, in numpy 1.9 and later). *)
Section Sum.

Context {F : Type} `{Float F}.

Definition PW_BLOCKSIZE : nat := 128.

(** The unrolled loop for 8 to 128 entries: eight partial sums [r], each
    advanced by one entry of every block of eight; then
    [((r0+r1)+(r2+r3)) + ((r4+r5)+(r6+r7))], then the entries left over,
    one by one. *)
Fixpoint sum_unrolled (r : F * F * F * F * F * F * F * F) (a : list F) : F :=
  let '(r0, r1, r2, r3, r4, r5, r6, r7) := r in
  match a with
  | a0 :: a1 :: a2 :: a3 :: a4 :: a5 :: a6 :: a7 :: a' =>
      sum_unrolled (f_add r0 a0, f_add r1 a1, f_add r2 a2, f_add r3 a3,
                    f_add r4 a4, f_add r5 a5, f_add r6 a6, f_add r7 a7) a'
  | _ =>
      fold_left f_add a
        (f_add (f_add (f_add r0 r1) (f_add r2 r3))
               (f_add (f_add r4 r5) (f_add r6 r7)))
  end.

(** [pairwise_sum(a, n)]: below 8 entries a loop from 0; up to
    [PW_BLOCKSIZE] entries the unrolled loop; above, the sum of the two
    halves, the first of [n/2] entries rounded down to a multiple of 8.
    [depth] bounds the halvings; [length a] is more than enough
    ([pairwise_sum_depth] below), so the last branch is not reached. *)
Fixpoint pairwise_sum (depth : nat) (a : list F) : F :=
  let n := length a in
  if n <=? PW_BLOCKSIZE then
    match a with
    | a0 :: a1 :: a2 :: a3 :: a4 :: a5 :: a6 :: a7 :: a' =>
        sum_unrolled (a0, a1, a2, a3, a4, a5, a6, a7) a'
    | _ => fold_left f_add a f_zero
    end
  else
    match depth with
    | S depth' =>
        let n2 := n / 2 - (n / 2) mod 8 in
        f_add (pairwise_sum depth' (take n2 a))
              (pairwise_sum depth' (drop n2 a))
    | O => f_zero
    end.

Definition sum (v : list F) : F :=
  match v with
  | [] => f_zero
  | _ => f_add f_zero (pairwise_sum (length v) v)
  end.

End Sum.

End np.

Abbreviation ndarray := np.ndarray.

(** ** Annotations ([drivers/InputDriver.py]) *)

(** What the program asks of the polygon type of the [Polygon] library:
    [p & q] and [p.area()]. *)
Class Geometry (F P : Type) : Type := {
  area : P -> F;
  inter : P -> P -> P
}.

(** The geometric fact behind the two area divisors of the Link
    Classifier: a region that overlaps another on a positive area has a
    positive area itself. *)
Class GeometryOrder (F P : Type) `{Float F} `{Geometry F P} : Prop := {
  area_inter_pos : forall p q,
    f_gt (area (inter p q)) f_zero = true ->
    f_gt (area p) f_zero = true /\ f_gt (area q) f_zero = true
}.

(** [SegmentationAnnotation = namedtuple(..., ["shape", "type", "attributes"])].
    Each field holds what the driver put in it: a polygon, a string and a
    dictionary, or [None] (the XML driver commits
    [SegmentationAnnotation(self.cShape, self.cType, self.cAttrib)] with
    whatever the handler holds). *)
Record SegmentationAnnotation (P : Type) : Type := mk_annotation {
  shape : option P;
  type : option string;
  attributes : option dict
}.
Arguments mk_annotation {P} shape type attributes.
Arguments shape {P} _.
Arguments type {P} _.
Arguments attributes {P} _.

Section ShapeOperations.

Context {F P : Type} `{Geometry F P}.

(** [p & q]: the intersection of two polygons; [None] has no [&]. *)
Definition py_and (p q : option P) : result P :=
  match p, q with
  | Some p, Some q => Ok (inter p q)
  | _, _ => Raise TypeError
  end.

(** [p.area()]: [None] has no attribute [area]. *)
Definition py_area (p : option P) : result F :=
  match p with
  | Some p => Ok (area p)
  | None => Raise AttributeError
  end.

End ShapeOperations.

(** ** [eval_geom.py] *)

(** The result surface: the nine counts that [main] logs and exports. *)
Record Metrics : Type := mk_metrics {
  Tc : Z; To : Z; Tu : Z; Co : Z; Cu : Z; Cm : Z; Cf : Z; Cr : Z; Ct : Z
}.

Section EvalGeom.

Context {F P : Type} `{Float F} `{Geometry F P}.

Local Open Scope Z_scope.

(** *** Shape matching functions *)

Definition compute_weight_mat (ref_data_vect test_data_vect : list (SegmentationAnnotation P))
  : result (ndarray F) :=
  let weight_mat :=
    np.empty f_zero (length ref_data_vect) (length test_data_vect) in
  for_range (length ref_data_vect) (fun i weight_mat =>
    for_range (length test_data_vect) (fun j weight_mat =>
      r ← list_getitem ref_data_vect i;
      t ← list_getitem test_data_vect j;
      inter ← py_and (shape r) (shape t);
      np.setitem weight_mat i j (area inter))
    weight_mat)
  weight_mat.

Definition compute_ref_margin_vect (weight_mat : ndarray F)
  : result (list F) :=
  let '(reflen, _testlen) := np.shape weight_mat in
  let ref_margin_vect := np.empty1 f_zero reflen in
  for_range reflen (fun i ref_margin_vect =>
    row ← np.getrow weight_mat i;
    list_setitem ref_margin_vect i (np.sum row))
  ref_margin_vect.

Definition compute_test_margin_vect (weight_mat : ndarray F)
  : result (list F) :=
  let '(_reflen, testlen) := np.shape weight_mat in
  let test_margin_vect := np.empty1 f_zero testlen in
  for_range testlen (fun j test_margin_vect =>
    col ← np.getcol weight_mat j;
    list_setitem test_margin_vect j (np.sum col))
  test_margin_vect.

Definition thresholdRelative : F := f_lit_0_2.
Definition threshold_ref : F := f_lit_0_5.
Definition threshold_test : F := f_lit_0_5.

(** ["...: w:%d m:%d d:%d" % (w, m, d)] *)
Definition lengths_message (side : string) (w m d : nat) : string :=
  side +:+ " vectors have different lenghts: w:" +:+ pretty w
       +:+ " m:" +:+ pretty m +:+ " d:" +:+ pretty d.

Definition compute_link_mat
  (weight_mat : ndarray F) (ref_margin_vect test_margin_vect : list F)
  (ref_data_vect test_data_vect : list (SegmentationAnnotation P))
  : result (ndarray bool) :=
  let '(reflen, testlen) := np.shape weight_mat in
  _ ← py_assert
        (bool_decide (reflen = length ref_margin_vect)
         && bool_decide (length ref_margin_vect = length ref_data_vect))
        (lengths_message "Reference" reflen (length ref_margin_vect)
                         (length ref_data_vect));
  _ ← py_assert
        (bool_decide (testlen = length test_margin_vect)
         && bool_decide (length test_margin_vect = length test_data_vect))
        (lengths_message "Test" testlen (length test_margin_vect)
                         (length test_data_vect));
  let link_mat :=
    np.empty false (length ref_data_vect) (length test_data_vect) in
  for_range (length ref_margin_vect) (fun i link_mat =>
    for_range (length test_margin_vect) (fun j link_mat =>
      significant ←
        (w ← np.getitem weight_mat i j;
         if f_gt w f_zero then
           rm ← list_getitem ref_margin_vect i;
           if f_ge (f_div w rm) thresholdRelative then
             r ← list_getitem ref_data_vect i;
             a ← py_area (shape r);
             if f_gt (f_div w a) threshold_ref
             then Ok true else Ok false
           else
             tm ← list_getitem test_margin_vect j;
             if f_ge (f_div w tm) thresholdRelative then
               t ← list_getitem test_data_vect j;
               a ← py_area (shape t);
               if f_gt (f_div w a) threshold_test
               then Ok true else Ok false
             else Ok false
         else Ok false);
      np.setitem link_mat i j significant)
    link_mat)
  link_mat.

End EvalGeom.

(** *** Error type classification functions *)

Section Classification.

Local Open Scope Z_scope.

Definition find_total_correct_segmentation (link_mat : ndarray bool)
  : result Z :=
  let '(reflen, testlen) := np.shape link_mat in
  for_range reflen (fun i total_correct_segmentation =>
    '(row_match_count, row_match_index) ←
      for_range testlen (fun j '(row_match_count, row_match_index) =>
        b ← np.getitem link_mat i j;
        Ok (if b : bool then (row_match_count + 1, j)
            else (row_match_count, row_match_index)))
      (0, 0%nat);
    if row_match_count =? 1 then
      col_match_count ←
        for_range reflen (fun ii col_match_count =>
          b ← np.getitem link_mat ii row_match_index;
          Ok (if b : bool then col_match_count + 1 else col_match_count))
        0;
      Ok (if col_match_count =? 1 then total_correct_segmentation + 1
          else total_correct_segmentation)
    else Ok total_correct_segmentation)
  0.

Definition find_total_over_segmentation (link_mat : ndarray bool)
  : result Z :=
  let '(reflen, testlen) := np.shape link_mat in
  '(number_refc_at_least_one_edge, number_significant_refc) ←
    for_range reflen
      (fun i '(number_refc_at_least_one_edge, number_significant_refc) =>
        match_flag ←
          for_range testlen (fun j match_flag =>
            b ← np.getitem link_mat i j;
            Ok (if b : bool then match_flag + 1 else match_flag))
          0;
        Ok (if match_flag >? 1
            then (number_refc_at_least_one_edge + match_flag,
                  number_significant_refc + 1)
            else (number_refc_at_least_one_edge, number_significant_refc)))
      (0, 0);
  Ok (number_refc_at_least_one_edge - number_significant_refc).

Definition find_total_under_segmentation (link_mat : ndarray bool)
  : result Z :=
  let '(reflen, testlen) := np.shape link_mat in
  '(number_testc_at_least_one_edge, number_significant_testc) ←
    for_range testlen
      (fun j '(number_testc_at_least_one_edge, number_significant_testc) =>
        match_flag ←
          for_range reflen (fun i match_flag =>
            b ← np.getitem link_mat i j;
            Ok (if b : bool then match_flag + 1 else match_flag))
          0;
        Ok (if match_flag >? 1
            then (number_testc_at_least_one_edge + match_flag,
                  number_significant_testc + 1)
            else (number_testc_at_least_one_edge, number_significant_testc)))
      (0, 0);
  Ok (number_testc_at_least_one_edge - number_significant_testc).

Definition find_num_over_segmentation_components (link_mat : ndarray bool)
  : result Z :=
  let '(reflen, testlen) := np.shape link_mat in
  for_range reflen (fun i num_over_segmentation_component =>
    match_flag ←
      for_range testlen (fun j match_flag =>
        b ← np.getitem link_mat i j;
        Ok (if b : bool then match_flag + 1 else match_flag))
      0;
    Ok (if match_flag >? 1 then num_over_segmentation_component + 1
        else num_over_segmentation_component))
  0.

Definition find_num_under_segmentation_components (link_mat : ndarray bool)
  : result Z :=
  let '(reflen, testlen) := np.shape link_mat in
  for_range testlen (fun j num_under_segmentation_component =>
    match_flag ←
      for_range reflen (fun i match_flag =>
        b ← np.getitem link_mat i j;
        Ok (if b : bool then match_flag + 1 else match_flag))
      0;
    Ok (if match_flag >? 1 then num_under_segmentation_component + 1
        else num_under_segmentation_component))
  0.

Definition find_num_missed_components (link_mat : ndarray bool)
  : result Z :=
  let '(reflen, testlen) := np.shape link_mat in
  for_range reflen (fun i num_missed_components =>
    match_flag ←
      for_range_break testlen (fun j match_flag =>
        b ← np.getitem link_mat i j;
        Ok (if b : bool then Break (match_flag + 1) else Next match_flag))
      0;
    Ok (if match_flag =? 0 then num_missed_components + 1
        else num_missed_components))
  0.

Definition find_num_false_alarm_components (link_mat : ndarray bool)
  : result Z :=
  let '(reflen, testlen) := np.shape link_mat in
  for_range testlen (fun j num_false_alarm_components =>
    match_flag ←
      for_range_break reflen (fun i match_flag =>
        b ← np.getitem link_mat i j;
        Ok (if b : bool then Break (match_flag + 1) else Next match_flag))
      0;
    Ok (if match_flag =? 0 then num_false_alarm_components + 1
        else num_false_alarm_components))
  0.

(** *** [main]: the block "Compute statistics." *)
Definition compute_statistics (link_mat : ndarray bool) : result Metrics :=
  Tc ← find_total_correct_segmentation link_mat;
  To ← find_total_over_segmentation link_mat;
  Tu ← find_total_under_segmentation link_mat;
  Co ← find_num_over_segmentation_components link_mat;
  Cu ← find_num_under_segmentation_components link_mat;
  Cm ← find_num_missed_components link_mat;
  Cf ← find_num_false_alarm_components link_mat;
  let '(Cr, Ct) := np.shape link_mat in
  Ok (mk_metrics Tc To Tu Co Cu Cm Cf (Z.of_nat Cr) (Z.of_nat Ct)).

End Classification.

Section Main.

Context {F P : Type} `{Float F} `{Geometry F P}.

(** [annot.type in types]: [None] is in no list of strings. *)
Definition type_in (types : list string) (annot : SegmentationAnnotation P)
  : bool :=
  match type annot with
  | Some t => bool_decide (t ∈ types)
  | None => false
  end.

(** [main]: the type restriction of the command line.  [None] is the
    absent option; an empty list is falsy as well. *)
Definition restrict (type_restriction : option (list string))
  (input_vect : list (SegmentationAnnotation P))
  : list (SegmentationAnnotation P) :=
  match type_restriction with
  | None | Some [] => input_vect
  | Some types => List.filter (type_in types) input_vect
  end.

(** [main]: from "Process started" to "Process complete". *)
Definition process (ref_data_vect test_data_vect : list (SegmentationAnnotation P))
  : result Metrics :=
  weight_mat ← compute_weight_mat ref_data_vect test_data_vect;
  ref_margin_vect ← compute_ref_margin_vect weight_mat;
  test_margin_vect ← compute_test_margin_vect weight_mat;
  link_mat ← compute_link_mat weight_mat ref_margin_vect test_margin_vect
               ref_data_vect test_data_vect;
  compute_statistics link_mat.

Definition evaluate (type_restriction : option (list string))
  (ref_input_vect test_input_vect : list (SegmentationAnnotation P))
  : result Metrics :=
  process (restrict type_restriction ref_input_vect)
          (restrict type_restriction test_input_vect).

End Main.

(** ** Specification vocabulary *)

(** The inner loop of the degree counters, over the cells [cell 0], ...,
    [cell (n-1)] of a row or of a column:
    [match_flag = 0; for k in range(n): if cell k: match_flag += 1] *)
Definition count_matches (n : nat) (cell : nat -> result bool) : result Z :=
  for_range n (fun k match_flag =>
    b ← cell k;
    Ok (if b : bool then match_flag + 1 else match_flag)%Z)
  0%Z.

(** The same loop with [break] after the first match. *)
Definition first_match (n : nat) (cell : nat -> result bool) : result Z :=
  for_range_break n (fun k match_flag =>
    b ← cell k;
    Ok (if b : bool then Break (match_flag + 1) else Next match_flag)%Z)
  0%Z.

(** The link [L[i,j]], [false] outside the array. *)
Definition cell (L : ndarray bool) (i j : nat) : bool :=
  default false (np.lookup L i j).

(** [sumz f n] is the sum of [f k] for [k < n]. *)
Fixpoint sumz (f : nat -> Z) (n : nat) : Z :=
  match n with
  | O => 0
  | S n' => sumz f n' + f n'
  end%Z.

(** [count p n] is the number of [k < n] with [p k]. *)
Definition count (p : nat -> bool) (n : nat) : Z :=
  sumz (fun k => if p k then 1 else 0)%Z n.

(** The greatest [k < n] with [p k] ([0] when there is none): the value
    of [row_match_index] after the scan of a row. *)
Fixpoint last_match (p : nat -> bool) (n : nat) : nat :=
  match n with
  | O => O
  | S n' => if p n' then n' else last_match p n'
  end.

(** Degree of reference row [i] and of test column [j] in the link matrix. *)
Definition row_degree (L : ndarray bool) (i : nat) : Z :=
  count (fun j => cell L i j) (snd (np.shape L)).

Definition col_degree (L : ndarray bool) (j : nat) : Z :=
  count (fun i => cell L i j) (fst (np.shape L)).

(** Row [i] has exactly one link, to a column that has exactly one link. *)
Definition strict_match (L : ndarray bool) (i : nat) : bool :=
  (row_degree L i =? 1)%Z
  && existsb (fun j => cell L i j && (col_degree L j =? 1)%Z)
             (seq 0 (snd (np.shape L))).

(** What the loop of [find_total_correct_segmentation] tests: degree one,
    and degree one for the column remembered by the scan of the row. *)
Definition reciprocal (L : ndarray bool) (i : nat) : bool :=
  (row_degree L i =? 1)%Z
  && (col_degree L (last_match (cell L i) (snd (np.shape L))) =? 1)%Z.

(** Excess links of a row or column of degree [d]. *)
Definition excess (d : Z) : Z := (if d >? 1 then d - 1 else 0)%Z.

Section LinkRule.

Context {F P : Type} `{Float F} `{Geometry F P}.

(** One iteration of the loops of [compute_link_mat], named for the
    proofs: the value of [significant] assigned to [link_mat[i,j]]. *)
Definition significant_link
  (weight_mat : ndarray F) (ref_margin_vect test_margin_vect : list F)
  (ref_data_vect test_data_vect : list (SegmentationAnnotation P))
  (i j : nat) : result bool :=
  w ← np.getitem weight_mat i j;
  if f_gt w f_zero then
    rm ← list_getitem ref_margin_vect i;
    if f_ge (f_div w rm) thresholdRelative then
      r ← list_getitem ref_data_vect i;
      a ← py_area (shape r);
      if f_gt (f_div w a) threshold_ref
      then Ok true else Ok false
    else
      tm ← list_getitem test_margin_vect j;
      if f_ge (f_div w tm) thresholdRelative then
        t ← list_getitem test_data_vect j;
        a ← py_area (shape t);
        if f_gt (f_div w a) threshold_test
        then Ok true else Ok false
      else Ok false
  else Ok false.

(** The rule of the Link Classifier as the specification words it, for a
    pair of overlap [w], margins [refMargin] and [testMargin], and region
    areas [areaRef] and [areaTest]: no link without overlap, then the
    reference side, and the test side only when the reference gate fails. *)
Definition link_rule (w refMargin areaRef testMargin areaTest : F) : bool :=
  if f_gt w f_zero then
    if f_ge (f_div w refMargin) f_lit_0_2 then
      f_gt (f_div w areaRef) f_lit_0_5
    else if f_ge (f_div w testMargin) f_lit_0_2 then
      f_gt (f_div w areaTest) f_lit_0_5
    else false
  else false.

(** Every entry of the weight matrix is non-negative. *)
Definition nonneg_mat (W : ndarray F) : bool :=
  forallb (forallb (fun w => f_ge w f_zero)) (np.rows W).

(** The annotation has a shape. *)
Definition has_shape (a : SegmentationAnnotation P) : bool :=
  match shape a with
  | Some _ => true
  | None => false
  end.

(** Every pair of a reference and a test annotation can be intersected:
    both have a shape.  This holds when one of the lists is empty, and
    otherwise when every annotation of both lists has a shape. *)
Definition intersectable
  (ref_data_vect test_data_vect : list (SegmentationAnnotation P)) : bool :=
  forallb (fun r => forallb (fun t => has_shape r && has_shape t)
                            test_data_vect)
          ref_data_vect.

End LinkRule.

Section Margins.

Context {F : Type} `{Float F}.

(** The overlap [W[i,j]]. *)
Definition entry (W : ndarray F) (i j : nat) : F :=
  default f_zero (np.lookup W i j).

(** [f_sum f n] adds [f 0], ..., [f (n-1)] in this order. *)
Fixpoint f_sum (f : nat -> F) (n : nat) : F :=
  match n with
  | O => f_zero
  | S n' => f_add (f_sum f n') (f n')
  end.

(** The sum of row [i], and of column [j], of the weight matrix, added in
    the order of the indices. *)
Definition row_sum (W : ndarray F) (i : nat) : F :=
  f_sum (fun j => entry W i j) (snd (np.shape W)).

Definition col_sum (W : ndarray F) (j : nat) : F :=
  f_sum (fun i => entry W i j) (fst (np.shape W)).

(** The entries of row [i], and of column [j]. *)
Definition row (W : ndarray F) (i : nat) : list F :=
  (fun j => entry W i j) <$> seq 0 (snd (np.shape W)).

Definition column (W : ndarray F) (j : nat) : list F :=
  (fun i => entry W i j) <$> seq 0 (fst (np.shape W)).

(** [sums_to v x]: [x] is obtained by adding the entries of [v], each one
    once, in some order and with some bracketing (and possibly zeros).  In
    exact arithmetic there is one such [x], the sum of [v]; in binary64
    the values so obtained differ by rounding. *)
Inductive sums_to : list F -> F -> Prop :=
  | sums_nil : sums_to [] f_zero
  | sums_one x : sums_to [x] x
  | sums_add v1 v2 x y :
      sums_to v1 x -> sums_to v2 y -> sums_to (v1 ++ v2) (f_add x y)
  | sums_perm v v' x : v ≡ₚ v' -> sums_to v x -> sums_to v' x.

End Margins.

(** ** A geometry to run the program on: axis-aligned boxes *)

Record box : Type := mk_box { x_min : Z; y_min : Z; x_max : Z; y_max : Z }.

Definition box_area (b : box) : Z :=
  (Z.max 0 (x_max b - x_min b) * Z.max 0 (y_max b - y_min b))%Z.

Definition box_inter (a b : box) : box :=
  mk_box (Z.max (x_min a) (x_min b)) (Z.max (y_min a) (y_min b))
         (Z.min (x_max a) (x_max b)) (Z.min (y_max a) (y_max b)).

#[global] Instance box_Q : Geometry Q box := {
  area := fun b => inject_Z (box_area b);
  inter := box_inter
}.

#[global] Instance box_binary64 : Geometry float box := {
  area := fun b => PrimFloat.of_uint63 (Uint63.of_Z (box_area b));
  inter := box_inter
}.

Definition region (b : box) : SegmentationAnnotation box :=
  mk_annotation (Some b) (Some "coin") (Some ∅).

(** What the XML driver commits at the closing tag of a [label] element
    that enclosed another region. *)
Definition no_region : SegmentationAnnotation box :=
  mk_annotation None None None.

(** Sample regions: a square, its lower 40%, its upper 60%, a square far
    away, a square that overlaps the first on a quarter, and a small box
    inside the first. *)
Definition square : SegmentationAnnotation box := region (mk_box 0 0 10 10).
Definition low_strip : SegmentationAnnotation box := region (mk_box 0 0 10 4).
Definition high_strip : SegmentationAnnotation box := region (mk_box 0 4 10 10).
Definition far_square : SegmentationAnnotation box := region (mk_box 20 20 30 30).
Definition shifted_square : SegmentationAnnotation box := region (mk_box 5 5 15 15).
Definition dot : SegmentationAnnotation box := region (mk_box 0 0 5 2).

Definition sample_refs : list (SegmentationAnnotation box) :=
  [square; far_square].
Definition sample_tests : list (SegmentationAnnotation box) :=
  [low_strip; high_strip; shifted_square; dot].

(** The weight matrix of [sample_refs] against [sample_tests], and its
    margins. *)
Definition sample_weights : ndarray Q :=
  np.mk_ndarray (2, 4) [[40%Q; 60%Q; 25%Q; 10%Q]; [0%Q; 0%Q; 0%Q; 0%Q]].
Definition sample_ref_margin : list Q := [135%Q; 0%Q].
Definition sample_test_margin : list Q := [40%Q; 60%Q; 25%Q; 10%Q].

(** A link matrix with a one-to-one match (row 0), a split row (row 1),
    a row linked once to a shared column (row 2), and an unlinked row and
    column. *)
Definition sample_links : ndarray bool :=
  np.mk_ndarray (4, 5)
    [[true;  false; false; false; false];
     [false; true;  true;  false; false];
     [false; false; true;  false; false];
     [false; false; false; false; false]].

(** ** Vocabulary for the properties of whole runs *)

(** [L.T]: the link matrix with the roles of the two lists exchanged. *)
Definition transpose (L : ndarray bool) : ndarray bool :=
  let '(n, m) := np.shape L in
  np.mk_ndarray (m, n)
    ((fun j => (fun i => cell L i j) <$> seq 0 n) <$> seq 0 m).

(** [mutual L i j] is 1 when [L[i,j]] links a row of degree 1 and a column
    of degree 1, and 0 otherwise. *)
Definition mutual (L : ndarray bool) (i j : nat) : Z :=
  (if cell L i j && (row_degree L i =? 1) && (col_degree L j =? 1)
   then 1 else 0)%Z.

(** The metrics with the roles of the two lists exchanged. *)
Definition mirror (m : Metrics) : Metrics :=
  {| Tc := Tc m; To := Tu m; Tu := To m; Co := Cu m; Cu := Co m;
     Cm := Cf m; Cf := Cm m; Cr := Ct m; Ct := Cr m |}.

Section Isolation.

Context {F P : Type} `{Float F} `{Geometry F P}.

(** The two regions overlap on a positive area. *)
Definition overlaps (r t : SegmentationAnnotation P) : bool :=
  match shape r, shape t with
  | Some p, Some q => f_gt (area (inter p q)) f_zero
  | _, _ => false
  end.

(** A reference region that overlaps no test region, and a test region
    that overlaps no reference region. *)
Definition lonely_ref (test_data_vect : list (SegmentationAnnotation P))
  (r : SegmentationAnnotation P) : bool :=
  forallb (fun t => negb (overlaps r t)) test_data_vect.

Definition lonely_test (ref_data_vect : list (SegmentationAnnotation P))
  (t : SegmentationAnnotation P) : bool :=
  forallb (fun r => negb (overlaps r t)) ref_data_vect.

End Isolation.

(** The boxes of a list overlap each other on no area. *)
Definition pairwise_disjoint (bs : list box) : Prop :=
  forall i j a b, bs !! i = Some a -> bs !! j = Some b -> i <> j ->
                  box_area (box_inter a b) = 0%Z.

(** ** The input drivers ([drivers/InputDriver.py], [plugin_numis/]) and
       the file names of [segmenter.py] *)

(** The exceptions of the drivers are those of the program. *)
Abbreviation py_error := exn.

Inductive outcome (A : Type) : Type :=
  | Returned (a : A)
  | Raised (e : py_error).
Arguments Returned {A} a.
Arguments Raised {A} e.

#[global] Instance outcome_ret : MRet outcome := fun _ a => Returned a.
#[global] Instance outcome_bind : MBind outcome := fun _ _ k m =>
  match m with
  | Returned a => k a
  | Raised e => Raised e
  end.

(** [s[i]], a string of one character. *)
Definition str_getitem (s : string) (i : nat) : outcome string :=
  match String.get i s with
  | Some c => Returned (String c EmptyString)
  | None => Raised StrIndexError
  end.

(** [s[k:]] *)
Fixpoint str_from (k : nat) (s : string) : string :=
  match k, s with
  | O, _ => s
  | S k', String _ s' => str_from k' s'
  | S _, EmptyString => EmptyString
  end.

(** [s[0:k]] *)
Fixpoint str_upto (k : nat) (s : string) : string :=
  match k, s with
  | S k', String c s' => String c (str_upto k' s')
  | _, _ => EmptyString
  end.

(** [d[key]] *)
Definition dict_getitem (d : dict) (key : string) : outcome string :=
  match d !! key with
  | Some v => Returned v
  | None => Raised (KeyError key)
  end.

(** [key not in d] *)
Definition not_in (key : string) (d : dict) : bool :=
  bool_decide (d !! key = None).

Module lifInputDriver.

Definition typemapping : dict :=
  {[ "c" := "coin"; "l" := "label"; "t" := "text"; "n" := "noise" ]}.

Definition coinsidemapping : dict :=
  {[ "a" := "avers"; "r" := "revers"; "i" := "isolated" ]}.

Definition parseLabel (label : string) : outcome (string * dict) :=
  if decide (String.length label < 1) then Raised (ValueError label) else
  let attributes : dict := ∅ in
  c0 ← str_getitem label 0;
  if not_in c0 typemapping then Raised (ValueError label) else
  atype ← dict_getitem typemapping c0;
  attributes ←
    (if decide (atype = "coin") then
       if decide (String.length label < 3) then Raised (ValueError label) else
       c1 ← str_getitem label 1;
       if not_in c1 coinsidemapping then Raised (ValueError label) else
       side ← dict_getitem coinsidemapping c1;
       let attributes := <["side" := side]> attributes in
       let attributes := <["id" := str_from 2 label]> attributes in
       Returned attributes
     else if decide (atype = "label") then
       if decide (String.length label < 2) then Raised (ValueError label) else
       Returned (<["id" := str_from 1 label]> attributes)
     else if decide (atype = "text") then
       if decide (String.length label < 2) then Raised (ValueError label) else
       Returned (<["id" := str_from 1 label]> attributes)
     else if decide (atype = "noise") then
       Returned attributes
     else Raised (ValueError label));
  Returned (atype, attributes).

End lifInputDriver.

(** [segmenter.py] *)
Definition gen_filename_base (atype : string) (attributes : dict)
  : outcome string :=
  if decide (atype = "coin") then
    side ← dict_getitem attributes "side";
    side0 ← str_getitem side 0;
    id ← dict_getitem attributes "id";
    Returned ("c" +:+ side0 +:+ id)
  else if decide (atype = "label") then
    id ← dict_getitem attributes "id";
    Returned ("l" +:+ id)
  else if decide (atype = "text") then
    id ← dict_getitem attributes "id";
    Returned ("t" +:+ id)
  else if decide (atype = "noise") then
    Returned "n"
  else Raised (UnknownFormat atype attributes).

(** [drivers/InputDriver.py].  A driver class is its [load] method; it
    returns the annotations it read, or [None]. *)
Section LoadWithAnyDriver.

Context {A : Type}.

Definition driver : Type := string -> outcome (option A).

(** The loop of [loadWithAnyDriver]: the value of [input_data] after it. *)
Fixpoint try_drivers (filename : string) (input_drivers : list driver)
  : outcome (option A) :=
  match input_drivers with
  | [] => Returned None
  | driver_cls :: rest =>
      match driver_cls filename with
      | Returned input_data => Returned input_data          (* break *)
      | Raised (UnsupportedFile _) => try_drivers filename rest
      | Raised e => Raised e
      end
  end.

Definition loadWithAnyDriver (filename : string) (input_drivers : list driver)
  : outcome A :=
  input_data ← try_drivers filename input_drivers;
  match input_data with
  | None => Raised (NoInputDriverCompatibleError filename)
  | Some data => Returned data
  end.

(** The driver does not recognise the file. *)
Definition unsupported (filename : string) (d : driver) : Prop :=
  exists f, d filename = Raised (UnsupportedFile f).

End LoadWithAnyDriver.

(** The annotations a LIF label can denote: a coin side with its
    identifier, a label or a text with its identifier, or noise. *)
Definition well_formed (atype : string) (attributes : dict) : Prop :=
  (atype = "coin"
   /\ exists side id,
        (side = "avers" \/ side = "revers" \/ side = "isolated")
        /\ id <> "" /\ attributes = {[ "side" := side; "id" := id ]})
  \/ ((atype = "label" \/ atype = "text")
      /\ exists id, id <> "" /\ attributes = {[ "id" := id ]})
  \/ (atype = "noise" /\ attributes = ∅).

(** The labels of the LIF format: ["c"], a side letter and an identifier;
    ["l"] or ["t"] and an identifier; ["n"] and anything. *)
Definition accepted_label (label : string) : Prop :=
  (exists c1 id, (c1 = "a" \/ c1 = "r" \/ c1 = "i") /\ id <> ""
                 /\ label = "c" +:+ c1 +:+ id)
  \/ (exists c0 id, (c0 = "l" \/ c0 = "t") /\ id <> "" /\ label = c0 +:+ id)
  \/ (exists rest, label = "n" +:+ rest).

(** [plugin_numis/catinfoXMLInputDriver.py] *)

(** What the XML driver asks of Python and of the polygon code:
    [float(s)] ([None] stands for its [ValueError]),
    [Polygon.Polygon(points)] and [utils.polygon.isSelfIntersecting]. *)
Class Shapes (F P : Type) : Type := {
  float_of_string : string -> option F;
  Polygon_of : list (F * F) -> P;
  isSelfIntersecting : P -> bool
}.

Module catinfoXMLInputDriver.

Definition tag_coins : string := "coins".
Definition tag_coin : string := "coin".
Definition tag_image : string := "image".
Definition tag_label : string := "label".

(** [attrs.getValue(name)] *)
Definition getValue (attrs : dict) (name : string) : outcome string :=
  match attrs !! name with
  | Some v => Returned v
  | None => Raised (KeyError name)
  end.

(** [_catinfoContentHandler._parseCoinSide] *)
Definition _parseCoinSide (attrs : dict) : outcome string :=
  face ← getValue attrs "face";
  let f := str_upto (Nat.min 3 (String.length face)) face in
  if decide (f = "aver") then Returned "avers"
  else if decide (f = "reve") then Returned "revers"
  else Returned "isolated".

(** ["%04d" % n] *)
Fixpoint zeros (n : nat) : string :=
  match n with
  | O => ""
  | S n' => "0" +:+ zeros n'
  end.

Definition zero_pad (width : nat) (digits : string) : string :=
  zeros (width - String.length digits) +:+ digits.

Definition format_04d (n : Z) : string :=
  if (n <? 0)%Z then "-" +:+ zero_pad 3 (pretty (Z.abs n))
  else zero_pad 4 (pretty n).

Section Handler.

Context {F P : Type} `{Float F} `{Shapes F P}.

(** The fields of [_catinfoContentHandler]. *)
Record handler : Type := mk_handler {
  eltStack : list string;
  annotations : list (SegmentationAnnotation P);
  cType : option string;
  cShape : option P;
  cAttrib : option dict;
  cAutoId : Z;
  insideUnk : option nat
}.

(** [__init__] *)
Definition init : handler :=
  mk_handler [] [] None None None 0 None.

Definition set_eltStack (v : list string) (self : handler) : handler :=
  mk_handler v (annotations self) (cType self) (cShape self) (cAttrib self)
             (cAutoId self) (insideUnk self).
Definition set_annotations (v : list (SegmentationAnnotation P))
  (self : handler) : handler :=
  mk_handler (eltStack self) v (cType self) (cShape self) (cAttrib self)
             (cAutoId self) (insideUnk self).
Definition set_cType (v : option string) (self : handler) : handler :=
  mk_handler (eltStack self) (annotations self) v (cShape self) (cAttrib self)
             (cAutoId self) (insideUnk self).
Definition set_cShape (v : option P) (self : handler) : handler :=
  mk_handler (eltStack self) (annotations self) (cType self) v (cAttrib self)
             (cAutoId self) (insideUnk self).
Definition set_cAttrib (v : option dict) (self : handler) : handler :=
  mk_handler (eltStack self) (annotations self) (cType self) (cShape self) v
             (cAutoId self) (insideUnk self).
Definition set_cAutoId (v : Z) (self : handler) : handler :=
  mk_handler (eltStack self) (annotations self) (cType self) (cShape self)
             (cAttrib self) v (insideUnk self).
Definition set_insideUnk (v : option nat) (self : handler) : handler :=
  mk_handler (eltStack self) (annotations self) (cType self) (cShape self)
             (cAttrib self) (cAutoId self) v.

(** [float(attrs.getValue(name))] *)
Definition float_attr (attrs : dict) (name : string) : outcome F :=
  s ← getValue attrs name;
  match float_of_string s with
  | Some v => Returned v
  | None => Raised (ValueError s)
  end.

(** [BadPolygon] is not defined in the module: raising it is a
    [NameError]. *)
Definition _parseShapeAttr (self : handler) (attrs : dict) : outcome handler :=
  x ← float_attr attrs "x";
  y ← float_attr attrs "y";
  w ← float_attr attrs "w";
  h ← float_attr attrs "h";
  let shape :=
    Polygon_of [(x, y); (x, f_add y h); (f_add x w, f_add y h); (f_add x w, y)] in
  if isSelfIntersecting shape then Raised (NameError "BadPolygon")
  else Returned (set_cShape (Some shape) self).

Definition _autoIdStr (self : handler) : string :=
  "_autogen_" +:+ format_04d (cAutoId self).

Definition _commitAnnot (self : handler) : handler :=
  let self :=
    set_annotations
      (annotations self ++ [mk_annotation (cShape self) (cType self) (cAttrib self)])
      self in
  set_cShape None (set_cType None (set_cAttrib None self)).

Definition startElement (self : handler) (name : string) (attrs : dict)
  : outcome handler :=
  let self := set_eltStack (eltStack self ++ [name]) self in
  if decide (name = tag_coins) then Returned self
  else if decide (name = tag_coin) then
    Returned (set_cAutoId (cAutoId self + 1) self)
  else if decide (name = tag_label) then
    let self := set_cType (Some "label") self in
    self ← _parseShapeAttr self attrs;
    Returned (set_cAttrib (Some {[ "id" := _autoIdStr self ]}) self)
  else if decide (name = tag_image) then
    let self := set_cType (Some "coin") self in
    self ← _parseShapeAttr self attrs;
    let id := _autoIdStr self in
    side ← _parseCoinSide attrs;
    Returned (set_cAttrib (Some {[ "id" := id; "side" := side ]}) self)
  else
    Returned (set_insideUnk (Some (length (eltStack self))) self).

(** [eltStack.pop()] on a non-empty list: the last element and the rest. *)
Definition pop (l : list string) : option (string * list string) :=
  match rev l with
  | [] => None
  | x :: r => Some (x, rev r)
  end.

Definition endElement (self : handler) (name : string) : outcome handler :=
  match pop (eltStack self) with
  | None =>
      Raised (XMLFileError
                ("Got unexpected element end: '" +:+ name
                 +:+ "'. Expected start of document."))
  | Some (prevElt, stack) =>
      let self := set_eltStack stack self in
      if decide (name <> prevElt) then
        Raised (XMLFileError
                  ("Got unexpected element end: '" +:+ name
                   +:+ "'. Expected closing '" +:+ prevElt +:+ "'."))
      else
        self ←
          (if decide (name = tag_coins) then Returned self
           else if decide (name = tag_coin) then Returned self
           else if decide (name = tag_label) then Returned (_commitAnnot self)
           else if decide (name = tag_image) then
             (* the debug message reads [self.cAttrib['side']] *)
             match cAttrib self with
             | None => Raised TypeError
             | Some attrib =>
                 _ ← dict_getitem attrib "side";
                 Returned (_commitAnnot self)
             end
           else Returned self);
        match insideUnk self with
        | Some level =>
            if decide (length (eltStack self) < level)
            then Returned (set_insideUnk None self)
            else Returned self
        | None => Returned self
        end
  end.

Definition characters (self : handler) (content : string) : outcome handler :=
  Returned self.

(** The calls that [xml.sax.parse] makes to the handler. *)
Inductive event : Type :=
  | StartElement (name : string) (attrs : dict)
  | EndElement (name : string)
  | Characters (content : string).

Definition handle (self : handler) (ev : event) : outcome handler :=
  match ev with
  | StartElement name attrs => startElement self name attrs
  | EndElement name => endElement self name
  | Characters content => characters self content
  end.

Fixpoint feed (events : list event) (self : handler) : outcome handler :=
  match events with
  | [] => Returned self
  | ev :: rest => self ← handle self ev; feed rest self
  end.

End Handler.

End catinfoXMLInputDriver.

(** Vocabulary for the properties of the content handler. *)
Section HandlerVocabulary.

Import catinfoXMLInputDriver.

Context {F P : Type} `{Float F} `{Shapes F P}.

(** The stack of open elements after the events, when every closing tag
    closes the element opened last. *)
Fixpoint nesting (events : list event) (stack : list string)
  : option (list string) :=
  match events with
  | [] => Some stack
  | StartElement name _ :: rest => nesting rest (stack ++ [name])
  | EndElement name :: rest =>
      match pop stack with
      | Some (prevElt, stack') =>
          if decide (name = prevElt) then nesting rest stack' else None
      | None => None
      end
  | Characters _ :: rest => nesting rest stack
  end.

(** The number of closing [label] and [image] tags. *)
Fixpoint closed_regions (events : list event) : nat :=
  match events with
  | [] => 0
  | EndElement name :: rest =>
      (if decide (name = tag_label \/ name = tag_image) then 1 else 0)
      + closed_regions rest
  | _ :: rest => closed_regions rest
  end.

(** The number of opening [coin] tags. *)
Fixpoint opened_coins (events : list event) : nat :=
  match events with
  | [] => 0
  | StartElement name _ :: rest =>
      (if decide (name = tag_coin) then 1 else 0) + opened_coins rest
  | _ :: rest => opened_coins rest
  end.

(** The attributes [x], [y], [w], [h] are numbers and describe the
    rectangle [shape], which is accepted. *)
Definition describes (attrs : dict) (shape : P) : Prop :=
  exists sx sy sw sh x y w h,
    attrs !! "x" = Some sx /\ float_of_string sx = Some x
    /\ attrs !! "y" = Some sy /\ float_of_string sy = Some y
    /\ attrs !! "w" = Some sw /\ float_of_string sw = Some w
    /\ attrs !! "h" = Some sh /\ float_of_string sh = Some h
    /\ shape = Polygon_of [(x, y); (x, f_add y h);
                           (f_add x w, f_add y h); (f_add x w, y)]
    /\ isSelfIntersecting shape = false.

(** A result of the handler without its field [insideUnk]. *)
Definition without_insideUnk (r : outcome (handler (P := P)))
  : outcome (handler (P := P)) :=
  match r with
  | Returned self => Returned (set_insideUnk None self)
  | Raised e => Raised e
  end.

End HandlerVocabulary.

(** A reading of the interface for examples: [float] of a whole number
    written in decimal, a polygon as the list of its corners, and a test
    that accepts every polygon. *)
Fixpoint digits (s : string) (acc : Z) : option Z :=
  match s with
  | EmptyString => Some acc
  | String c rest =>
      let n := Ascii.nat_of_ascii c in
      if (48 <=? n)%nat && (n <=? 57)%nat
      then digits rest (10 * acc + Z.of_nat (n - 48))%Z
      else None
  end.

Definition whole_number (s : string) : option Q :=
  match s with
  | EmptyString => None
  | _ => inject_Z <$> digits s 0
  end.

#[global] Instance corners : Shapes Q (list (Q * Q)) := {
  float_of_string := whole_number;
  Polygon_of := fun points => points;
  isSelfIntersecting := fun _ => false
}.

(** A rectangle as the attributes of a [label] or [image] element. *)
Definition sample_attrs : dict :=
  {[ "x" := "2"; "y" := "3"; "w" := "10"; "h" := "5"; "face" := "avers" ]}.

Definition sample_rectangle : list (Q * Q) :=
  [(2%Q, 3%Q); (2%Q, f_add 3%Q 5%Q);
   (f_add 2%Q 10%Q, f_add 3%Q 5%Q); (f_add 2%Q 10%Q, 3%Q)].

(** A region of another type than the samples. *)
Definition sample_text : SegmentationAnnotation box :=
  mk_annotation (Some (mk_box 0 0 10 10)) (Some "text") (Some ∅).

(** ** Reasoning about loops *)

Section Loops.

Context {S : Type}.

Lemma bind_Ok {A B} (m : result A) (k : A -> result B) (b : B) :
  m ≫= k = Ok b <-> exists a, m = Ok a /\ k a = Ok b.
Proof.
  destruct m as [a|e]; simpl; split.
  - intros Hk. exists a. split; [reflexivity | exact Hk].
  - intros (a' & Ha & Hk). inversion Ha. subst. exact Hk.
  - intros Hk. discriminate Hk.
  - intros (a' & Ha & _). discriminate Ha.
Qed.

Lemma for_each_app (l1 l2 : list nat) (body : nat -> S -> result S) s :
  for_each (l1 ++ l2) body s = for_each l1 body s ≫= for_each l2 body.
Proof.
  revert s. induction l1 as [|i l1 IH]; intros s; simpl.
  - reflexivity.
  - destruct (body i s) as [s'|e]; simpl; [apply IH | reflexivity].
Qed.

Lemma for_range_S n (body : nat -> S -> result S) s :
  for_range (Datatypes.S n) body s = for_range n body s ≫= body n.
Proof.
  unfold for_range. rewrite seq_S, for_each_app. simpl.
  destruct (for_each (seq 0 n) body s) as [s'|e]; simpl; [|reflexivity].
  destruct (body n s'); reflexivity.
Qed.

(** The invariant rule: a body that never raises while the invariant
    holds runs to completion. *)
Lemma for_range_inv (I : nat -> S -> Prop) n body s0 :
  I 0 s0 ->
  (forall i s, i < n -> I i s ->
               exists s', body i s = Ok s' /\ I (Datatypes.S i) s') ->
  exists s', for_range n body s0 = Ok s' /\ I n s'.
Proof.
  intros H0 Hstep. induction n as [|n IH].
  - exists s0. split; [reflexivity | exact H0].
  - destruct IH as (s1 & Hrun & HI).
    { intros i s Hi. apply Hstep. lia. }
    destruct (Hstep n s1) as (s2 & Hbody & HI2); [lia | exact HI |].
    exists s2. split; [| exact HI2].
    rewrite for_range_S, Hrun. exact Hbody.
Qed.

(** A loop whose body may raise ends with the invariant, or with an
    exception of the body. *)
Lemma for_range_cases (I : nat -> S -> Prop) (E : exn -> Prop) n body s0 :
  I 0 s0 ->
  (forall i s, i < n -> I i s ->
     match body i s with
     | Ok s' => I (Datatypes.S i) s'
     | Raise e => E e
     end) ->
  match for_range n body s0 with
  | Ok s' => I n s'
  | Raise e => E e
  end.
Proof.
  intros H0 Hstep. induction n as [|n IH]; [exact H0|].
  rewrite for_range_S.
  assert (match for_range n body s0 with
          | Ok s' => I n s'
          | Raise e => E e
          end) as Hn.
  { apply IH. intros i s Hi. apply Hstep. lia. }
  destruct (for_range n body s0) as [s1|e]; simpl; [|exact Hn].
  apply Hstep; [lia | exact Hn].
Qed.

(** The state after [i] iterations is a function [g i] of the inputs. *)
Lemma for_range_fun (g : nat -> S) n body :
  (forall i, i < n -> body i (g i) = Ok (g (Datatypes.S i))) ->
  for_range n body (g 0) = Ok (g n).
Proof.
  intros Hstep.
  destruct (for_range_inv (fun i s => s = g i) n body (g 0))
    as (s & Hrun & ->); [reflexivity | | exact Hrun].
  intros i s Hi ->. exists (g (Datatypes.S i)). split; [|reflexivity].
  apply Hstep, Hi.
Qed.

(** A loop whose only exit is [break] at the first index satisfying [p]. *)
Lemma for_each_break_first (p : nat -> bool) l body (s s1 : S) :
  (forall k, k ∈ l ->
     body k s = Ok (if p k then Break s1 else Next s)) ->
  for_each_break l body s = Ok (if existsb p l then s1 else s).
Proof.
  induction l as [|k l IH]; intros Hbody; simpl.
  - reflexivity.
  - rewrite (Hbody k) by constructor. simpl.
    destruct (p k); simpl; [reflexivity |].
    apply IH. intros k' Hk'. apply Hbody. constructor. exact Hk'.
Qed.

End Loops.

(** ** Reasoning about arrays *)

Section Arrays.

Context {A : Type}.
Implicit Types (a : ndarray A) (l : list A).

Lemma list_getitem_Ok l i x : l !! i = Some x -> list_getitem l i = Ok x.
Proof. unfold list_getitem. intros ->. reflexivity. Qed.

Lemma list_getitem_lt l i :
  i < length l -> exists x, l !! i = Some x /\ list_getitem l i = Ok x.
Proof.
  intros Hi. destruct (lookup_lt_is_Some_2 l i Hi) as [x Hx].
  exists x. split; [exact Hx | apply list_getitem_Ok, Hx].
Qed.

Lemma list_setitem_Ok l i v :
  i < length l -> list_setitem l i v = Ok (<[i := v]> l).
Proof. intros Hi. unfold list_setitem. rewrite decide_True; auto. Qed.

Lemma well_shaped_rows a :
  np.well_shaped a = true -> length (np.rows a) = fst (np.shape a).
Proof.
  unfold np.well_shaped. intros Hw.
  apply andb_prop in Hw as [Hn _]. apply Nat.eqb_eq, Hn.
Qed.

Lemma well_shaped_row a i r :
  np.well_shaped a = true -> np.rows a !! i = Some r ->
  length r = snd (np.shape a).
Proof.
  unfold np.well_shaped. intros Hw Hr.
  apply andb_prop in Hw as [_ Hm].
  rewrite forallb_forall in Hm. apply Nat.eqb_eq, Hm.
  apply list_elem_of_In, list_elem_of_lookup. exists i. exact Hr.
Qed.

Lemma well_shaped_intro a :
  length (np.rows a) = fst (np.shape a) ->
  (forall i r, np.rows a !! i = Some r -> length r = snd (np.shape a)) ->
  np.well_shaped a = true.
Proof.
  intros Hn Hm. unfold np.well_shaped. apply andb_true_intro. split.
  - apply Nat.eqb_eq, Hn.
  - apply forallb_forall. intros r Hr. apply Nat.eqb_eq.
    apply list_elem_of_In, list_elem_of_lookup in Hr as [i Hi].
    apply (Hm i r Hi).
Qed.

(** In range every cell of a well-shaped array is there. *)
Lemma lookup_in_range a i j :
  np.well_shaped a = true ->
  i < fst (np.shape a) -> j < snd (np.shape a) ->
  exists v, np.lookup a i j = Some v.
Proof.
  intros Hw Hi Hj. unfold np.lookup.
  rewrite <- (well_shaped_rows a Hw) in Hi.
  destruct (lookup_lt_is_Some_2 _ _ Hi) as [r Hr]. rewrite Hr. simpl.
  apply lookup_lt_is_Some_2. rewrite (well_shaped_row a i r Hw Hr). exact Hj.
Qed.

Lemma getitem_lookup a i j v :
  np.lookup a i j = Some v -> np.getitem a i j = Ok v.
Proof.
  unfold np.lookup, np.getitem. destruct (np.rows a !! i) as [r|]; simpl.
  - apply list_getitem_Ok.
  - discriminate.
Qed.

Lemma empty_well_shaped (junk : A) n m :
  np.well_shaped (np.empty junk n m) = true.
Proof.
  apply well_shaped_intro; simpl.
  - apply length_replicate.
  - intros i r Hr. apply lookup_replicate in Hr as [-> _].
    apply length_replicate.
Qed.

(** Assignment in range succeeds, keeps the shape, writes the cell and
    leaves the others alone. *)
Lemma setitem_in_range a i j v :
  np.well_shaped a = true ->
  i < fst (np.shape a) -> j < snd (np.shape a) ->
  exists a', np.setitem a i j v = Ok a'
    /\ np.well_shaped a' = true
    /\ np.shape a' = np.shape a
    /\ np.lookup a' i j = Some v
    /\ (forall i' j', (i', j') <> (i, j) ->
                      np.lookup a' i' j' = np.lookup a i' j').
Proof.
  intros Hw Hi Hj. unfold np.setitem.
  pose proof (well_shaped_rows a Hw) as Hn.
  destruct (lookup_lt_is_Some_2 (np.rows a) i) as [r Hr]; [lia|].
  pose proof (well_shaped_row a i r Hw Hr) as Hm.
  rewrite Hr, list_setitem_Ok by lia. simpl.
  eexists. split; [reflexivity|]. repeat split; simpl.
  - apply well_shaped_intro; simpl.
    + rewrite length_insert. exact Hn.
    + intros i' r' Hr'. destruct (decide (i = i')) as [<-|Hne].
      * rewrite list_lookup_insert_eq in Hr' by lia.
        inversion Hr'. rewrite length_insert. exact Hm.
      * rewrite list_lookup_insert_ne in Hr' by exact Hne.
        apply (well_shaped_row a i' r' Hw Hr').
  - unfold np.lookup. simpl. rewrite list_lookup_insert_eq by lia. simpl.
    apply list_lookup_insert_eq. lia.
  - intros i' j' Hne. unfold np.lookup. simpl.
    destruct (decide (i = i')) as [<-|Hi'].
    + rewrite list_lookup_insert_eq by lia. rewrite Hr. simpl.
      apply list_lookup_insert_ne. congruence.
    + rewrite list_lookup_insert_ne by exact Hi'. reflexivity.
Qed.

(** The two nested loops that assign every cell of an array. *)
Lemma fill_loop (g : nat -> nat -> A)
      (body : nat -> nat -> ndarray A -> result (ndarray A)) a0 n m :
  np.well_shaped a0 = true -> np.shape a0 = (n, m) ->
  (forall i j a, i < n -> j < m -> body i j a = np.setitem a i j (g i j)) ->
  exists a,
    for_range n (fun i a => for_range m (fun j a => body i j a) a) a0 = Ok a
    /\ np.well_shaped a = true
    /\ np.shape a = (n, m)
    /\ forall i j, i < n -> j < m -> np.lookup a i j = Some (g i j).
Proof.
  intros Hw Hs Hbody.
  pose (I := fun (i : nat) (a : ndarray A) =>
    np.well_shaped a = true /\ np.shape a = (n, m)
    /\ forall i' j', i' < i -> j' < m -> np.lookup a i' j' = Some (g i' j')).
  destruct (for_range_inv I n
              (fun i a => for_range m (fun j a => body i j a) a) a0)
    as (a & Hrun & Hwa & Hsa & Hcells).
  { repeat split; [exact Hw | exact Hs | intros; lia]. }
  { intros i a Hi (Hwa & Hsa & Hdone).
    pose (J := fun (j : nat) (b : ndarray A) =>
      np.well_shaped b = true /\ np.shape b = (n, m)
      /\ forall i' j', (i' < i \/ (i' = i /\ j' < j)) -> j' < m ->
                       np.lookup b i' j' = Some (g i' j')).
    destruct (for_range_inv J m (fun j b => body i j b) a)
      as (b & Hrunb & Hwb & Hsb & Hb).
    { repeat split; [exact Hwa | exact Hsa |].
      intros i' j' [Hlt | [_ Hlt]] Hj'; [apply Hdone; assumption | lia]. }
    { intros j b Hj (Hwb & Hsb & Hb).
      destruct (setitem_in_range b i j (g i j) Hwb)
        as (b' & Hset & Hwb' & Hsb' & Hnew & Hold);
        [rewrite Hsb; exact Hi | rewrite Hsb; exact Hj |].
      exists b'. split; [rewrite Hbody by assumption; exact Hset|].
      repeat split; [exact Hwb' | congruence |].
      intros i' j' Hcase Hj'.
      destruct (decide ((i', j') = (i, j))) as [Heq|Hne].
      - inversion Heq. subst. exact Hnew.
      - rewrite Hold by exact Hne. apply Hb; [|exact Hj'].
        destruct Hcase as [Hlt | [-> Hlt]]; [left; exact Hlt|].
        right. split; [reflexivity|].
        assert (j' <> j) by congruence. lia. }
    exists b. split; [exact Hrunb|]. repeat split; [exact Hwb | exact Hsb|].
    intros i' j' Hi' Hj'. apply Hb; [|exact Hj'].
    destruct (decide (i' = i)) as [->|]; [right; split; [reflexivity | exact Hj'] | left; lia]. }
  exists a. repeat split; assumption.
Qed.

(** The same loops when the value of a cell may raise: every cell is
    assigned, or the exception of a cell ends the loops. *)
Lemma fill_loop_cases (g : nat -> nat -> result A)
      (body : nat -> nat -> ndarray A -> result (ndarray A)) a0 n m :
  np.well_shaped a0 = true -> np.shape a0 = (n, m) ->
  (forall i j a, i < n -> j < m ->
     body i j a = (v ← g i j; np.setitem a i j v)) ->
  match for_range n (fun i a => for_range m (fun j a => body i j a) a) a0 with
  | Ok a =>
      np.well_shaped a = true /\ np.shape a = (n, m)
      /\ forall i j, i < n -> j < m ->
           exists v, g i j = Ok v /\ np.lookup a i j = Some v
  | Raise e => exists i j, i < n /\ j < m /\ g i j = Raise e
  end.
Proof.
  intros Hw Hs Hbody.
  pose (E := fun e : exn => exists i j, i < n /\ j < m /\ g i j = Raise e).
  pose (I := fun (i : nat) (a : ndarray A) =>
    np.well_shaped a = true /\ np.shape a = (n, m)
    /\ forall i' j', i' < i -> j' < m ->
         exists v, g i' j' = Ok v /\ np.lookup a i' j' = Some v).
  apply (for_range_cases I E).
  { repeat split; [exact Hw | exact Hs | intros; lia]. }
  intros i a Hi (Hwa & Hsa & Hdone).
  pose (J := fun (j : nat) (b : ndarray A) =>
    np.well_shaped b = true /\ np.shape b = (n, m)
    /\ forall i' j', (i' < i \/ (i' = i /\ j' < j)) -> j' < m ->
         exists v, g i' j' = Ok v /\ np.lookup b i' j' = Some v).
  assert (match for_range m (fun j b => body i j b) a with
          | Ok b => J m b
          | Raise e => E e
          end) as Hin.
  { apply (for_range_cases J E).
    { repeat split; [exact Hwa | exact Hsa |].
      intros i' j' [Hlt | [_ Hlt]] Hj'; [apply Hdone; assumption | lia]. }
    intros j b Hj (Hwb & Hsb & Hb). rewrite Hbody by assumption.
    destruct (g i j) as [v|e] eqn:Hg; simpl;
      [|exists i, j; repeat split; assumption].
    destruct (setitem_in_range b i j v Hwb)
      as (b' & -> & Hwb' & Hsb' & Hnew & Hold);
      [rewrite Hsb; exact Hi | rewrite Hsb; exact Hj |].
    repeat split; [exact Hwb' | congruence |].
    intros i' j' Hcase Hj'.
    destruct (decide ((i', j') = (i, j))) as [Heq|Hne].
    - inversion Heq. subst. exists v. split; [exact Hg | exact Hnew].
    - rewrite Hold by exact Hne. apply Hb; [|exact Hj'].
      destruct Hcase as [Hlt | [-> Hlt]]; [left; exact Hlt|].
      right. split; [reflexivity|].
      assert (j' <> j) by congruence. lia. }
  destruct (for_range m (fun j b => body i j b) a) as [b|e]; [|exact Hin].
  destruct Hin as (Hwb & Hsb & Hb).
  repeat split; [exact Hwb | exact Hsb |].
  intros i' j' Hi' Hj'. apply Hb; [|exact Hj'].
  destruct (decide (i' = i)) as [->|];
    [right; split; [reflexivity | exact Hj'] | left; lia].
Qed.

(** The loop that assigns every entry of a one-dimensional array. *)
Lemma fill_loop1 (g : nat -> A)
      (body : nat -> list A -> result (list A)) (junk : A) n :
  (forall i v, i < n -> length v = n ->
               body i v = list_setitem v i (g i)) ->
  exists v, for_range n body (np.empty1 junk n) = Ok v
    /\ length v = n
    /\ forall i, i < n -> v !! i = Some (g i).
Proof.
  intros Hbody.
  pose (I := fun (i : nat) (v : list A) =>
    length v = n /\ forall k, k < i -> v !! k = Some (g k)).
  destruct (for_range_inv I n body (np.empty1 junk n)) as (v & Hrun & Hv).
  { split; [apply length_replicate | intros; lia]. }
  { intros i v Hi (Hlen & Hdone). exists (<[i := g i]> v). split.
    - rewrite Hbody by assumption. apply list_setitem_Ok. lia.
    - split; [rewrite length_insert; exact Hlen|].
      intros k Hk. destruct (decide (i = k)) as [<-|Hne].
      + apply list_lookup_insert_eq. lia.
      + rewrite list_lookup_insert_ne by exact Hne. apply Hdone. lia. }
  exists v. split; [exact Hrun | exact Hv].
Qed.

End Arrays.

(** ** The Margin Vector Calculator *)

Section MarginFacts.

Context {F : Type} `{Float F}.

Lemma f_sum_ext (f g : nat -> F) n :
  (forall k, k < n -> f k = g k) -> f_sum f n = f_sum g n.
Proof.
  induction n as [|n IH]; intros Hfg; simpl.
  - reflexivity.
  - rewrite IH, Hfg by (intros; auto with lia). reflexivity.
Qed.

(** *** What [.sum()] adds *)

Lemma fold_left_sums (v u : list F) acc :
  sums_to u acc -> sums_to (u ++ v) (fold_left f_add v acc).
Proof.
  revert u acc. induction v as [|x v IH]; intros u acc Hu; simpl.
  - rewrite app_nil_r. exact Hu.
  - change (x :: v) with ([x] ++ v). rewrite app_assoc.
    apply IH, sums_add; [exact Hu | apply sums_one].
Qed.

(** The end of the unrolled loop: the eight partial sums are added two by
    two, then the entries left over. *)
Lemma sum_tail_sums (a : list F) r0 r1 r2 r3 r4 r5 r6 r7
      l0 l1 l2 l3 l4 l5 l6 l7 :
  sums_to l0 r0 -> sums_to l1 r1 -> sums_to l2 r2 -> sums_to l3 r3 ->
  sums_to l4 r4 -> sums_to l5 r5 -> sums_to l6 r6 -> sums_to l7 r7 ->
  sums_to (l0 ++ l1 ++ l2 ++ l3 ++ l4 ++ l5 ++ l6 ++ l7 ++ a)
    (fold_left f_add a
       (f_add (f_add (f_add r0 r1) (f_add r2 r3))
              (f_add (f_add r4 r5) (f_add r6 r7)))).
Proof.
  intros H0 H1 H2 H3 H4 H5 H6 H7.
  apply (sums_perm ((((l0 ++ l1) ++ (l2 ++ l3)) ++ ((l4 ++ l5) ++ (l6 ++ l7)))
                    ++ a)); [solve_Permutation|].
  apply fold_left_sums. repeat apply sums_add; assumption.
Qed.

Lemma sum_unrolled_sums n : forall (a : list F) r0 r1 r2 r3 r4 r5 r6 r7
      l0 l1 l2 l3 l4 l5 l6 l7,
  length a <= n ->
  sums_to l0 r0 -> sums_to l1 r1 -> sums_to l2 r2 -> sums_to l3 r3 ->
  sums_to l4 r4 -> sums_to l5 r5 -> sums_to l6 r6 -> sums_to l7 r7 ->
  sums_to (l0 ++ l1 ++ l2 ++ l3 ++ l4 ++ l5 ++ l6 ++ l7 ++ a)
    (np.sum_unrolled (r0, r1, r2, r3, r4, r5, r6, r7) a).
Proof.
  induction n as [|n IH];
    intros a r0 r1 r2 r3 r4 r5 r6 r7 l0 l1 l2 l3 l4 l5 l6 l7 Hlen
           H0 H1 H2 H3 H4 H5 H6 H7;
    destruct a as [|a0 [|a1 [|a2 [|a3 [|a4 [|a5 [|a6 [|a7 a']]]]]]]];
    try (simpl in Hlen; lia);
    try (apply (sum_tail_sums _ r0 r1 r2 r3 r4 r5 r6 r7); assumption).
  change (np.sum_unrolled (r0, r1, r2, r3, r4, r5, r6, r7)
            (a0 :: a1 :: a2 :: a3 :: a4 :: a5 :: a6 :: a7 :: a'))
    with (np.sum_unrolled
            (f_add r0 a0, f_add r1 a1, f_add r2 a2, f_add r3 a3,
             f_add r4 a4, f_add r5 a5, f_add r6 a6, f_add r7 a7) a').
  apply (sums_perm ((l0 ++ [a0]) ++ (l1 ++ [a1]) ++ (l2 ++ [a2])
                    ++ (l3 ++ [a3]) ++ (l4 ++ [a4]) ++ (l5 ++ [a5])
                    ++ (l6 ++ [a6]) ++ (l7 ++ [a7]) ++ a'));
    [solve_Permutation|].
  apply IH; [simpl in Hlen; lia | ..];
    (apply sums_add; [assumption | apply sums_one]).
Qed.

Lemma pairwise_sum_eq depth (a : list F) :
  np.pairwise_sum depth a
  = if length a <=? np.PW_BLOCKSIZE then
      match a with
      | a0 :: a1 :: a2 :: a3 :: a4 :: a5 :: a6 :: a7 :: a' =>
          np.sum_unrolled (a0, a1, a2, a3, a4, a5, a6, a7) a'
      | _ => fold_left f_add a f_zero
      end
    else
      match depth with
      | S depth' =>
          let n2 := length a / 2 - (length a / 2) mod 8 in
          f_add (np.pairwise_sum depth' (take n2 a))
                (np.pairwise_sum depth' (drop n2 a))
      | O => f_zero
      end.
Proof. destruct depth; reflexivity. Qed.

(** Above [PW_BLOCKSIZE] entries both halves are shorter than the slice. *)
Lemma halves_shorter n :
  np.PW_BLOCKSIZE < n ->
  0 < n / 2 - (n / 2) mod 8 < n.
Proof.
  unfold np.PW_BLOCKSIZE. intros Hn.
  assert (64 <= n / 2) by (apply Nat.div_le_lower_bound; lia).
  assert ((n / 2) mod 8 < 8) by (apply Nat.mod_upper_bound; lia).
  assert (n / 2 < n) by (apply Nat.div_lt; lia).
  lia.
Qed.

Lemma pairwise_sum_sums depth : forall a : list F,
  length a <= depth -> sums_to a (np.pairwise_sum depth a).
Proof.
  induction depth as [|depth IH]; intros a Hlen; rewrite pairwise_sum_eq.
  - destruct a; [apply sums_nil | simpl in Hlen; lia].
  - destruct (Nat.leb_spec (length a) np.PW_BLOCKSIZE) as [Hsmall|Hbig].
    + destruct a as [|a0 [|a1 [|a2 [|a3 [|a4 [|a5 [|a6 [|a7 a']]]]]]]];
        try (apply (fold_left_sums _ []), sums_nil).
      apply (sum_unrolled_sums (length a') a' a0 a1 a2 a3 a4 a5 a6 a7
               [a0] [a1] [a2] [a3] [a4] [a5] [a6] [a7]);
        [lia | apply sums_one ..].
    + pose proof (halves_shorter (length a) Hbig) as Hn2. cbv zeta.
      rewrite <- (take_drop (length a / 2 - (length a / 2) mod 8) a) at 1.
      apply sums_add; apply IH.
      * rewrite length_take. lia.
      * rewrite length_drop. lia.
Qed.

(** The depth given to [pairwise_sum] is enough: a greater one gives the
    same sum. *)
Lemma pairwise_sum_depths n : forall (a : list F) d1 d2,
  length a <= n -> length a <= d1 -> length a <= d2 ->
  np.pairwise_sum d1 a = np.pairwise_sum d2 a.
Proof.
  induction n as [|n IH]; intros a d1 d2 Hn H1 H2;
    rewrite (pairwise_sum_eq d1 a), (pairwise_sum_eq d2 a);
    destruct (Nat.leb_spec (length a) np.PW_BLOCKSIZE) as [Hsmall|Hbig];
    try reflexivity.
  - unfold np.PW_BLOCKSIZE in Hbig. lia.
  - pose proof (halves_shorter (length a) Hbig) as Hn2.
    destruct d1 as [|d1]; [lia|]. destruct d2 as [|d2]; [lia|]. cbv zeta.
    f_equal; apply IH; rewrite ?length_take, ?length_drop; lia.
Qed.

Lemma pairwise_sum_depth depth (a : list F) :
  length a <= depth ->
  np.pairwise_sum depth a = np.pairwise_sum (length a) a.
Proof.
  intros Hlen. apply (pairwise_sum_depths (length a)); lia.
Qed.

(** [.sum()] adds the entries of the slice, each one once. *)
Lemma sum_sums (v : list F) : sums_to v (np.sum v).
Proof.
  destruct v as [|x v]; [apply sums_nil|].
  apply (sums_add [] (x :: v)); [apply sums_nil|].
  apply pairwise_sum_sums. reflexivity.
Qed.

(** Below 8 entries the additions are made from the first entry to the
    last. *)
Lemma sum_short (v : list F) :
  0 < length v < 8 -> np.sum v = f_add f_zero (fold_left f_add v f_zero).
Proof.
  intros Hlen.
  destruct v as [|a0 [|a1 [|a2 [|a3 [|a4 [|a5 [|a6 [|a7 a']]]]]]]];
    try reflexivity; simpl in Hlen; lia.
Qed.

(** So does the sum in the order of the indices. *)
Lemma f_sum_sums (f : nat -> F) n : sums_to (f <$> seq 0 n) (f_sum f n).
Proof.
  induction n as [|n IH]; [apply sums_nil|].
  rewrite seq_S, fmap_app. simpl. apply sums_add; [exact IH | apply sums_one].
Qed.

(** *** The slices of the weight matrix *)

Lemma row_slice (W : ndarray F) i r :
  np.well_shaped W = true -> np.rows W !! i = Some r -> r = row W i.
Proof.
  intros Hw Hr. apply list_eq. intros j. unfold row.
  rewrite list_lookup_fmap.
  destruct (decide (j < snd (np.shape W))) as [Hj|Hj].
  - rewrite lookup_seq_lt by exact Hj. simpl.
    unfold entry, np.lookup. rewrite Hr. simpl.
    destruct (lookup_lt_is_Some_2 r j) as [x Hx];
      [rewrite (well_shaped_row W i r Hw Hr); exact Hj|].
    rewrite Hx. reflexivity.
  - rewrite lookup_seq_ge by lia. simpl.
    apply lookup_ge_None. rewrite (well_shaped_row W i r Hw Hr). lia.
Qed.

Lemma getcol_in_range (W : ndarray F) j :
  np.well_shaped W = true -> j < snd (np.shape W) ->
  np.getcol W j = Ok (column W j).
Proof.
  intros Hw Hj. unfold np.getcol. rewrite decide_True by exact Hj.
  destruct (mapM (fun r : list F => r !! j) (np.rows W)) as [c|] eqn:Hc.
  - f_equal. apply mapM_Some in Hc. apply list_eq. intros i. unfold column.
    rewrite list_lookup_fmap, <- (well_shaped_rows W Hw).
    destruct (decide (i < length (np.rows W))) as [Hi|Hi].
    + rewrite lookup_seq_lt by exact Hi. simpl.
      destruct (lookup_lt_is_Some_2 _ _ Hi) as [r Hr].
      destruct (Forall2_lookup_l _ _ _ _ _ Hc Hr) as (x & Hx & Hrx).
      rewrite Hx. unfold entry, np.lookup. rewrite Hr. simpl. rewrite Hrx.
      reflexivity.
    + rewrite lookup_seq_ge by lia. simpl.
      apply lookup_ge_None. rewrite <- (Forall2_length _ _ _ Hc). lia.
  - exfalso. apply mapM_None in Hc.
    apply Exists_exists in Hc as (r & Hr & Hnone).
    apply list_elem_of_lookup in Hr as [i Hi].
    apply lookup_ge_None in Hnone.
    rewrite (well_shaped_row W i r Hw Hi) in Hnone. lia.
Qed.

Lemma compute_ref_margin_vect_spec (W : ndarray F) :
  np.well_shaped W = true ->
  exists v, compute_ref_margin_vect W = Ok v
    /\ length v = fst (np.shape W)
    /\ forall i, i < fst (np.shape W) -> v !! i = Some (np.sum (row W i)).
Proof.
  intros Hw. unfold compute_ref_margin_vect.
  destruct (np.shape W) as [n m] eqn:Hs. simpl.
  apply fill_loop1. intros i v Hi _.
  unfold np.getrow.
  destruct (list_getitem_lt (np.rows W) i) as (r & Hr & ->).
  { rewrite (well_shaped_rows W Hw), Hs. exact Hi. }
  simpl. rewrite (row_slice W i r Hw Hr). reflexivity.
Qed.

Lemma compute_test_margin_vect_spec (W : ndarray F) :
  np.well_shaped W = true ->
  exists v, compute_test_margin_vect W = Ok v
    /\ length v = snd (np.shape W)
    /\ forall j, j < snd (np.shape W) -> v !! j = Some (np.sum (column W j)).
Proof.
  intros Hw. unfold compute_test_margin_vect.
  destruct (np.shape W) as [n m] eqn:Hs. simpl.
  apply fill_loop1. intros j v Hj _.
  rewrite (getcol_in_range W j Hw) by (rewrite Hs; exact Hj).
  reflexivity.
Qed.

End MarginFacts.

(** ** The Overlap Matrix Builder and the Link Classifier *)

Section LinkFacts.

Context {F P : Type} `{Float F} `{Geometry F P}.
Implicit Types (W : ndarray F) (L : ndarray bool).
Implicit Types (ref_data_vect test_data_vect : list (SegmentationAnnotation P)).

Lemma has_shape_Some (a : SegmentationAnnotation P) :
  has_shape a = true <-> exists p, shape a = Some p.
Proof.
  unfold has_shape. destruct (shape a) as [p|]; split.
  - intros _. exists p. reflexivity.
  - reflexivity.
  - discriminate.
  - intros [p Hp]. discriminate Hp.
Qed.

Lemma intersectable_spec ref_data_vect test_data_vect :
  intersectable ref_data_vect test_data_vect = true
  <-> forall i j r t,
        ref_data_vect !! i = Some r -> test_data_vect !! j = Some t ->
        exists p q, shape r = Some p /\ shape t = Some q.
Proof.
  unfold intersectable. rewrite forallb_forall. split.
  - intros Hall i j r t Hr Ht.
    assert (In r ref_data_vect) as Hinr
      by (apply list_elem_of_In, list_elem_of_lookup; exists i; exact Hr).
    assert (In t test_data_vect) as Hint
      by (apply list_elem_of_In, list_elem_of_lookup; exists j; exact Ht).
    specialize (Hall r Hinr). rewrite forallb_forall in Hall.
    specialize (Hall t Hint). apply andb_prop in Hall as [Hp Hq].
    apply has_shape_Some in Hp as [p Hp], Hq as [q Hq]. exists p, q.
    split; assumption.
  - intros Hall r Hinr. apply forallb_forall. intros t Hint.
    apply list_elem_of_In, list_elem_of_lookup in Hinr as [i Hr].
    apply list_elem_of_In, list_elem_of_lookup in Hint as [j Ht].
    destruct (Hall i j r t Hr Ht) as (p & q & Hp & Hq).
    apply andb_true_intro. split; apply has_shape_Some; eauto.
Qed.

(** With both lists non-empty, the pairs can be intersected exactly when
    every annotation has a shape. *)
Lemma intersectable_shaped ref_data_vect test_data_vect :
  ref_data_vect <> [] -> test_data_vect <> [] ->
  intersectable ref_data_vect test_data_vect = true
  <-> forallb has_shape ref_data_vect = true
      /\ forallb has_shape test_data_vect = true.
Proof.
  intros Hr Ht. rewrite intersectable_spec, !forallb_forall. split.
  - intros Hall.
    destruct ref_data_vect as [|r0 refs]; [congruence|].
    destruct test_data_vect as [|t0 tests]; [congruence|]. split.
    + intros r Hin.
      apply list_elem_of_In, list_elem_of_lookup in Hin as [i Hi].
      destruct (Hall i 0 r t0 Hi eq_refl) as (p & _ & Hp & _).
      apply has_shape_Some. eauto.
    + intros t Hin.
      apply list_elem_of_In, list_elem_of_lookup in Hin as [j Hj].
      destruct (Hall 0 j r0 t eq_refl Hj) as (_ & q & _ & Hq).
      apply has_shape_Some. eauto.
  - intros [Hrefs Htests] i j r t Hi Hj.
    assert (has_shape r = true) as Hp.
    { apply Hrefs, list_elem_of_In, list_elem_of_lookup. eauto. }
    assert (has_shape t = true) as Hq.
    { apply Htests, list_elem_of_In, list_elem_of_lookup. eauto. }
    apply has_shape_Some in Hp as [p Hp], Hq as [q Hq]. eauto.
Qed.

(** The Overlap Matrix Builder returns the matrix of the overlaps, or
    raises [TypeError] at the first pair without two shapes. *)
Lemma compute_weight_mat_cases ref_data_vect test_data_vect :
  match compute_weight_mat ref_data_vect test_data_vect with
  | Ok W =>
      intersectable ref_data_vect test_data_vect = true
      /\ np.well_shaped W = true
      /\ np.shape W = (length ref_data_vect, length test_data_vect)
      /\ forall i j r t p q,
           ref_data_vect !! i = Some r -> test_data_vect !! j = Some t ->
           shape r = Some p -> shape t = Some q ->
           np.lookup W i j = Some (area (inter p q))
  | Raise e =>
      e = TypeError /\ intersectable ref_data_vect test_data_vect = false
  end.
Proof.
  pose (g := fun i j =>
    r ← list_getitem ref_data_vect i;
    t ← list_getitem test_data_vect j;
    inter ← py_and (shape r) (shape t);
    Ok (area inter)).
  pose proof (fill_loop_cases g
    (fun i j weight_mat =>
       r ← list_getitem ref_data_vect i;
       t ← list_getitem test_data_vect j;
       inter ← py_and (shape r) (shape t);
       np.setitem weight_mat i j (area inter))
    (np.empty f_zero (length ref_data_vect) (length test_data_vect))
    (length ref_data_vect) (length test_data_vect)
    (empty_well_shaped _ _ _) eq_refl) as Hloops.
  assert (forall i j r t,
            ref_data_vect !! i = Some r -> test_data_vect !! j = Some t ->
            g i j = (inter ← py_and (shape r) (shape t); Ok (area inter)))
    as Hg.
  { intros i j r t Hr Ht. unfold g.
    rewrite (list_getitem_Ok _ _ _ Hr), (list_getitem_Ok _ _ _ Ht).
    reflexivity. }
  unfold compute_weight_mat.
  match type of Hloops with
  | _ -> match ?run with _ => _ end => destruct run as [W|e]
  end.
  - destruct Hloops as (HwW & HsW & Hcells).
    { intros i j a _ _. unfold g.
      destruct (list_getitem ref_data_vect i); simpl; [|reflexivity].
      destruct (list_getitem test_data_vect j); simpl; [|reflexivity].
      destruct (py_and _ _); reflexivity. }
    assert (forall i j r t,
              ref_data_vect !! i = Some r -> test_data_vect !! j = Some t ->
              exists p q, shape r = Some p /\ shape t = Some q
                          /\ np.lookup W i j = Some (area (inter p q)))
      as Hall.
    { intros i j r t Hr Ht.
      destruct (Hcells i j) as (v & Hv & Hlv);
        [eapply lookup_lt_Some, Hr | eapply lookup_lt_Some, Ht |].
      rewrite (Hg i j r t Hr Ht) in Hv.
      destruct (shape r) as [p|], (shape t) as [q|]; try discriminate Hv.
      inversion Hv. subst v. exists p, q. repeat split. exact Hlv. }
    split; [|split; [exact HwW | split; [exact HsW|]]].
    + apply intersectable_spec. intros i j r t Hr Ht.
      destruct (Hall i j r t Hr Ht) as (p & q & Hp & Hq & _). eauto.
    + intros i j r t p q Hr Ht Hp Hq.
      destruct (Hall i j r t Hr Ht) as (p' & q' & Hp' & Hq' & Hl).
      congruence.
  - destruct Hloops as (i & j & Hi & Hj & Hraise).
    { intros i j a _ _. unfold g.
      destruct (list_getitem ref_data_vect i); simpl; [|reflexivity].
      destruct (list_getitem test_data_vect j); simpl; [|reflexivity].
      destruct (py_and _ _); reflexivity. }
    destruct (lookup_lt_is_Some_2 ref_data_vect i Hi) as [r Hr].
    destruct (lookup_lt_is_Some_2 test_data_vect j Hj) as [t Ht].
    rewrite (Hg i j r t Hr Ht) in Hraise.
    assert (e = TypeError /\ (shape r = None \/ shape t = None)) as [-> Hnone].
    { destruct (shape r) as [p|], (shape t) as [q|]; simpl in Hraise;
        inversion Hraise; auto. }
    split; [reflexivity|].
    destruct (intersectable ref_data_vect test_data_vect) eqn:Hint;
      [|reflexivity].
    destruct (proj1 (intersectable_spec _ _) Hint i j r t Hr Ht)
      as (p & q & Hp & Hq).
    destruct Hnone; congruence.
Qed.

Lemma compute_weight_mat_spec ref_data_vect test_data_vect :
  intersectable ref_data_vect test_data_vect = true ->
  exists W, compute_weight_mat ref_data_vect test_data_vect = Ok W
    /\ np.well_shaped W = true
    /\ np.shape W = (length ref_data_vect, length test_data_vect)
    /\ forall i j r t p q,
         ref_data_vect !! i = Some r -> test_data_vect !! j = Some t ->
         shape r = Some p -> shape t = Some q ->
         np.lookup W i j = Some (area (inter p q)).
Proof.
  intros Hint.
  pose proof (compute_weight_mat_cases ref_data_vect test_data_vect) as Hc.
  destruct (compute_weight_mat ref_data_vect test_data_vect) as [W|e].
  - destruct Hc as (_ & HwW & HsW & Hcells). exists W. repeat split; assumption.
  - destruct Hc as [_ Hc]. congruence.
Qed.

Lemma compute_weight_mat_raises ref_data_vect test_data_vect :
  intersectable ref_data_vect test_data_vect = false ->
  compute_weight_mat ref_data_vect test_data_vect = Raise TypeError.
Proof.
  intros Hint.
  pose proof (compute_weight_mat_cases ref_data_vect test_data_vect) as Hc.
  destruct (compute_weight_mat ref_data_vect test_data_vect) as [W|e].
  - destruct Hc as [Hc _]. congruence.
  - destruct Hc as [-> _]. reflexivity.
Qed.

(** One iteration of the classifier computes the rule of the
    specification. *)
Lemma significant_link_rule W (ref_margin_vect test_margin_vect : list F)
      ref_data_vect test_data_vect i j w rm tm r t p q :
  np.lookup W i j = Some w ->
  ref_margin_vect !! i = Some rm -> test_margin_vect !! j = Some tm ->
  ref_data_vect !! i = Some r -> test_data_vect !! j = Some t ->
  shape r = Some p -> shape t = Some q ->
  significant_link W ref_margin_vect test_margin_vect
                   ref_data_vect test_data_vect i j
  = Ok (link_rule w rm (area p) tm (area q)).
Proof.
  intros Hw Hrm Htm Hr Ht Hp Hq. unfold significant_link, link_rule.
  rewrite (getitem_lookup W i j w Hw). simpl.
  destruct (f_gt w f_zero); [|reflexivity].
  rewrite (list_getitem_Ok _ _ _ Hrm). simpl.
  unfold thresholdRelative, threshold_ref, threshold_test.
  destruct (f_ge (f_div w rm) f_lit_0_2).
  - rewrite (list_getitem_Ok _ _ _ Hr). simpl. rewrite Hp. simpl.
    destruct (f_gt (f_div w (area p)) f_lit_0_5); reflexivity.
  - rewrite (list_getitem_Ok _ _ _ Htm). simpl.
    destruct (f_ge (f_div w tm) f_lit_0_2); [|reflexivity].
    rewrite (list_getitem_Ok _ _ _ Ht). simpl. rewrite Hq. simpl.
    destruct (f_gt (f_div w (area q)) f_lit_0_5); reflexivity.
Qed.

(** With vectors of compatible lengths and annotations that have shapes,
    the classifier returns a link matrix whose every cell is given by the
    rule. *)
Lemma compute_link_mat_spec W (ref_margin_vect test_margin_vect : list F)
      ref_data_vect test_data_vect :
  np.well_shaped W = true ->
  fst (np.shape W) = length ref_margin_vect ->
  length ref_margin_vect = length ref_data_vect ->
  snd (np.shape W) = length test_margin_vect ->
  length test_margin_vect = length test_data_vect ->
  intersectable ref_data_vect test_data_vect = true ->
  exists L,
    compute_link_mat W ref_margin_vect test_margin_vect
                     ref_data_vect test_data_vect = Ok L
    /\ np.well_shaped L = true
    /\ np.shape L = np.shape W
    /\ forall i j w rm tm r t p q,
         np.lookup W i j = Some w ->
         ref_margin_vect !! i = Some rm -> test_margin_vect !! j = Some tm ->
         ref_data_vect !! i = Some r -> test_data_vect !! j = Some t ->
         shape r = Some p -> shape t = Some q ->
         np.lookup L i j = Some (link_rule w rm (area p) tm (area q)).
Proof.
  intros Hw Hn1 Hn2 Hm1 Hm2 Hint. unfold compute_link_mat.
  destruct (np.shape W) as [n m] eqn:Hs. simpl in Hn1, Hm1.
  rewrite !bool_decide_eq_true_2 by assumption. simpl.
  pose (g := fun i j =>
    match np.lookup W i j, ref_margin_vect !! i, test_margin_vect !! j,
          ref_data_vect !! i ≫= shape, test_data_vect !! j ≫= shape with
    | Some w, Some rm, Some tm, Some p, Some q =>
        link_rule w rm (area p) tm (area q)
    | _, _, _, _, _ => false
    end).
  destruct (fill_loop g
    (fun i j link_mat =>
       significant ← significant_link W ref_margin_vect test_margin_vect
                       ref_data_vect test_data_vect i j;
       np.setitem link_mat i j significant)
    (np.empty false (length ref_data_vect) (length test_data_vect))
    (length ref_margin_vect) (length test_margin_vect))
    as (L & Hrun & HwL & HsL & Hcells).
  - apply empty_well_shaped.
  - simpl. congruence.
  - intros i j a Hi Hj.
    destruct (lookup_in_range W i j Hw) as [w Hlw];
      [rewrite Hs; simpl; lia | rewrite Hs; simpl; lia |].
    destruct (lookup_lt_is_Some_2 ref_margin_vect i Hi) as [rm Hrm].
    destruct (lookup_lt_is_Some_2 test_margin_vect j Hj) as [tm Htm].
    destruct (lookup_lt_is_Some_2 ref_data_vect i) as [r Hr]; [lia|].
    destruct (lookup_lt_is_Some_2 test_data_vect j) as [t Ht]; [lia|].
    destruct (proj1 (intersectable_spec _ _) Hint i j r t Hr Ht)
      as (p & q & Hp & Hq).
    rewrite (significant_link_rule W _ _ _ _ i j w rm tm r t p q)
      by assumption.
    simpl. unfold g. rewrite Hlw, Hrm, Htm, Hr, Ht. simpl.
    rewrite Hp, Hq. reflexivity.
  - exists L. repeat split; [exact Hrun | exact HwL | congruence |].
    intros i j w rm tm r t p q Hlw Hrm Htm Hr Ht Hp Hq.
    rewrite Hcells by (eapply lookup_lt_Some; eassumption).
    unfold g. rewrite Hlw, Hrm, Htm, Hr, Ht. simpl.
    rewrite Hp, Hq. reflexivity.
Qed.

End LinkFacts.

(** ** Sums and counts over index ranges *)

Section Counting.

Local Open Scope Z_scope.

Lemma sumz_ext f g n :
  (forall k, (k < n)%nat -> f k = g k) -> sumz f n = sumz g n.
Proof.
  induction n as [|n IH]; intros Hfg; simpl.
  - reflexivity.
  - rewrite IH, Hfg by (intros; auto with lia). reflexivity.
Qed.

Lemma sumz_le f g n :
  (forall k, (k < n)%nat -> f k <= g k) -> sumz f n <= sumz g n.
Proof.
  induction n as [|n IH]; intros Hfg; simpl.
  - lia.
  - pose proof (Hfg n ltac:(lia)). pose proof (IH ltac:(intros; auto with lia)).
    lia.
Qed.

Lemma sumz_add f g n : sumz (fun k => f k + g k) n = sumz f n + sumz g n.
Proof. induction n as [|n IH]; simpl; lia. Qed.

Lemma sumz_sub f g n : sumz (fun k => f k - g k) n = sumz f n - sumz g n.
Proof. induction n as [|n IH]; simpl; lia. Qed.

Lemma sumz_const c n : sumz (fun _ => c) n = Z.of_nat n * c.
Proof. induction n as [|n IH]; simpl; lia. Qed.

Lemma sumz_mul_l c f n : sumz (fun k => c * f k) n = c * sumz f n.
Proof. induction n as [|n IH]; simpl; lia. Qed.

(** Summing by rows or by columns gives the same total. *)
Lemma sumz_swap (f : nat -> nat -> Z) n m :
  sumz (fun i => sumz (fun j => f i j) m) n
  = sumz (fun j => sumz (fun i => f i j) n) m.
Proof.
  induction n as [|n IH]; simpl.
  - rewrite sumz_const. lia.
  - rewrite IH, <- sumz_add. reflexivity.
Qed.

Lemma count_S p n : count p (S n) = count p n + (if p n then 1 else 0).
Proof. reflexivity. Qed.

Lemma count_ext p q n :
  (forall k, (k < n)%nat -> p k = q k) -> count p n = count q n.
Proof. intros Hpq. apply sumz_ext. intros k Hk. rewrite Hpq; auto. Qed.

Lemma count_bounds p n : 0 <= count p n <= Z.of_nat n.
Proof.
  induction n as [|n IH]; [unfold count; simpl; lia|].
  rewrite count_S. destruct (p n); lia.
Qed.

Lemma count_ge_1 p n k : (k < n)%nat -> p k = true -> 1 <= count p n.
Proof.
  induction n as [|n IH]; intros Hk Hp; [lia|].
  rewrite count_S. pose proof (count_bounds p n).
  destruct (decide (k = n)) as [->|Hne].
  - rewrite Hp. lia.
  - pose proof (IH ltac:(lia) Hp). destruct (p n); lia.
Qed.

Lemma count_0 p n :
  count p n = 0 -> forall k, (k < n)%nat -> p k = false.
Proof.
  intros H0 k Hk. destruct (p k) eqn:Hp; [|reflexivity].
  pose proof (count_ge_1 p n k Hk Hp). lia.
Qed.

Lemma count_0_all p n :
  (forall k, (k < n)%nat -> p k = false) -> count p n = 0.
Proof.
  intros Hall. rewrite (count_ext p (fun _ => false)) by exact Hall.
  unfold count. rewrite sumz_const. lia.
Qed.

Lemma existsb_count p n : existsb p (seq 0 n) = negb (count p n =? 0).
Proof.
  destruct (existsb p (seq 0 n)) eqn:He.
  - apply existsb_exists in He as (k & Hk & Hp).
    apply in_seq in Hk. pose proof (count_ge_1 p n k ltac:(lia) Hp).
    symmetry. apply negb_true_iff, Z.eqb_neq. lia.
  - symmetry. apply negb_false_iff, Z.eqb_eq, count_0_all.
    intros k Hk. destruct (p k) eqn:Hp; [|reflexivity].
    rewrite <- He. symmetry. apply existsb_exists. exists k.
    split; [apply in_seq; lia | exact Hp].
Qed.

Lemma last_match_found p n :
  1 <= count p n -> (last_match p n < n)%nat /\ p (last_match p n) = true.
Proof.
  induction n as [|n IH]; intros Hc.
  - unfold count in Hc. simpl in Hc. lia.
  - rewrite count_S in Hc. simpl. destruct (p n) eqn:Hp.
    + split; [lia | exact Hp].
    + destruct IH as [Hlt Hl]; [lia|]. split; [lia | exact Hl].
Qed.

Lemma last_match_unique p n k :
  count p n = 1 -> (k < n)%nat -> p k = true -> k = last_match p n.
Proof.
  induction n as [|n IH]; intros Hc Hk Hp; [lia|].
  rewrite count_S in Hc. simpl. destruct (p n) eqn:Hpn.
  - destruct (decide (k = n)) as [->|Hne]; [reflexivity|].
    assert (count p n = 0) as H0 by lia.
    rewrite (count_0 p n H0 k) in Hp by lia. discriminate.
  - destruct (decide (k = n)) as [->|Hne]; [congruence|].
    apply IH; [lia | lia | exact Hp].
Qed.

End Counting.

(** ** The Segmentation Metric Aggregator: each loop computes a count *)

(** Rewrite an inner loop of the program with its specification. *)
Ltac inner_loop lem :=
  let Hloop := fresh "Hloop" in
  pose proof lem as Hloop;
  unfold count_matches, first_match in Hloop; cbv beta in Hloop;
  rewrite Hloop; clear Hloop.

Section ClassificationFacts.

Local Open Scope Z_scope.
Implicit Types (L : ndarray bool).

Lemma getitem_cell L i j :
  np.well_shaped L = true ->
  (i < fst (np.shape L))%nat -> (j < snd (np.shape L))%nat ->
  np.getitem L i j = Ok (cell L i j).
Proof.
  intros Hw Hi Hj. destruct (lookup_in_range L i j Hw Hi Hj) as [b Hb].
  unfold cell. rewrite Hb. apply getitem_lookup, Hb.
Qed.

Lemma count_matches_spec n (c : nat -> result bool) (p : nat -> bool) :
  (forall k, (k < n)%nat -> c k = Ok (p k)) ->
  count_matches n c = Ok (count p n).
Proof.
  intros Hc. unfold count_matches.
  apply (for_range_fun (fun k => count p k)).
  intros k Hk. rewrite Hc by exact Hk. simpl. rewrite count_S.
  destruct (p k); [reflexivity | rewrite Z.add_0_r; reflexivity].
Qed.

Lemma first_match_spec n (c : nat -> result bool) (p : nat -> bool) :
  (forall k, (k < n)%nat -> c k = Ok (p k)) ->
  first_match n c = Ok (if count p n =? 0 then 0 else 1).
Proof.
  intros Hc. unfold first_match, for_range_break.
  rewrite (for_each_break_first p _ _ 0 1).
  - rewrite existsb_count. destruct (count p n =? 0); reflexivity.
  - intros k Hk. apply elem_of_seq in Hk. rewrite Hc by lia. simpl.
    destruct (p k); reflexivity.
Qed.

(** The scan of a row in [find_total_correct_segmentation]. *)
Lemma row_scan_spec n (c : nat -> result bool) (p : nat -> bool) :
  (forall k, (k < n)%nat -> c k = Ok (p k)) ->
  for_range n (fun j '(row_match_count, row_match_index) =>
      b ← c j;
      Ok (if b : bool then (row_match_count + 1, j)
          else (row_match_count, row_match_index)))
    (0, 0%nat)
  = Ok (count p n, last_match p n).
Proof.
  intros Hc.
  apply (for_range_fun (fun k => (count p k, last_match p k))).
  intros k Hk. rewrite Hc by exact Hk. simpl. rewrite count_S.
  destruct (p k); [reflexivity | rewrite Z.add_0_r; reflexivity].
Qed.

Section Shape.

Variables (L : ndarray bool) (N M : nat).
Hypothesis well : np.well_shaped L = true.
Hypothesis dims : np.shape L = (N, M).

Lemma row_count i :
  (i < N)%nat ->
  count_matches M (fun j => np.getitem L i j) = Ok (row_degree L i).
Proof.
  intros Hi. unfold row_degree. rewrite dims. simpl.
  apply count_matches_spec. intros j Hj.
  apply getitem_cell; [exact well | rewrite dims; exact Hi
                      | rewrite dims; exact Hj].
Qed.

Lemma col_count j :
  (j < M)%nat ->
  count_matches N (fun i => np.getitem L i j) = Ok (col_degree L j).
Proof.
  intros Hj. unfold col_degree. rewrite dims. simpl.
  apply count_matches_spec. intros i Hi.
  apply getitem_cell; [exact well | rewrite dims; exact Hi
                      | rewrite dims; exact Hj].
Qed.

Lemma row_first i :
  (i < N)%nat ->
  first_match M (fun j => np.getitem L i j)
  = Ok (if row_degree L i =? 0 then 0 else 1).
Proof.
  intros Hi. unfold row_degree. rewrite dims. simpl.
  apply first_match_spec. intros j Hj.
  apply getitem_cell; [exact well | rewrite dims; exact Hi
                      | rewrite dims; exact Hj].
Qed.

Lemma col_first j :
  (j < M)%nat ->
  first_match N (fun i => np.getitem L i j)
  = Ok (if col_degree L j =? 0 then 0 else 1).
Proof.
  intros Hj. unfold col_degree. rewrite dims. simpl.
  apply first_match_spec. intros i Hi.
  apply getitem_cell; [exact well | rewrite dims; exact Hi
                      | rewrite dims; exact Hj].
Qed.

Lemma find_num_over_segmentation_components_spec :
  find_num_over_segmentation_components L
  = Ok (count (fun i => row_degree L i >? 1) N).
Proof.
  unfold find_num_over_segmentation_components. rewrite dims.
  apply (for_range_fun (fun i => count (fun i => row_degree L i >? 1) i)).
  intros i Hi. inner_loop (row_count i Hi). simpl. rewrite count_S.
  destruct (row_degree L i >? 1); [reflexivity | rewrite Z.add_0_r; reflexivity].
Qed.

Lemma find_num_under_segmentation_components_spec :
  find_num_under_segmentation_components L
  = Ok (count (fun j => col_degree L j >? 1) M).
Proof.
  unfold find_num_under_segmentation_components. rewrite dims.
  apply (for_range_fun (fun j => count (fun j => col_degree L j >? 1) j)).
  intros j Hj. inner_loop (col_count j Hj). simpl. rewrite count_S.
  destruct (col_degree L j >? 1); [reflexivity | rewrite Z.add_0_r; reflexivity].
Qed.

Lemma find_num_missed_components_spec :
  find_num_missed_components L
  = Ok (count (fun i => row_degree L i =? 0) N).
Proof.
  unfold find_num_missed_components. rewrite dims.
  apply (for_range_fun (fun i => count (fun i => row_degree L i =? 0) i)).
  intros i Hi. inner_loop (row_first i Hi). simpl. rewrite count_S.
  destruct (row_degree L i =? 0); simpl; [reflexivity | rewrite Z.add_0_r; reflexivity].
Qed.

Lemma find_num_false_alarm_components_spec :
  find_num_false_alarm_components L
  = Ok (count (fun j => col_degree L j =? 0) M).
Proof.
  unfold find_num_false_alarm_components. rewrite dims.
  apply (for_range_fun (fun j => count (fun j => col_degree L j =? 0) j)).
  intros j Hj. inner_loop (col_first j Hj). simpl. rewrite count_S.
  destruct (col_degree L j =? 0); simpl; [reflexivity | rewrite Z.add_0_r; reflexivity].
Qed.

(** The two accumulators of the total counters after [n] rows or
    columns of degrees [deg]. *)
Lemma total_loop (deg : nat -> Z) (c : nat -> result Z) n :
  (forall k, (k < n)%nat -> c k = Ok (deg k)) ->
  for_range n (fun k '(edges, significant) =>
      match_flag ← c k;
      Ok (if match_flag >? 1
          then (edges + match_flag, significant + 1)
          else (edges, significant)))
    (0, 0)
  = Ok (sumz (fun k => if deg k >? 1 then deg k else 0) n,
        count (fun k => deg k >? 1) n).
Proof.
  intros Hc.
  apply (for_range_fun
           (fun n => (sumz (fun k => if deg k >? 1 then deg k else 0) n,
                      count (fun k => deg k >? 1) n))).
  intros k Hk. rewrite Hc by exact Hk. simpl. rewrite count_S.
  destruct (deg k >? 1); [reflexivity | rewrite !Z.add_0_r; reflexivity].
Qed.

Lemma sum_excess (deg : nat -> Z) n :
  sumz (fun k => if deg k >? 1 then deg k else 0) n
  - count (fun k => deg k >? 1) n
  = sumz (fun k => excess (deg k)) n.
Proof.
  unfold count. rewrite <- sumz_sub. apply sumz_ext. intros k _.
  unfold excess. destruct (deg k >? 1); lia.
Qed.

Lemma find_total_over_segmentation_spec :
  find_total_over_segmentation L
  = Ok (sumz (fun i => excess (row_degree L i)) N).
Proof.
  unfold find_total_over_segmentation. rewrite dims.
  inner_loop (total_loop (row_degree L)
              (fun i => count_matches M (fun j => np.getitem L i j)) N
              (fun i Hi => row_count i Hi)).
  simpl. rewrite sum_excess. reflexivity.
Qed.

Lemma find_total_under_segmentation_spec :
  find_total_under_segmentation L
  = Ok (sumz (fun j => excess (col_degree L j)) M).
Proof.
  unfold find_total_under_segmentation. rewrite dims.
  inner_loop (total_loop (col_degree L)
              (fun j => count_matches N (fun i => np.getitem L i j)) M
              (fun j Hj => col_count j Hj)).
  simpl. rewrite sum_excess. reflexivity.
Qed.

End Shape.

End ClassificationFacts.

(** ** One-to-one matches and the accounting of rows and columns *)

Section Accounting.

Local Open Scope Z_scope.

Variables (L : ndarray bool) (N M : nat).
Hypothesis well : np.well_shaped L = true.
Hypothesis dims : np.shape L = (N, M).

Lemma row_degree_count i : row_degree L i = count (cell L i) M.
Proof. unfold row_degree. rewrite dims. reflexivity. Qed.

Lemma col_degree_count j : col_degree L j = count (fun i => cell L i j) N.
Proof. unfold col_degree. rewrite dims. reflexivity. Qed.

Lemma find_total_correct_segmentation_loop :
  find_total_correct_segmentation L = Ok (count (reciprocal L) N).
Proof.
  unfold find_total_correct_segmentation. rewrite dims.
  apply (for_range_fun (fun i => count (reciprocal L) i)).
  intros i Hi.
  rewrite (row_scan_spec M _ (cell L i)).
  2:{ intros j Hj. apply getitem_cell;
        [exact well | rewrite dims; exact Hi | rewrite dims; exact Hj]. }
  simpl. rewrite count_S. unfold reciprocal. rewrite dims. simpl.
  rewrite row_degree_count.
  destruct (count (cell L i) M =? 1) eqn:Hdeg; simpl.
  - apply Z.eqb_eq in Hdeg.
    destruct (last_match_found (cell L i) M) as [Hlt _]; [lia|].
    inner_loop (col_count L N M well dims _ Hlt). simpl.
    destruct (col_degree L (last_match (cell L i) M) =? 1);
      [reflexivity | rewrite Z.add_0_r; reflexivity].
  - rewrite Z.add_0_r. reflexivity.
Qed.

Lemma strict_match_iff i :
  strict_match L i = true
  <-> row_degree L i = 1
      /\ exists j, (j < M)%nat /\ cell L i j = true /\ col_degree L j = 1.
Proof.
  unfold strict_match. rewrite dims. simpl.
  rewrite andb_true_iff, Z.eqb_eq, existsb_exists. split.
  - intros [Hdeg (j & Hj & Hp)]. split; [exact Hdeg|].
    apply in_seq in Hj. apply andb_prop in Hp as [Hc Hd].
    exists j. repeat split; [lia | exact Hc | apply Z.eqb_eq, Hd].
  - intros [Hdeg (j & Hj & Hc & Hd)]. split; [exact Hdeg|].
    exists j. split; [apply in_seq; lia|].
    rewrite Hc. simpl. apply Z.eqb_eq, Hd.
Qed.

Lemma strict_match_reciprocal i : strict_match L i = reciprocal L i.
Proof.
  apply eq_true_iff_eq. rewrite strict_match_iff. unfold reciprocal.
  rewrite dims. simpl.
  rewrite andb_true_iff, !Z.eqb_eq. split.
  - intros [Hdeg (j & Hj & Hc & Hd)]. split; [exact Hdeg|].
    rewrite row_degree_count in Hdeg.
    rewrite <- (last_match_unique (cell L i) M j Hdeg Hj Hc). exact Hd.
  - intros [Hdeg Hd]. split; [exact Hdeg|].
    rewrite row_degree_count in Hdeg.
    destruct (last_match_found (cell L i) M) as [Hlt Hc]; [lia|].
    exists (last_match (cell L i) M). repeat split; assumption.
Qed.

Lemma find_total_correct_segmentation_spec :
  find_total_correct_segmentation L = Ok (count (strict_match L) N).
Proof.
  rewrite find_total_correct_segmentation_loop. f_equal.
  apply count_ext. intros i _. symmetry. apply strict_match_reciprocal.
Qed.

(** A row of degree one linked to a shared column is not a match. *)
Lemma shared_column_excluded i j :
  (j < M)%nat -> row_degree L i = 1 -> cell L i j = true ->
  col_degree L j > 1 -> strict_match L i = false.
Proof.
  intros Hj Hdeg Hc Hd. apply not_true_is_false. intros Hs.
  apply strict_match_iff in Hs as [_ (j' & Hj' & Hc' & Hd')].
  rewrite row_degree_count in Hdeg.
  rewrite (last_match_unique (cell L i) M j Hdeg Hj Hc) in Hd.
  rewrite (last_match_unique (cell L i) M j' Hdeg Hj' Hc') in Hd'.
  lia.
Qed.

Lemma compute_statistics_spec :
  compute_statistics L
  = Ok {| Tc := count (strict_match L) N;
          To := sumz (fun i => excess (row_degree L i)) N;
          Tu := sumz (fun j => excess (col_degree L j)) M;
          Co := count (fun i => row_degree L i >? 1) N;
          Cu := count (fun j => col_degree L j >? 1) M;
          Cm := count (fun i => row_degree L i =? 0) N;
          Cf := count (fun j => col_degree L j =? 0) M;
          Cr := Z.of_nat N;
          Ct := Z.of_nat M |}.
Proof.
  unfold compute_statistics.
  rewrite find_total_correct_segmentation_spec.
  rewrite (find_total_over_segmentation_spec L N M well dims).
  rewrite (find_total_under_segmentation_spec L N M well dims).
  rewrite (find_num_over_segmentation_components_spec L N M well dims).
  rewrite (find_num_under_segmentation_components_spec L N M well dims).
  rewrite (find_num_missed_components_spec L N M well dims).
  rewrite (find_num_false_alarm_components_spec L N M well dims).
  simpl. rewrite dims. reflexivity.
Qed.

(** Every row is of exactly one kind: unlinked, linked once, split. *)
Lemma rows_bound :
  count (strict_match L) N + count (fun i => row_degree L i >? 1) N
  + count (fun i => row_degree L i =? 0) N <= Z.of_nat N.
Proof.
  unfold count. rewrite <- !sumz_add.
  rewrite <- (Z.mul_1_r (Z.of_nat N)), <- sumz_const.
  apply sumz_le. intros i _. unfold strict_match. rewrite Z.gtb_ltb.
  destruct (Z.eqb_spec (row_degree L i) 1), (Z.ltb_spec 1 (row_degree L i)),
    (Z.eqb_spec (row_degree L i) 0); simpl;
    try lia; destruct (existsb _ _); lia.
Qed.

(** The matched rows inject into the columns of degree one. *)
Lemma matches_le_single_columns :
  count (strict_match L) N <= count (fun j => col_degree L j =? 1) M.
Proof.
  pose (f := fun i j => if cell L i j && (col_degree L j =? 1) then 1 else 0).
  transitivity (sumz (fun i => sumz (fun j => f i j) M) N).
  - apply sumz_le. intros i _. destruct (strict_match L i) eqn:Hs.
    + apply strict_match_iff in Hs as [_ (j & Hj & Hc & Hd)].
      apply (count_ge_1 (fun j => cell L i j && (col_degree L j =? 1)) M j Hj).
      rewrite Hc. simpl. apply Z.eqb_eq, Hd.
    + apply (count_bounds (fun j => cell L i j && (col_degree L j =? 1)) M).
  - rewrite sumz_swap. apply Z.eq_le_incl, sumz_ext. intros j _. unfold f.
    destruct (col_degree L j =? 1) eqn:Hd.
    + apply Z.eqb_eq in Hd. rewrite col_degree_count in Hd.
      etransitivity; [|exact Hd]. apply sumz_ext. intros i _.
      rewrite andb_true_r. reflexivity.
    + apply (count_0_all (fun i => cell L i j && false)).
      intros i _. apply andb_false_r.
Qed.

Lemma columns_bound :
  count (strict_match L) N + count (fun j => col_degree L j >? 1) M
  + count (fun j => col_degree L j =? 0) M <= Z.of_nat M.
Proof.
  pose proof matches_le_single_columns as Hinj.
  assert (count (fun j => col_degree L j =? 1) M
          + count (fun j => col_degree L j >? 1) M
          + count (fun j => col_degree L j =? 0) M <= Z.of_nat M); [|lia].
  unfold count. rewrite <- !sumz_add.
  rewrite <- (Z.mul_1_r (Z.of_nat M)), <- sumz_const.
  apply sumz_le. intros j _. rewrite Z.gtb_ltb.
  destruct (Z.eqb_spec (col_degree L j) 1), (Z.ltb_spec 1 (col_degree L j)),
    (Z.eqb_spec (col_degree L j) 0); lia.
Qed.

End Accounting.

(** ** Order facts: exact arithmetic satisfies the laws, sums are positive *)

#[global] Instance Q_float_order : FloatOrder Q.
Proof.
  split; simpl.
  - reflexivity.
  - intros a b Ha Hb. apply Qle_bool_iff in Ha, Hb. apply Qle_bool_iff. lra.
  - intros a b Ha Hb. apply negb_true_iff in Ha. apply Qle_bool_iff in Hb.
    apply negb_true_iff. destruct (Qle_bool (a + b) 0) eqn:Hab; [|reflexivity].
    apply Qle_bool_iff in Hab.
    assert (~ (a <= 0)%Q) as Hna.
    { intros Hle. apply Qle_bool_iff in Hle. congruence. }
    exfalso. apply Hna. lra.
  - intros a b Ha Hb. apply negb_true_iff in Hb. apply Qle_bool_iff in Ha.
    apply negb_true_iff. destruct (Qle_bool (a + b) 0) eqn:Hab; [|reflexivity].
    apply Qle_bool_iff in Hab.
    assert (~ (b <= 0)%Q) as Hnb.
    { intros Hle. apply Qle_bool_iff in Hle. congruence. }
    exfalso. apply Hnb. lra.
Qed.

Section Positivity.

Context {F : Type} `{FloatOrder F}.

Lemma f_sum_ge (f : nat -> F) n :
  (forall k, k < n -> f_ge (f k) f_zero = true) ->
  f_ge (f_sum f n) f_zero = true.
Proof.
  induction n as [|n IH]; intros Hf; simpl.
  - apply f_zero_ge.
  - apply f_add_ge_ge; [apply IH; intros; apply Hf; lia | apply Hf; lia].
Qed.

(** A sum of non-negative terms one of which is positive is positive. *)
Lemma f_sum_gt (f : nat -> F) n k :
  (forall k, k < n -> f_ge (f k) f_zero = true) ->
  k < n -> f_gt (f k) f_zero = true ->
  f_gt (f_sum f n) f_zero = true.
Proof.
  induction n as [|n IH]; intros Hf Hk Hpos; [lia|]. simpl.
  destruct (decide (k = n)) as [->|Hne].
  - apply f_add_ge_gt; [|exact Hpos].
    apply f_sum_ge. intros; apply Hf; lia.
  - apply f_add_gt_ge; [|apply Hf; lia].
    apply IH; [intros; apply Hf; lia | lia | exact Hpos].
Qed.

(** The same for every way of adding the entries, numpy's included. *)
Lemma sums_ge (v : list F) x :
  sums_to v x -> Forall (fun a => f_ge a f_zero = true) v ->
  f_ge x f_zero = true.
Proof.
  induction 1 as [|x|v1 v2 x y H1 IH1 H2 IH2|v v' x Hp Hs IH]; intros Hall.
  - apply f_zero_ge.
  - inversion Hall. assumption.
  - apply Forall_app in Hall as [Ha Hb]. apply f_add_ge_ge; auto.
  - apply IH. rewrite Hp. exact Hall.
Qed.

Lemma sums_gt (v : list F) x :
  sums_to v x -> Forall (fun a => f_ge a f_zero = true) v ->
  Exists (fun a => f_gt a f_zero = true) v ->
  f_gt x f_zero = true.
Proof.
  induction 1 as [|x|v1 v2 x y H1 IH1 H2 IH2|v v' x Hp Hs IH];
    intros Hall Hone.
  - inversion Hone.
  - inversion Hone as [? ? Hx|? ? Hx]; [exact Hx | inversion Hx].
  - apply Forall_app in Hall as [Ha Hb].
    apply Exists_app in Hone as [Hone|Hone].
    + apply f_add_gt_ge; [auto | apply (sums_ge v2); assumption].
    + apply f_add_ge_gt; [apply (sums_ge v1); assumption | auto].
  - apply IH; rewrite Hp; assumption.
Qed.

Lemma nonneg_entry (W : ndarray F) i j :
  nonneg_mat W = true -> f_ge (entry W i j) f_zero = true.
Proof.
  intros Hnn. unfold entry, np.lookup.
  destruct (np.rows W !! i) as [r|] eqn:Hr; simpl; [|apply f_zero_ge].
  destruct (r !! j) as [w|] eqn:Hw; simpl; [|apply f_zero_ge].
  unfold nonneg_mat in Hnn. rewrite forallb_forall in Hnn.
  specialize (Hnn r). rewrite forallb_forall in Hnn. apply Hnn.
  - apply list_elem_of_In, list_elem_of_lookup. exists i. exact Hr.
  - apply list_elem_of_In, list_elem_of_lookup. exists j. exact Hw.
Qed.

(** The margins of a non-negative matrix are positive where the matrix
    is. *)
Lemma row_margin_gt (W : ndarray F) i j :
  nonneg_mat W = true -> j < snd (np.shape W) ->
  f_gt (entry W i j) f_zero = true ->
  f_gt (np.sum (row W i)) f_zero = true.
Proof.
  intros Hnn Hj Hpos. apply (sums_gt (row W i)); [apply sum_sums | |].
  - apply Forall_fmap, Forall_forall. intros k _. apply nonneg_entry, Hnn.
  - apply Exists_exists. exists (entry W i j). split; [|exact Hpos].
    apply (list_elem_of_fmap_2 (fun j => entry W i j)), elem_of_seq. lia.
Qed.

Lemma column_margin_gt (W : ndarray F) i j :
  nonneg_mat W = true -> i < fst (np.shape W) ->
  f_gt (entry W i j) f_zero = true ->
  f_gt (np.sum (column W j)) f_zero = true.
Proof.
  intros Hnn Hi Hpos. apply (sums_gt (column W j)); [apply sum_sums | |].
  - apply Forall_fmap, Forall_forall. intros k _. apply nonneg_entry, Hnn.
  - apply Exists_exists. exists (entry W i j). split; [|exact Hpos].
    apply (list_elem_of_fmap_2 (fun i => entry W i j)), elem_of_seq. lia.
Qed.

End Positivity.

(** ** Exact arithmetic: every way of adding the entries gives the sum *)

#[global] Instance Q_float_exact : FloatExact Q.
Proof.
  split; simpl.
  - intros [a1 a2] [b1 b2] [c1 c2]. unfold Qplus. simpl.
    rewrite Pos.mul_assoc. f_equal. rewrite !Pos2Z.inj_mul. ring.
  - intros [a1 a2] [b1 b2]. unfold Qplus. simpl.
    rewrite (Pos.mul_comm a2 b2). f_equal. ring.
  - intros [a1 a2]. unfold Qplus. simpl. rewrite Z.mul_1_r. reflexivity.
Qed.

Section Exactness.

Context {F : Type} `{FloatExact F}.

Lemma f_add_zero_r (a : F) : f_add a f_zero = a.
Proof. rewrite f_add_comm. apply f_add_zero. Qed.

Lemma foldr_add_app (v1 v2 : list F) :
  foldr f_add f_zero (v1 ++ v2)
  = f_add (foldr f_add f_zero v1) (foldr f_add f_zero v2).
Proof.
  induction v1 as [|x v1 IH]; simpl.
  - symmetry. apply f_add_zero.
  - rewrite IH. apply f_add_assoc.
Qed.

Lemma foldr_add_perm (v v' : list F) :
  v ≡ₚ v' -> foldr f_add f_zero v = foldr f_add f_zero v'.
Proof.
  induction 1 as [|x v v' _ IH|x y v|v v' v'' _ IH1 _ IH2]; simpl.
  - reflexivity.
  - rewrite IH. reflexivity.
  - rewrite !f_add_assoc, (f_add_comm y x). reflexivity.
  - congruence.
Qed.

Lemma sums_to_foldr (v : list F) x :
  sums_to v x -> x = foldr f_add f_zero v.
Proof.
  induction 1 as [|x|v1 v2 x y _ IH1 _ IH2|v v' x Hp _ IH]; simpl.
  - reflexivity.
  - symmetry. apply f_add_zero_r.
  - rewrite foldr_add_app. congruence.
  - rewrite IH. apply foldr_add_perm, Hp.
Qed.

(** In exact arithmetic [.sum()] is the sum in the order of the indices. *)
Lemma sum_exact (f : nat -> F) n : np.sum (f <$> seq 0 n) = f_sum f n.
Proof.
  rewrite (sums_to_foldr _ _ (sum_sums (f <$> seq 0 n))).
  symmetry. apply sums_to_foldr, f_sum_sums.
Qed.

End Exactness.

Section InRange.

Context {A : Type}.

Lemma lookup_Some_in_range (a : ndarray A) i j v :
  np.well_shaped a = true -> np.lookup a i j = Some v ->
  i < fst (np.shape a) /\ j < snd (np.shape a).
Proof.
  intros Hw Hl. unfold np.lookup in Hl.
  destruct (np.rows a !! i) as [r|] eqn:Hr; simpl in Hl; [|discriminate].
  split.
  - rewrite <- (well_shaped_rows a Hw). eapply lookup_lt_Some, Hr.
  - rewrite <- (well_shaped_row a i r Hw Hr). eapply lookup_lt_Some, Hl.
Qed.

End InRange.

(** * The claims *)

Section LinkClaims.

Context {F P : Type} `{Float F} `{Geometry F P}.
Implicit Types (W : ndarray F) (L : ndarray bool).
Implicit Types (ref_data_vect test_data_vect : list (SegmentationAnnotation P)).

(** C1.  With vectors of compatible lengths, and annotations that have
    shapes, the Link Classifier returns a link matrix [L], and for every
    pair [(i,j)] with [W[i,j] > 0]:
    if [W[i,j]/refMargin[i] >= thresholdRelative] then
    [L[i,j] = (W[i,j]/area(ref[i]) > thresholdRef)], whatever the test
    side is; only when that gate fails, if
    [W[i,j]/testMargin[j] >= thresholdRelative] then
    [L[i,j] = (W[i,j]/area(test[j]) > thresholdTest)]; otherwise
    [L[i,j] = false].  In particular a pair that passes the reference
    gate and fails the reference area test is unlinked. *)
Theorem link_rule_short_circuit W (ref_margin_vect test_margin_vect : list F)
        ref_data_vect test_data_vect :
  np.well_shaped W = true ->
  fst (np.shape W) = length ref_margin_vect ->
  length ref_margin_vect = length ref_data_vect ->
  snd (np.shape W) = length test_margin_vect ->
  length test_margin_vect = length test_data_vect ->
  intersectable ref_data_vect test_data_vect = true ->
  exists L,
    compute_link_mat W ref_margin_vect test_margin_vect
                     ref_data_vect test_data_vect = Ok L
    /\ forall i j w rm tm r t p q,
         np.lookup W i j = Some w ->
         ref_margin_vect !! i = Some rm -> test_margin_vect !! j = Some tm ->
         ref_data_vect !! i = Some r -> test_data_vect !! j = Some t ->
         shape r = Some p -> shape t = Some q ->
         f_gt w f_zero = true ->
         (f_ge (f_div w rm) thresholdRelative = true ->
            cell L i j = f_gt (f_div w (area p)) threshold_ref)
         /\ (f_ge (f_div w rm) thresholdRelative = false ->
             f_ge (f_div w tm) thresholdRelative = true ->
             cell L i j = f_gt (f_div w (area q)) threshold_test)
         /\ (f_ge (f_div w rm) thresholdRelative = false ->
             f_ge (f_div w tm) thresholdRelative = false ->
             cell L i j = false)
         /\ (f_ge (f_div w rm) thresholdRelative = true ->
             f_gt (f_div w (area p)) threshold_ref = false ->
             cell L i j = false).
Proof.
  intros Hw Hn1 Hn2 Hm1 Hm2 Hint.
  destruct (compute_link_mat_spec W ref_margin_vect test_margin_vect
              ref_data_vect test_data_vect Hw Hn1 Hn2 Hm1 Hm2 Hint)
    as (L & Hrun & _ & _ & Hcells).
  exists L. split; [exact Hrun|].
  intros i j w rm tm r t p q Hlw Hrm Htm Hr Ht Hp Hq Hpos.
  unfold cell. rewrite (Hcells i j w rm tm r t p q) by assumption. simpl.
  unfold link_rule, thresholdRelative, threshold_ref, threshold_test.
  rewrite Hpos.
  destruct (f_ge (f_div w rm) f_lit_0_2), (f_ge (f_div w tm) f_lit_0_2);
    repeat split; intros; congruence.
Qed.

(** C6.  Link soundness: in the link matrix returned by the Link
    Classifier (for vectors of compatible lengths and annotations that
    have shapes), [L[i,j] = true] implies [W[i,j] > 0].  (Non-negativity
    of the weights is not needed.) *)
Theorem link_soundness W (ref_margin_vect test_margin_vect : list F)
        ref_data_vect test_data_vect :
  np.well_shaped W = true ->
  fst (np.shape W) = length ref_margin_vect ->
  length ref_margin_vect = length ref_data_vect ->
  snd (np.shape W) = length test_margin_vect ->
  length test_margin_vect = length test_data_vect ->
  intersectable ref_data_vect test_data_vect = true ->
  exists L,
    compute_link_mat W ref_margin_vect test_margin_vect
                     ref_data_vect test_data_vect = Ok L
    /\ forall i j, cell L i j = true -> f_gt (entry W i j) f_zero = true.
Proof.
  intros Hw Hn1 Hn2 Hm1 Hm2 Hint.
  destruct (compute_link_mat_spec W ref_margin_vect test_margin_vect
              ref_data_vect test_data_vect Hw Hn1 Hn2 Hm1 Hm2 Hint)
    as (L & Hrun & HwL & HsL & Hcells).
  exists L. split; [exact Hrun|].
  intros i j Hlink. unfold cell in Hlink.
  destruct (np.lookup L i j) as [b|] eqn:Hb; simpl in Hlink; [|discriminate].
  destruct (lookup_Some_in_range L i j b HwL Hb) as [Hi Hj].
  rewrite HsL in Hi, Hj.
  destruct (lookup_in_range W i j Hw Hi Hj) as [w Hlw].
  destruct (lookup_lt_is_Some_2 ref_margin_vect i) as [rm Hrm]; [lia|].
  destruct (lookup_lt_is_Some_2 test_margin_vect j) as [tm Htm]; [lia|].
  destruct (lookup_lt_is_Some_2 ref_data_vect i) as [r Hr]; [lia|].
  destruct (lookup_lt_is_Some_2 test_data_vect j) as [t Ht]; [lia|].
  destruct (proj1 (intersectable_spec _ _) Hint i j r t Hr Ht)
    as (p & q & Hp & Hq).
  rewrite (Hcells i j w rm tm r t p q) in Hb by assumption.
  unfold entry. rewrite Hlw. simpl.
  inversion Hb as [Hrule]. subst b. unfold link_rule in Hrule.
  destruct (f_gt w f_zero); [reflexivity | discriminate].
Qed.

(** C9.  When the row count of the weight matrix differs from the length
    of the reference margin vector or of the reference annotation list,
    or its column count differs from the length of the test margin
    vector or of the test annotation list, the Link Classifier raises an
    assertion error that reports the three lengths, and returns no link
    matrix. *)
Theorem incompatible_lengths_rejected W
        (ref_margin_vect test_margin_vect : list F)
        ref_data_vect test_data_vect :
  fst (np.shape W) <> length ref_margin_vect
  \/ fst (np.shape W) <> length ref_data_vect
  \/ snd (np.shape W) <> length test_margin_vect
  \/ snd (np.shape W) <> length test_data_vect ->
  compute_link_mat W ref_margin_vect test_margin_vect
                   ref_data_vect test_data_vect
  = Raise (AssertionError
             (lengths_message "Reference" (fst (np.shape W))
                (length ref_margin_vect) (length ref_data_vect)))
  \/ compute_link_mat W ref_margin_vect test_margin_vect
                      ref_data_vect test_data_vect
     = Raise (AssertionError
                (lengths_message "Test" (snd (np.shape W))
                   (length test_margin_vect) (length test_data_vect))).
Proof.
  intros Hbad. unfold compute_link_mat.
  destruct (np.shape W) as [n m]. simpl in *.
  destruct (bool_decide (n = length ref_margin_vect)
            && bool_decide (length ref_margin_vect = length ref_data_vect))
    eqn:Href; simpl; [|left; reflexivity].
  destruct (bool_decide (m = length test_margin_vect)
            && bool_decide (length test_margin_vect = length test_data_vect))
    eqn:Htest; simpl; [|right; reflexivity].
  exfalso.
  apply andb_prop in Href as [H1 H2], Htest as [H3 H4].
  apply bool_decide_eq_true_1 in H1, H2, H3, H4.
  destruct Hbad as [Hb | [Hb | [Hb | Hb]]]; apply Hb; congruence.
Qed.

End LinkClaims.

Section MarginClaims.

Context {F : Type} `{Float F}.
Implicit Types (W : ndarray F).

(** C8.  Margin consistency: the Margin Vector Calculator returns
    [refMargin] of length [N] with [refMargin[i]] the sum of row [i] of
    [W], and [testMargin] of length [M] with [testMargin[j]] the sum of
    column [j]; when [N = 0] (resp. [M = 0]) the vector is empty.  The sum
    is the one numpy computes: every entry of the row (of the column) is
    added once, pairwise for 8 entries or more.  In exact arithmetic it is
    the sum of the entries in any order; in binary64 each addition is
    rounded, so that the value depends on the order that numpy follows. *)
Theorem margin_consistency W :
  np.well_shaped W = true ->
  exists refMargin testMargin,
    compute_ref_margin_vect W = Ok refMargin
    /\ compute_test_margin_vect W = Ok testMargin
    /\ length refMargin = fst (np.shape W)
    /\ (forall i, i < fst (np.shape W) ->
          refMargin !! i = Some (np.sum (row W i))
          /\ sums_to (row W i) (np.sum (row W i)))
    /\ length testMargin = snd (np.shape W)
    /\ (forall j, j < snd (np.shape W) ->
          testMargin !! j = Some (np.sum (column W j))
          /\ sums_to (column W j) (np.sum (column W j)))
    /\ (FloatExact F ->
        (forall i, i < fst (np.shape W) ->
                   refMargin !! i = Some (row_sum W i))
        /\ (forall j, j < snd (np.shape W) ->
                      testMargin !! j = Some (col_sum W j)))
    /\ (fst (np.shape W) = 0 -> refMargin = [])
    /\ (snd (np.shape W) = 0 -> testMargin = []).
Proof.
  intros Hw.
  destruct (compute_ref_margin_vect_spec W Hw) as (rm & Hrm & Hlen & Hrows).
  destruct (compute_test_margin_vect_spec W Hw) as (tm & Htm & Hlen' & Hcols).
  exists rm, tm.
  split; [exact Hrm|]. split; [exact Htm|]. split; [exact Hlen|].
  split; [intros i Hi; split; [apply Hrows, Hi | apply sum_sums]|].
  split; [exact Hlen'|].
  split; [intros j Hj; split; [apply Hcols, Hj | apply sum_sums]|].
  split; [|split].
  - intros Hexact. split.
    + intros i Hi. rewrite (Hrows i Hi). f_equal. apply sum_exact.
    + intros j Hj. rewrite (Hcols j Hj). f_equal. apply sum_exact.
  - intros Hz. apply nil_length_inv. congruence.
  - intros Hz. apply nil_length_inv. congruence.
Qed.

End MarginClaims.

Section DivisorClaims.

Context {F P : Type} `{FloatOrder F} `{Geometry F P}.
Implicit Types (W : ndarray F).

(** C7.  No division by zero in the Link Classifier.  For a weight matrix
    with non-negative entries, whenever [W[i,j] > 0] the two margins
    divided by for the pair [(i,j)], [refMargin[i]] and [testMargin[j]] as
    the Margin Vector Calculator returns them, are strictly positive: each
    sums non-negative entries one of which is [W[i,j]], in whatever order
    numpy adds them.  The two other divisors, the areas of the regions,
    exist and are strictly positive as well when [W] is the overlap
    matrix of the annotation lists, as in [main], because both regions
    then have a shape and a region with a positive overlap has a positive
    area. *)
Theorem no_division_by_zero W i j w :
  np.well_shaped W = true ->
  nonneg_mat W = true ->
  np.lookup W i j = Some w ->
  f_gt w f_zero = true ->
  (exists refMargin testMargin rm tm,
     compute_ref_margin_vect W = Ok refMargin
     /\ compute_test_margin_vect W = Ok testMargin
     /\ refMargin !! i = Some rm /\ f_gt rm f_zero = true
     /\ testMargin !! j = Some tm /\ f_gt tm f_zero = true)
  /\ (forall (ref_data_vect test_data_vect : list (SegmentationAnnotation P))
             r t,
        GeometryOrder F P ->
        compute_weight_mat ref_data_vect test_data_vect = Ok W ->
        ref_data_vect !! i = Some r -> test_data_vect !! j = Some t ->
        exists p q,
          shape r = Some p /\ shape t = Some q
          /\ f_gt (area p) f_zero = true
          /\ f_gt (area q) f_zero = true).
Proof.
  intros Hw Hnn Hlw Hpos. split.
  - destruct (lookup_Some_in_range W i j w Hw Hlw) as [Hi Hj].
    destruct (compute_ref_margin_vect_spec W Hw) as (rm & Hrm & _ & Hrows).
    destruct (compute_test_margin_vect_spec W Hw) as (tm & Htm & _ & Hcols).
    assert (f_gt (entry W i j) f_zero = true) as Hentry.
    { unfold entry. rewrite Hlw. exact Hpos. }
    exists rm, tm, (np.sum (row W i)), (np.sum (column W j)).
    repeat split;
      [exact Hrm | exact Htm | apply Hrows, Hi | | apply Hcols, Hj |].
    + apply (row_margin_gt W i j Hnn Hj Hentry).
    + apply (column_margin_gt W i j Hnn Hi Hentry).
  - intros ref_data_vect test_data_vect r t Hgeo Hrun Hr Ht.
    pose proof (compute_weight_mat_cases ref_data_vect test_data_vect) as Hc.
    rewrite Hrun in Hc. destruct Hc as (Hint & _ & _ & Hcells).
    destruct (proj1 (intersectable_spec _ _) Hint i j r t Hr Ht)
      as (p & q & Hp & Hq).
    rewrite (Hcells i j r t p q Hr Ht Hp Hq) in Hlw. inversion Hlw. subst w.
    exists p, q. split; [exact Hp|]. split; [exact Hq|].
    apply area_inter_pos, Hpos.
Qed.

End DivisorClaims.


Section MetricClaims.

Local Open Scope Z_scope.
Implicit Types (L : ndarray bool).

(** C4.  [Tc] is the number of reference rows whose degree is exactly 1
    and whose unique linked column has degree exactly 1; a row of degree
    1 whose linked column has degree greater than 1 is not counted. *)
Theorem total_correct_counts_strict_matches L :
  np.well_shaped L = true ->
  find_total_correct_segmentation L
  = Ok (count (strict_match L) (fst (np.shape L)))
  /\ (forall i,
        strict_match L i = true
        <-> row_degree L i = 1
            /\ exists j, (j < snd (np.shape L))%nat
                         /\ cell L i j = true /\ col_degree L j = 1)
  /\ (forall i j,
        (j < snd (np.shape L))%nat -> row_degree L i = 1 ->
        cell L i j = true -> col_degree L j > 1 ->
        strict_match L i = false).
Proof.
  intros Hw. destruct (np.shape L) as [N M] eqn:Hs. simpl.
  split; [apply (find_total_correct_segmentation_spec L N M Hw Hs)|].
  split.
  - intros i. apply (strict_match_iff L N M Hs).
  - intros i j. apply (shared_column_excluded L N M Hs).
Qed.

(** C5.  [To] is the sum of [degree - 1] over the reference rows of
    degree greater than 1, which is the sum of the degrees of those rows
    minus [Co]; [Tu] is the same over the test columns, with [Cu]. *)
Theorem total_segmentation_sums_excess L :
  np.well_shaped L = true ->
  let N := fst (np.shape L) in
  let M := snd (np.shape L) in
  find_total_over_segmentation L
  = Ok (sumz (fun i => excess (row_degree L i)) N)
  /\ find_total_under_segmentation L
     = Ok (sumz (fun j => excess (col_degree L j)) M)
  /\ (exists co,
        find_num_over_segmentation_components L = Ok co
        /\ sumz (fun i => excess (row_degree L i)) N
           = sumz (fun i => if row_degree L i >? 1
                            then row_degree L i else 0) N - co)
  /\ (exists cu,
        find_num_under_segmentation_components L = Ok cu
        /\ sumz (fun j => excess (col_degree L j)) M
           = sumz (fun j => if col_degree L j >? 1
                            then col_degree L j else 0) M - cu).
Proof.
  intros Hw. destruct (np.shape L) as [N M] eqn:Hs. simpl.
  split; [apply (find_total_over_segmentation_spec L N M Hw Hs)|].
  split; [apply (find_total_under_segmentation_spec L N M Hw Hs)|].
  split.
  - eexists. split;
      [apply (find_num_over_segmentation_components_spec L N M Hw Hs)|].
    symmetry. apply sum_excess.
  - eexists. split;
      [apply (find_num_under_segmentation_components_spec L N M Hw Hs)|].
    symmetry. apply sum_excess.
Qed.

(** C10.  Row and column accounting: the Metric Aggregator returns
    metrics with [Tc + Co + Cm <= N] and [Tc + Cu + Cf <= M]. *)
Theorem accounting_bounds L :
  np.well_shaped L = true ->
  exists m,
    compute_statistics L = Ok m
    /\ Tc m + Co m + Cm m <= Z.of_nat (fst (np.shape L))
    /\ Tc m + Cu m + Cf m <= Z.of_nat (snd (np.shape L)).
Proof.
  intros Hw. destruct (np.shape L) as [N M] eqn:Hs.
  eexists. split; [apply (compute_statistics_spec L N M Hw Hs)|].
  simpl. split.
  - apply (rows_bound L N).
  - apply (columns_bound L N M Hs).
Qed.

End MetricClaims.

(** ** Empty inputs *)

Section EmptySide.

Local Open Scope Z_scope.
Implicit Types (L : ndarray bool).

Lemma count_all p n :
  (forall k, (k < n)%nat -> p k = true) -> count p n = Z.of_nat n.
Proof.
  intros Hall. rewrite (count_ext p (fun _ => true)) by exact Hall.
  unfold count. rewrite sumz_const. lia.
Qed.

Lemma sumz_0 f n : (forall k, (k < n)%nat -> f k = 0) -> sumz f n = 0.
Proof.
  intros Hall. rewrite (sumz_ext f (fun _ => 0)) by exact Hall.
  rewrite sumz_const. lia.
Qed.

(** No reference region: every test column has degree 0. *)
Lemma statistics_no_rows L M :
  np.well_shaped L = true -> np.shape L = (O, M) ->
  compute_statistics L
  = Ok {| Tc := 0; To := 0; Tu := 0; Co := 0; Cu := 0; Cm := 0;
          Cf := Z.of_nat M; Cr := 0; Ct := Z.of_nat M |}.
Proof.
  intros Hw Hs. rewrite (compute_statistics_spec L O M Hw Hs).
  assert (forall j, col_degree L j = 0) as Hdeg.
  { intros j. rewrite (col_degree_count L O M Hs). reflexivity. }
  f_equal. f_equal.
  - apply sumz_0. intros j _. rewrite Hdeg. reflexivity.
  - apply count_0_all. intros j _. rewrite Hdeg. reflexivity.
  - apply count_all. intros j _. rewrite Hdeg. reflexivity.
Qed.

(** No test region: every reference row has degree 0. *)
Lemma statistics_no_columns L N :
  np.well_shaped L = true -> np.shape L = (N, O) ->
  compute_statistics L
  = Ok {| Tc := 0; To := 0; Tu := 0; Co := 0; Cu := 0; Cm := Z.of_nat N;
          Cf := 0; Cr := Z.of_nat N; Ct := 0 |}.
Proof.
  intros Hw Hs. rewrite (compute_statistics_spec L N O Hw Hs).
  assert (forall i, row_degree L i = 0) as Hdeg.
  { intros i. rewrite (row_degree_count L N O Hs). reflexivity. }
  f_equal. f_equal.
  - apply count_0_all. intros i _. unfold strict_match.
    rewrite Hdeg. reflexivity.
  - apply sumz_0. intros i _. rewrite Hdeg. reflexivity.
  - apply count_0_all. intros i _. rewrite Hdeg. reflexivity.
  - apply count_all. intros i _. rewrite Hdeg. reflexivity.
Qed.

(** C2, as the program behaves.  When [N = 0] or [M = 0] the Metric
    Aggregator raises no exception and yields [Tc = To = Tu = Co = Cu = 0],
    [Cr = N] and [Ct = M]; with no reference region [Cm = 0] and every
    test region is a false alarm ([Cf = M]); with no test region [Cf = 0]
    and every reference region is missed ([Cm = N]). *)
Theorem empty_side_metrics L :
  np.well_shaped L = true ->
  fst (np.shape L) = O \/ snd (np.shape L) = O ->
  exists m,
    compute_statistics L = Ok m
    /\ Tc m = 0 /\ To m = 0 /\ Tu m = 0 /\ Co m = 0 /\ Cu m = 0
    /\ Cr m = Z.of_nat (fst (np.shape L))
    /\ Ct m = Z.of_nat (snd (np.shape L))
    /\ (fst (np.shape L) = O ->
        Cm m = 0 /\ Cf m = Z.of_nat (snd (np.shape L)))
    /\ (snd (np.shape L) = O ->
        Cf m = 0 /\ Cm m = Z.of_nat (fst (np.shape L))).
Proof.
  intros Hw Hempty. destruct (np.shape L) as [N M] eqn:Hs. simpl in *.
  destruct Hempty as [-> | ->].
  - eexists. split; [apply (statistics_no_rows L M Hw Hs)|]. simpl.
    repeat split; intros; subst; reflexivity.
  - eexists. split; [apply (statistics_no_columns L N Hw Hs)|]. simpl.
    repeat split; intros; subst; reflexivity.
Qed.

(** C2, as stated, fails: with no reference region and one test region
    the Metric Aggregator counts one false alarm. *)
Lemma empty_reference_false_alarm :
  ~ (forall L,
       np.well_shaped L = true ->
       fst (np.shape L) = O \/ snd (np.shape L) = O ->
       exists m,
         compute_statistics L = Ok m
         /\ Tc m = 0 /\ To m = 0 /\ Tu m = 0 /\ Co m = 0 /\ Cu m = 0
         /\ Cm m = 0 /\ Cf m = 0
         /\ Cr m = Z.of_nat (fst (np.shape L))
         /\ Ct m = Z.of_nat (snd (np.shape L))).
Proof.
  intros Hclaim.
  destruct (Hclaim (np.empty false 0 1) eq_refl (or_introl eq_refl))
    as (m & Hm & _ & _ & _ & _ & _ & _ & Hcf & _).
  vm_compute in Hm. inversion Hm. subst m. discriminate Hcf.
Qed.

End EmptySide.

Section PipelineClaims.

Context {F P : Type} `{Float F} `{Geometry F P}.

(** C3.  A run with an empty reference list completes and yields
    [Cr = 0], [Cf = Ct = M] and [Tc = To = Tu = Co = Cu = Cm = 0], for
    every test list (of length [M], empty or not, with or without
    shapes: no intersection is computed). *)
Theorem empty_reference_run (test_data_vect : list (SegmentationAnnotation P)) :
  process [] test_data_vect
  = Ok {| Tc := 0; To := 0; Tu := 0; Co := 0; Cu := 0; Cm := 0;
          Cf := Z.of_nat (length test_data_vect);
          Cr := 0;
          Ct := Z.of_nat (length test_data_vect) |}.
Proof.
  unfold process.
  destruct (compute_weight_mat_spec [] test_data_vect eq_refl)
    as (W & -> & HwW & HsW & _). simpl.
  destruct (compute_ref_margin_vect_spec W HwW) as (rm & -> & Hrm & _).
  destruct (compute_test_margin_vect_spec W HwW) as (tm & -> & Htm & _).
  simpl. rewrite HsW in Hrm, Htm. simpl in Hrm, Htm.
  destruct (compute_link_mat_spec W rm tm [] test_data_vect)
    as (L & -> & HwL & HsL & _);
    [exact HwW | rewrite HsW; simpl; lia | simpl; lia
     | rewrite HsW; simpl; lia | lia | reflexivity |].
  simpl. apply statistics_no_rows; [exact HwL | rewrite HsL; exact HsW].
Qed.

End PipelineClaims.

(** ** Further facts about the pipeline *)

Section PipelineFacts.

Context {F P : Type} `{Float F} `{Geometry F P}.
Implicit Types (ref_data_vect test_data_vect : list (SegmentationAnnotation P)).

(** When the reference gate passes, the iteration does not read the test
    side at all: it returns even with test vectors that have no entry at
    [j], or an annotation without shape there. *)
Lemma reference_gate_skips_test_side (W : ndarray F)
      (ref_margin_vect test_margin_vect : list F)
      ref_data_vect test_data_vect i j w rm r p :
  np.lookup W i j = Some w -> f_gt w f_zero = true ->
  ref_margin_vect !! i = Some rm ->
  f_ge (f_div w rm) thresholdRelative = true ->
  ref_data_vect !! i = Some r -> shape r = Some p ->
  significant_link W ref_margin_vect test_margin_vect
                   ref_data_vect test_data_vect i j
  = Ok (f_gt (f_div w (area p)) threshold_ref).
Proof.
  intros Hlw Hpos Hrm Hgate Hr Hp. unfold significant_link.
  rewrite (getitem_lookup W i j w Hlw). simpl. rewrite Hpos.
  rewrite (list_getitem_Ok _ _ _ Hrm). simpl. rewrite Hgate.
  rewrite (list_getitem_Ok _ _ _ Hr). simpl. rewrite Hp. simpl.
  destruct (f_gt (f_div w (area p)) threshold_ref); reflexivity.
Qed.

(** Once the overlaps are computed the run does not raise: the vectors
    it builds are compatible. *)
Lemma process_total ref_data_vect test_data_vect :
  intersectable ref_data_vect test_data_vect = true ->
  exists m, process ref_data_vect test_data_vect = Ok m.
Proof.
  intros Hint. unfold process.
  destruct (compute_weight_mat_spec ref_data_vect test_data_vect Hint)
    as (W & -> & HwW & HsW & _). simpl.
  destruct (compute_ref_margin_vect_spec W HwW) as (rm & -> & Hrm & _).
  destruct (compute_test_margin_vect_spec W HwW) as (tm & -> & Htm & _).
  simpl. rewrite HsW in Hrm, Htm. simpl in Hrm, Htm.
  destruct (compute_link_mat_spec W rm tm ref_data_vect test_data_vect)
    as (L & -> & HwL & HsL & _);
    [exact HwW | rewrite HsW; simpl; lia | lia
     | rewrite HsW; simpl; lia | lia | exact Hint |].
  simpl. eexists.
  apply (compute_statistics_spec L (length ref_data_vect)
           (length test_data_vect) HwL).
  rewrite HsL. exact HsW.
Qed.

End PipelineFacts.

(** Boxes satisfy the geometric fact, in exact arithmetic. *)
Lemma inject_Z_gt (z : Z) : f_gt (inject_Z z) f_zero = (0 <? z)%Z.
Proof.
  simpl. unfold Qle_bool. simpl.
  destruct (Z.leb_spec (z * 1) 0), (Z.ltb_spec 0 z); simpl; lia.
Qed.

Lemma box_area_pos (b : box) :
  (0 < box_area b)%Z <-> (x_min b < x_max b)%Z /\ (y_min b < y_max b)%Z.
Proof. unfold box_area. nia. Qed.

#[global] Instance box_Q_order : GeometryOrder Q box.
Proof.
  split. intros p q. simpl area. rewrite !inject_Z_gt, !Z.ltb_lt.
  rewrite !box_area_pos. unfold box_inter. simpl. lia.
Qed.

(** * The program on sample inputs *)

(** The samples are what the program computes. *)
Example sample_weights_computed :
  compute_weight_mat sample_refs sample_tests = Ok sample_weights.
Proof. reflexivity. Qed.

Example sample_margins_computed :
  compute_ref_margin_vect sample_weights = Ok sample_ref_margin
  /\ compute_test_margin_vect sample_weights = Ok sample_test_margin.
Proof. split; reflexivity. Qed.

(** [low_strip] passes the reference gate and fails the reference area
    test: it is not linked although it lies within [square].  [dot] fails
    the reference gate and is linked through the test side. *)
Example sample_link_mat :
  compute_link_mat sample_weights sample_ref_margin sample_test_margin
                   sample_refs sample_tests
  = Ok (np.mk_ndarray (2, 4) [[false; true; false; true];
                              [false; false; false; false]]).
Proof. reflexivity. Qed.

Example sample_statistics :
  compute_statistics sample_links
  = Ok {| Tc := 1; To := 1; Tu := 1; Co := 1; Cu := 1; Cm := 1; Cf := 2;
          Cr := 4; Ct := 5 |}.
Proof. reflexivity. Qed.

(** Scenario A, in exact arithmetic and in binary64. *)
Example identical_region_exact :
  process (F := Q) [square] [square]
  = Ok {| Tc := 1; To := 0; Tu := 0; Co := 0; Cu := 0; Cm := 0; Cf := 0;
          Cr := 1; Ct := 1 |}.
Proof. reflexivity. Qed.

Example identical_region_binary64 :
  process (F := float) [square] [square]
  = Ok {| Tc := 1; To := 0; Tu := 0; Co := 0; Cu := 0; Cm := 0; Cf := 0;
          Cr := 1; Ct := 1 |}.
Proof. vm_compute. reflexivity. Qed.

(** An empty reference list and one test region: one false alarm. *)
Example empty_reference_one_test :
  process (F := float) [] [square]
  = Ok {| Tc := 0; To := 0; Tu := 0; Co := 0; Cu := 0; Cm := 0; Cf := 1;
          Cr := 0; Ct := 1 |}.
Proof. vm_compute. reflexivity. Qed.

(** An annotation without shape, as the XML driver commits at the closing
    tag of a [label] element that enclosed another region: the run raises
    [TypeError], unless the other list is empty or a type restriction
    removes the annotation (it has no type either). *)
Example run_without_shape :
  process (F := Q) [square; no_region] [square] = Raise TypeError
  /\ process (F := Q) [square] [no_region; square] = Raise TypeError
  /\ process (F := Q) [no_region] []
     = Ok {| Tc := 0; To := 0; Tu := 0; Co := 0; Cu := 0; Cm := 1; Cf := 0;
             Cr := 1; Ct := 0 |}
  /\ evaluate (F := Q) (Some ["coin"]) [square; no_region] [square]
     = Ok {| Tc := 1; To := 0; Tu := 0; Co := 0; Cu := 0; Cm := 0; Cf := 0;
             Cr := 1; Ct := 1 |}.
Proof. repeat split; vm_compute; reflexivity. Qed.

(** The Link Classifier on its own asks a region for its area only when
    the overlap passes the relative gate: without shape there, it raises
    [AttributeError]. *)
Example area_without_shape :
  compute_link_mat (np.mk_ndarray (1, 1) [[1%Q]]) [1%Q] [1%Q]
                   [no_region] [square]
  = Raise AttributeError.
Proof. reflexivity. Qed.

(** The order of the additions in binary64.  A row of 8 entries is added
    with eight partial sums: [(1e16 + 1) + (1 + 1)], then [... + 4], gives
    [1.0000000000000006e16], where adding from the first entry to the last
    gives [1e16]; with 7 entries numpy adds from first to last. *)
Example margin_rounding_binary64 :
  compute_ref_margin_vect
    (np.mk_ndarray (1, 8) [[1e16; 1; 1; 1; 1; 1; 1; 1]%float])
  = Ok [0x1.1c37937e08003p+53%float]
  /\ row_sum (np.mk_ndarray (1, 8) [[1e16; 1; 1; 1; 1; 1; 1; 1]%float]) 0
     = 1e16%float
  /\ compute_ref_margin_vect
       (np.mk_ndarray (1, 7) [[1e16; 1; 1; 1; 1; 1; 1]%float])
     = Ok [1e16%float]
  /\ compute_test_margin_vect
       (np.mk_ndarray (8, 1)
          [[1e16]; [1]; [1]; [1]; [1]; [1]; [1]; [1]]%float)
     = Ok [0x1.1c37937e08003p+53%float].
Proof. repeat split; vm_compute; reflexivity. Qed.

(** The messages of the two length checks. *)
Example reference_lengths_message :
  compute_link_mat sample_weights [135%Q] sample_test_margin
                   sample_refs sample_tests
  = Raise (AssertionError
             "Reference vectors have different lenghts: w:2 m:1 d:2").
Proof. reflexivity. Qed.

Example test_lengths_message :
  compute_link_mat sample_weights sample_ref_margin sample_test_margin
                   sample_refs [low_strip]
  = Raise (AssertionError "Test vectors have different lenghts: w:4 m:4 d:1").
Proof. reflexivity. Qed.

(** * The claims on the sample inputs *)

(** C1 on the samples: [low_strip] (reference gate passed, area test
    failed) is unlinked, [high_strip] is linked through the reference
    side, [dot] through the test side. *)
Lemma link_rule_short_circuit_witness :
  exists L,
    compute_link_mat sample_weights sample_ref_margin sample_test_margin
                     sample_refs sample_tests = Ok L
    /\ cell L 0 0 = false /\ cell L 0 1 = true /\ cell L 0 3 = true.
Proof.
  destruct (link_rule_short_circuit sample_weights sample_ref_margin
              sample_test_margin sample_refs sample_tests)
    as (L & Hrun & Hrule); try reflexivity.
  exists L. split; [exact Hrun|]. repeat split.
  - destruct (Hrule 0 0 40%Q 135%Q 40%Q square low_strip
                (mk_box 0 0 10 10) (mk_box 0 0 10 4))
      as (_ & _ & _ & Hfail); try reflexivity.
    apply Hfail; reflexivity.
  - destruct (Hrule 0 1 60%Q 135%Q 60%Q square high_strip
                (mk_box 0 0 10 10) (mk_box 0 4 10 10))
      as (Href & _); try reflexivity.
    rewrite Href by reflexivity. reflexivity.
  - destruct (Hrule 0 3 10%Q 135%Q 10%Q square dot
                (mk_box 0 0 10 10) (mk_box 0 0 5 2))
      as (_ & Htest & _); try reflexivity.
    rewrite Htest by reflexivity. reflexivity.
Defined.

(** C6 on the samples. *)
Lemma link_soundness_witness :
  exists L,
    compute_link_mat sample_weights sample_ref_margin sample_test_margin
                     sample_refs sample_tests = Ok L
    /\ forall i j, cell L i j = true ->
                   f_gt (entry sample_weights i j) f_zero = true.
Proof.
  apply (link_soundness sample_weights sample_ref_margin sample_test_margin
           sample_refs sample_tests); reflexivity.
Defined.

(** C9 on the samples, with a reference margin vector that is too short. *)
Lemma incompatible_lengths_rejected_witness :
  compute_link_mat sample_weights [135%Q] sample_test_margin
                   sample_refs sample_tests
  = Raise (AssertionError
             (lengths_message "Reference" 2 1 2))
  \/ compute_link_mat sample_weights [135%Q] sample_test_margin
                      sample_refs sample_tests
     = Raise (AssertionError (lengths_message "Test" 4 4 4)).
Proof.
  apply (incompatible_lengths_rejected sample_weights [135%Q]
           sample_test_margin sample_refs sample_tests).
  left. simpl. lia.
Defined.

(** C8 on the sample weights. *)
Lemma margin_consistency_witness :
  exists refMargin testMargin,
    compute_ref_margin_vect sample_weights = Ok refMargin
    /\ compute_test_margin_vect sample_weights = Ok testMargin
    /\ length refMargin = 2 /\ length testMargin = 4
    /\ refMargin !! 0 = Some 135%Q
    /\ testMargin !! 2 = Some 25%Q
    /\ refMargin !! 0 = Some (row_sum sample_weights 0)
    /\ testMargin !! 2 = Some (col_sum sample_weights 2).
Proof.
  destruct (margin_consistency sample_weights)
    as (rm & tm & Hrm & Htm & Hn & Hrows & Hm & Hcols & Hexact & _);
    [reflexivity|].
  destruct (Hexact Q_float_exact) as [Hrows' Hcols'].
  exists rm, tm. repeat split;
    [exact Hrm | exact Htm | exact Hn | exact Hm
     | apply (Hrows 0); simpl; lia | apply (Hcols 2); simpl; lia
     | apply Hrows'; simpl; lia | apply Hcols'; simpl; lia].
Defined.

(** C7 on the samples, in exact arithmetic, for the pair of [square] and
    [dot]: the two margins and the two areas are positive. *)
Lemma no_division_by_zero_witness :
  (exists refMargin testMargin rm tm,
     compute_ref_margin_vect sample_weights = Ok refMargin
     /\ compute_test_margin_vect sample_weights = Ok testMargin
     /\ refMargin !! 0 = Some rm /\ f_gt rm f_zero = true
     /\ testMargin !! 3 = Some tm /\ f_gt tm f_zero = true)
  /\ exists p q,
       shape square = Some p /\ shape dot = Some q
       /\ f_gt (area (F := Q) p) f_zero = true
       /\ f_gt (area (F := Q) q) f_zero = true.
Proof.
  destruct (no_division_by_zero (P := box) sample_weights 0 3 10%Q)
    as [Hmargins Hareas]; try reflexivity.
  split; [exact Hmargins|].
  apply (Hareas sample_refs sample_tests square dot);
    [exact box_Q_order | reflexivity | reflexivity | reflexivity].
Defined.

(** C4 on the sample links: row 0 is a match, row 2 shares its column. *)
Lemma total_correct_counts_strict_matches_witness :
  find_total_correct_segmentation sample_links = Ok 1%Z
  /\ strict_match sample_links 0 = true
  /\ strict_match sample_links 2 = false.
Proof.
  destruct (total_correct_counts_strict_matches sample_links)
    as (Htc & Hiff & Hshared); [reflexivity|].
  split; [exact Htc|]. split.
  - apply Hiff. split; [reflexivity|]. exists 0.
    repeat split. simpl. lia.
  - apply (Hshared 2 2); [simpl; lia | reflexivity | reflexivity | reflexivity].
Defined.

(** C5 on the sample links. *)
Lemma total_segmentation_sums_excess_witness :
  find_total_over_segmentation sample_links = Ok 1%Z
  /\ find_total_under_segmentation sample_links = Ok 1%Z.
Proof.
  destruct (total_segmentation_sums_excess sample_links)
    as (Hto & Htu & _); [reflexivity|].
  split; [exact Hto | exact Htu].
Defined.

(** C10 on the sample links. *)
Lemma accounting_bounds_witness :
  exists m,
    compute_statistics sample_links = Ok m
    /\ (Tc m + Co m + Cm m <= 4)%Z
    /\ (Tc m + Cu m + Cf m <= 5)%Z.
Proof.
  apply (accounting_bounds sample_links). reflexivity.
Defined.

(** C2 (as the program behaves) on the link matrix of no reference
    region and three test regions. *)
Lemma empty_side_metrics_witness :
  exists m,
    compute_statistics (np.empty false 0 3) = Ok m
    /\ Tc m = 0%Z /\ To m = 0%Z /\ Tu m = 0%Z /\ Co m = 0%Z /\ Cu m = 0%Z
    /\ Cm m = 0%Z /\ Cf m = 3%Z /\ Cr m = 0%Z /\ Ct m = 3%Z.
Proof.
  destruct (empty_side_metrics (np.empty false 0 3))
    as (m & Hm & Htc & Hto & Htu & Hco & Hcu & Hcr & Hct & Hrows & _);
    [reflexivity | left; reflexivity |].
  destruct (Hrows eq_refl) as [Hcm Hcf].
  exists m. repeat split; assumption.
Defined.

(** * Further properties of [eval_geom.py] *)

Section RunFacts.

Context {F P : Type} `{Float F} `{Geometry F P}.
Implicit Types (ref_data_vect test_data_vect : list (SegmentationAnnotation P)).

Lemma intersectable_empty ref_data_vect test_data_vect :
  ref_data_vect = [] \/ test_data_vect = [] ->
  intersectable ref_data_vect test_data_vect = true.
Proof.
  intros Hempty. apply intersectable_spec. intros i j r t Hr Ht.
  destruct Hempty; subst; discriminate.
Qed.

(** The stages of a run on annotations that can be intersected: each
    returns, and the next one receives vectors of compatible lengths. *)
Lemma process_stages ref_data_vect test_data_vect :
  intersectable ref_data_vect test_data_vect = true ->
  exists W rmv tmv L,
    compute_weight_mat ref_data_vect test_data_vect = Ok W
    /\ compute_ref_margin_vect W = Ok rmv
    /\ compute_test_margin_vect W = Ok tmv
    /\ compute_link_mat W rmv tmv ref_data_vect test_data_vect = Ok L
    /\ process ref_data_vect test_data_vect = compute_statistics L
    /\ np.well_shaped W = true
    /\ np.shape W = (length ref_data_vect, length test_data_vect)
    /\ np.well_shaped L = true
    /\ np.shape L = (length ref_data_vect, length test_data_vect)
    /\ (forall i j r t p q,
          ref_data_vect !! i = Some r -> test_data_vect !! j = Some t ->
          shape r = Some p -> shape t = Some q ->
          np.lookup W i j = Some (area (inter p q)))
    /\ (forall i j r t p q,
          ref_data_vect !! i = Some r -> test_data_vect !! j = Some t ->
          shape r = Some p -> shape t = Some q ->
          np.lookup L i j
          = Some (link_rule (area (inter p q))
                            (np.sum (row W i)) (area p)
                            (np.sum (column W j)) (area q))).
Proof.
  intros Hint. unfold process.
  destruct (compute_weight_mat_spec ref_data_vect test_data_vect Hint)
    as (W & HW & HwW & HsW & Hcells).
  destruct (compute_ref_margin_vect_spec W HwW) as (rm & Hrm & Hlrm & Hrows).
  destruct (compute_test_margin_vect_spec W HwW) as (tm & Htm & Hltm & Hcols).
  rewrite HsW in Hlrm, Hltm, Hrows, Hcols. simpl in Hlrm, Hltm, Hrows, Hcols.
  destruct (compute_link_mat_spec W rm tm ref_data_vect test_data_vect)
    as (L & HL & HwL & HsL & Hrule);
    [exact HwW | rewrite HsW; simpl; lia | lia
     | rewrite HsW; simpl; lia | lia | exact Hint |].
  exists W, rm, tm, L. rewrite HW. simpl. rewrite Hrm. simpl.
  rewrite Htm. simpl. rewrite HL. simpl.
  repeat split; try assumption; try reflexivity.
  - rewrite HsL. exact HsW.
  - intros i j r t p q Hr Ht Hp Hq.
    apply (Hrule i j _ _ _ r t p q);
      [apply (Hcells i j r t p q Hr Ht Hp Hq) | | | exact Hr | exact Ht
       | exact Hp | exact Hq].
    + apply Hrows. eapply lookup_lt_Some, Hr.
    + apply Hcols. eapply lookup_lt_Some, Ht.
Qed.

(** X1.  The Overlap Matrix Builder returns exactly when every pair of a
    reference and a test annotation has two shapes: always when one of the
    lists is empty, and with two non-empty lists when every annotation
    has a shape.  It then returns a matrix of shape
    [(len(ref), len(test))] whose entry [(i,j)] is the area of the
    intersection of reference region [i] and test region [j], whatever
    [np.empty] left in the array; when areas are non-negative, so is every
    entry.  Otherwise it raises [TypeError], at the first [&] on [None]:
    this is what happens to the annotation without shape that the XML
    driver commits at the closing tag of an enclosing [label]. *)
Theorem overlap_matrix_entries ref_data_vect test_data_vect :
  (intersectable ref_data_vect test_data_vect = true ->
   exists W,
     compute_weight_mat ref_data_vect test_data_vect = Ok W
     /\ np.well_shaped W = true
     /\ np.shape W = (length ref_data_vect, length test_data_vect)
     /\ (forall i j r t p q,
           ref_data_vect !! i = Some r -> test_data_vect !! j = Some t ->
           shape r = Some p -> shape t = Some q ->
           np.lookup W i j = Some (area (inter p q)))
     /\ ((forall p : P, f_ge (area p) f_zero = true) -> nonneg_mat W = true))
  /\ (intersectable ref_data_vect test_data_vect = false ->
      compute_weight_mat ref_data_vect test_data_vect = Raise TypeError)
  /\ (ref_data_vect = [] \/ test_data_vect = [] ->
      intersectable ref_data_vect test_data_vect = true)
  /\ (ref_data_vect <> [] -> test_data_vect <> [] ->
      (intersectable ref_data_vect test_data_vect = true
       <-> forallb has_shape ref_data_vect = true
           /\ forallb has_shape test_data_vect = true)).
Proof.
  split; [|split; [apply compute_weight_mat_raises
                  |split; [apply intersectable_empty
                          |apply intersectable_shaped]]].
  intros Hint.
  destruct (compute_weight_mat_spec ref_data_vect test_data_vect Hint)
    as (W & HW & HwW & HsW & Hcells).
  exists W. repeat split; try assumption.
  intros Harea. unfold nonneg_mat.
  apply forallb_forall. intros row Hrow. apply forallb_forall. intros w Hw.
  apply list_elem_of_In, list_elem_of_lookup in Hrow as [i Hi].
  apply list_elem_of_In, list_elem_of_lookup in Hw as [j Hj].
  assert (np.lookup W i j = Some w) as Hlw.
  { unfold np.lookup. rewrite Hi. exact Hj. }
  destruct (lookup_Some_in_range W i j w HwW Hlw) as [Hin Hjm].
  rewrite HsW in Hin, Hjm. simpl in Hin, Hjm.
  destruct (lookup_lt_is_Some_2 ref_data_vect i Hin) as [r Hr].
  destruct (lookup_lt_is_Some_2 test_data_vect j Hjm) as [t Ht].
  destruct (proj1 (intersectable_spec _ _) Hint i j r t Hr Ht)
    as (p & q & Hp & Hq).
  rewrite (Hcells i j r t p q Hr Ht Hp Hq) in Hlw. inversion Hlw.
  apply Harea.
Qed.

(** X2.  A run of [main] returns metrics exactly when the Overlap Matrix
    Builder returns, that is when every pair of a reference and a test
    annotation has two shapes: the length assertions of
    [compute_link_mat] then hold, no index is out of range and no area is
    asked of [None]; [Cr] and [Ct] are the lengths of the two lists, and
    the seven counts are those of the link matrix the Link Classifier
    returned.  Otherwise the run raises [TypeError], and no other
    exception is possible. *)
Theorem run_raises_only_without_shape ref_data_vect test_data_vect :
  (intersectable ref_data_vect test_data_vect = true ->
   exists W rmv tmv L m,
     compute_weight_mat ref_data_vect test_data_vect = Ok W
     /\ compute_ref_margin_vect W = Ok rmv
     /\ compute_test_margin_vect W = Ok tmv
     /\ compute_link_mat W rmv tmv ref_data_vect test_data_vect = Ok L
     /\ compute_statistics L = Ok m
     /\ process ref_data_vect test_data_vect = Ok m
     /\ Cr m = Z.of_nat (length ref_data_vect)
     /\ Ct m = Z.of_nat (length test_data_vect))
  /\ (intersectable ref_data_vect test_data_vect = false ->
      process ref_data_vect test_data_vect = Raise TypeError).
Proof.
  split.
  - intros Hint.
    destruct (process_stages ref_data_vect test_data_vect Hint)
      as (W & rm & tm & L & HW & Hrm & Htm & HL & Hrun & _ & _ & HwL & HsL
          & _).
    pose proof (compute_statistics_spec L _ _ HwL HsL) as Hstat.
    eexists W, rm, tm, L, _.
    split; [exact HW|]. split; [exact Hrm|]. split; [exact Htm|].
    split; [exact HL|]. split; [exact Hstat|].
    split; [rewrite Hrun; exact Hstat|].
    split; reflexivity.
  - intros Hint. unfold process.
    rewrite (compute_weight_mat_raises _ _ Hint). reflexivity.
Qed.

End RunFacts.

Section AggregatorFacts.

Local Open Scope Z_scope.
Implicit Types (L : ndarray bool).

Lemma row_degree_bounds L i :
  0 <= row_degree L i <= Z.of_nat (snd (np.shape L)).
Proof. apply count_bounds. Qed.

Lemma col_degree_bounds L j :
  0 <= col_degree L j <= Z.of_nat (fst (np.shape L)).
Proof. apply count_bounds. Qed.

(** X3.  [Co] and [Cu] are the numbers of reference rows and of test
    columns of degree greater than 1; [Cm] and [Cf] are the numbers of
    rows and columns of degree 0, although their loops stop at the first
    link. *)
Theorem component_counts_are_degree_counts L :
  np.well_shaped L = true ->
  find_num_over_segmentation_components L
  = Ok (count (fun i => row_degree L i >? 1) (fst (np.shape L)))
  /\ find_num_under_segmentation_components L
     = Ok (count (fun j => col_degree L j >? 1) (snd (np.shape L)))
  /\ find_num_missed_components L
     = Ok (count (fun i => row_degree L i =? 0) (fst (np.shape L)))
  /\ find_num_false_alarm_components L
     = Ok (count (fun j => col_degree L j =? 0) (snd (np.shape L))).
Proof.
  intros Hw. destruct (np.shape L) as [N M] eqn:Hs. simpl.
  split; [apply (find_num_over_segmentation_components_spec L N M Hw Hs)|].
  split; [apply (find_num_under_segmentation_components_spec L N M Hw Hs)|].
  split; [apply (find_num_missed_components_spec L N M Hw Hs)|].
  apply (find_num_false_alarm_components_spec L N M Hw Hs).
Qed.

Lemma excess_ge_indicator d : (if d >? 1 then 1 else 0) <= excess d.
Proof. unfold excess. rewrite Z.gtb_ltb. destruct (Z.ltb_spec 1 d); lia. Qed.

Lemma sum_excess_0 (deg : nat -> Z) n :
  count (fun k => deg k >? 1) n = 0 -> sumz (fun k => excess (deg k)) n = 0.
Proof.
  intros Hc. apply sumz_0. intros k Hk.
  unfold excess. rewrite (count_0 _ n Hc k Hk). reflexivity.
Qed.

(** X4.  The counts are consistent: none is negative, [Tc], [Co], [Cm]
    are at most [N] and [Tc], [Cu], [Cf] at most [M], each
    over-segmented reference region adds at least 1 to [To]
    ([Co <= To], and [To = 0] exactly when [Co = 0]), and the same for
    [Cu] and [Tu]. *)
Theorem metrics_are_consistent L :
  np.well_shaped L = true ->
  exists m,
    compute_statistics L = Ok m
    /\ 0 <= Tc m /\ 0 <= Co m <= To m /\ 0 <= Cu m <= Tu m
    /\ 0 <= Cm m /\ 0 <= Cf m
    /\ Tc m <= Z.min (Cr m) (Ct m)
    /\ Co m <= Cr m /\ Cm m <= Cr m /\ Cu m <= Ct m /\ Cf m <= Ct m
    /\ (To m = 0 <-> Co m = 0) /\ (Tu m = 0 <-> Cu m = 0).
Proof.
  intros Hw. destruct (np.shape L) as [N M] eqn:Hs.
  eexists. split; [apply (compute_statistics_spec L N M Hw Hs)|]. simpl.
  pose proof (count_bounds (strict_match L) N) as Htc.
  pose proof (count_bounds (fun i => row_degree L i >? 1) N) as Hco.
  pose proof (count_bounds (fun j => col_degree L j >? 1) M) as Hcu.
  pose proof (count_bounds (fun i => row_degree L i =? 0) N) as Hcm.
  pose proof (count_bounds (fun j => col_degree L j =? 0) M) as Hcf.
  pose proof (rows_bound L N) as Hrows.
  pose proof (columns_bound L N M Hs) as Hcols.
  assert (count (fun i => row_degree L i >? 1) N
          <= sumz (fun i => excess (row_degree L i)) N) as Hto.
  { apply sumz_le. intros i _. apply excess_ge_indicator. }
  assert (count (fun j => col_degree L j >? 1) M
          <= sumz (fun j => excess (col_degree L j)) M) as Htu.
  { apply sumz_le. intros j _. apply excess_ge_indicator. }
  pose proof (sum_excess_0 (row_degree L) N) as Hto0.
  pose proof (sum_excess_0 (col_degree L) M) as Htu0.
  repeat split; try lia.
Qed.

Lemma degree_is_excess_plus_linked d :
  0 <= d -> d = excess d + (1 - (if d =? 0 then 1 else 0)).
Proof.
  intros Hd. unfold excess. rewrite Z.gtb_ltb.
  destruct (Z.ltb_spec 1 d), (Z.eqb_spec d 0); lia.
Qed.

Lemma sum_degrees (deg : nat -> Z) n :
  (forall k, 0 <= deg k) ->
  sumz deg n
  = sumz (fun k => excess (deg k)) n
    + (Z.of_nat n - count (fun k => deg k =? 0) n).
Proof.
  intros Hdeg. unfold count.
  rewrite <- (Z.mul_1_r (Z.of_nat n)), <- sumz_const, <- sumz_sub, <- sumz_add.
  apply sumz_ext. intros k _. apply degree_is_excess_plus_linked, Hdeg.
Qed.

Lemma links_counted_twice L N M :
  np.shape L = (N, M) ->
  sumz (row_degree L) N = sumz (col_degree L) M.
Proof.
  intros Hs.
  rewrite (sumz_ext (row_degree L)
             (fun i => sumz (fun j => if cell L i j then 1 else 0) M) N).
  2:{ intros i _. rewrite (row_degree_count L N M Hs). reflexivity. }
  rewrite sumz_swap. apply sumz_ext. intros j _.
  rewrite (col_degree_count L N M Hs). reflexivity.
Qed.

(** X5.  The links are counted once from each side: [To + (Cr - Cm)] is
    the number of links of the matrix, and so is [Tu + (Ct - Cf)].  Hence
    [To + Cr - Cm = Tu + Ct - Cf] for every result of the aggregator. *)
Theorem links_balance L :
  np.well_shaped L = true ->
  exists m,
    compute_statistics L = Ok m
    /\ To m + (Cr m - Cm m) = sumz (row_degree L) (fst (np.shape L))
    /\ Tu m + (Ct m - Cf m) = sumz (col_degree L) (snd (np.shape L))
    /\ To m + Cr m - Cm m = Tu m + Ct m - Cf m.
Proof.
  intros Hw. destruct (np.shape L) as [N M] eqn:Hs.
  eexists. split; [apply (compute_statistics_spec L N M Hw Hs)|]. simpl.
  pose proof (sum_degrees (row_degree L) N
                (fun i => proj1 (row_degree_bounds L i))) as Hr.
  pose proof (sum_degrees (col_degree L) M
                (fun j => proj1 (col_degree_bounds L j))) as Hc.
  pose proof (links_counted_twice L N M Hs) as Htwice.
  repeat split; lia.
Qed.

End AggregatorFacts.

(** ** Exchanging the roles of the two lists *)

Section Transposition.

Local Open Scope Z_scope.

Variables (L : ndarray bool) (N M : nat).
Hypothesis dims : np.shape L = (N, M).

Lemma transpose_shape : np.shape (transpose L) = (M, N).
Proof. unfold transpose. rewrite dims. reflexivity. Qed.

Lemma transpose_well_shaped : np.well_shaped (transpose L) = true.
Proof.
  apply well_shaped_intro; rewrite transpose_shape; unfold transpose;
    rewrite dims; simpl.
  - rewrite length_fmap, length_seq. reflexivity.
  - intros j r Hr. rewrite list_lookup_fmap in Hr.
    destruct (seq 0 M !! j); simpl in Hr; [|discriminate].
    inversion Hr. rewrite length_fmap, length_seq. reflexivity.
Qed.

Lemma cell_transpose i j :
  (i < N)%nat -> (j < M)%nat -> cell (transpose L) j i = cell L i j.
Proof.
  intros Hi Hj. unfold cell at 1, np.lookup, transpose. rewrite dims. simpl.
  rewrite list_lookup_fmap, lookup_seq_lt by exact Hj. simpl.
  rewrite list_lookup_fmap, lookup_seq_lt by exact Hi. reflexivity.
Qed.

Lemma row_degree_transpose j :
  (j < M)%nat -> row_degree (transpose L) j = col_degree L j.
Proof.
  intros Hj. rewrite (row_degree_count _ M N transpose_shape).
  rewrite (col_degree_count L N M dims).
  apply count_ext. intros i Hi. apply cell_transpose; assumption.
Qed.

Lemma col_degree_transpose i :
  (i < N)%nat -> col_degree (transpose L) i = row_degree L i.
Proof.
  intros Hi. rewrite (col_degree_count _ M N transpose_shape).
  rewrite (row_degree_count L N M dims).
  apply count_ext. intros j Hj. apply cell_transpose; assumption.
Qed.

End Transposition.

Section MutualMatches.

Local Open Scope Z_scope.

Lemma sumz_single f n k :
  (k < n)%nat -> (forall k', (k' < n)%nat -> k' <> k -> f k' = 0) ->
  sumz f n = f k.
Proof.
  induction n as [|n IH]; intros Hk Hzero; [lia|]. simpl.
  destruct (decide (k = n)) as [->|Hne].
  - rewrite sumz_0; [lia|]. intros k' Hk'. apply Hzero; lia.
  - rewrite IH by (try lia; intros; apply Hzero; lia).
    rewrite (Hzero n) by lia. lia.
Qed.

(** A row is a one-to-one match exactly when it carries one such link. *)
Lemma strict_match_sum L N M i :
  np.shape L = (N, M) ->
  sumz (mutual L i) M = if strict_match L i then 1 else 0.
Proof.
  intros Hs. rewrite (strict_match_reciprocal L N M Hs). unfold reciprocal.
  rewrite Hs. simpl. unfold mutual.
  destruct (row_degree L i =? 1) eqn:Hd; simpl.
  - apply Z.eqb_eq in Hd. rewrite (row_degree_count L N M Hs) in Hd.
    destruct (last_match_found (cell L i) M) as [Hlt Hc]; [lia|].
    rewrite (sumz_single _ M (last_match (cell L i) M) Hlt).
    + rewrite Hc. reflexivity.
    + intros j Hj Hne. destruct (cell L i j) eqn:Hcj; [|reflexivity].
      exfalso. apply Hne.
      apply (last_match_unique (cell L i) M j Hd Hj Hcj).
  - apply sumz_0. intros j _. rewrite andb_false_r. reflexivity.
Qed.

(** As many rows are matched one-to-one as columns. *)
Lemma strict_match_transpose L N M :
  np.shape L = (N, M) ->
  count (strict_match (transpose L)) M = count (strict_match L) N.
Proof.
  intros Hs. unfold count.
  rewrite (sumz_ext _ (fun j => sumz (mutual (transpose L) j) N) M).
  2:{ intros j _. symmetry.
      apply (strict_match_sum _ M N j (transpose_shape L N M Hs)). }
  rewrite (sumz_ext (fun i => if strict_match L i then 1 else 0)
             (fun i => sumz (mutual L i) M) N).
  2:{ intros i _. symmetry. apply (strict_match_sum L N M i Hs). }
  rewrite sumz_swap. apply sumz_ext. intros i Hi.
  apply sumz_ext. intros j Hj. unfold mutual.
  rewrite (cell_transpose L N M Hs i j Hi Hj).
  rewrite (row_degree_transpose L N M Hs j Hj).
  rewrite (col_degree_transpose L N M Hs i Hi).
  destruct (cell L i j), (row_degree L i =? 1), (col_degree L j =? 1);
    reflexivity.
Qed.

(** X6.  Exchanging the roles of reference and test exchanges [To] with
    [Tu], [Co] with [Cu], [Cm] with [Cf] and [Cr] with [Ct], and leaves
    [Tc] unchanged: the row-first scan of
    [find_total_correct_segmentation] counts mutual matches. *)
Theorem statistics_of_transpose L :
  np.well_shaped L = true ->
  exists m,
    compute_statistics L = Ok m
    /\ compute_statistics (transpose L) = Ok (mirror m).
Proof.
  intros Hw. destruct (np.shape L) as [N M] eqn:Hs.
  eexists. split; [apply (compute_statistics_spec L N M Hw Hs)|].
  rewrite (compute_statistics_spec (transpose L) M N
             (transpose_well_shaped L N M Hs) (transpose_shape L N M Hs)).
  unfold mirror. simpl. f_equal. f_equal.
  - apply (strict_match_transpose L N M Hs).
  - apply sumz_ext. intros j Hj.
    rewrite (row_degree_transpose L N M Hs j Hj). reflexivity.
  - apply sumz_ext. intros i Hi.
    rewrite (col_degree_transpose L N M Hs i Hi). reflexivity.
  - apply count_ext. intros j Hj.
    rewrite (row_degree_transpose L N M Hs j Hj). reflexivity.
  - apply count_ext. intros i Hi.
    rewrite (col_degree_transpose L N M Hs i Hi). reflexivity.
  - apply count_ext. intros j Hj.
    rewrite (row_degree_transpose L N M Hs j Hj). reflexivity.
  - apply count_ext. intros i Hi.
    rewrite (col_degree_transpose L N M Hs i Hi). reflexivity.
Qed.

End MutualMatches.

(** ** Regions without overlap *)

Section LonelyRegions.

Local Open Scope Z_scope.

Lemma count_filter {A} (p : A -> bool) (l : list A) :
  count (fun i => from_option p false (l !! i)) (length l)
  = Z.of_nat (length (List.filter p l)).
Proof.
  induction l as [|x l IH] using rev_ind; [reflexivity|].
  rewrite length_app, Nat.add_1_r, count_S.
  rewrite list_lookup_middle by reflexivity. simpl.
  rewrite (count_ext _ (fun i => from_option p false (l !! i))).
  2:{ intros k Hk. rewrite lookup_app_l by exact Hk. reflexivity. }
  rewrite IH, List.filter_app, length_app. simpl.
  destruct (p x); simpl; lia.
Qed.

Context {F P : Type} `{Float F} `{Geometry F P}.
Implicit Types (ref_data_vect test_data_vect : list (SegmentationAnnotation P)).

Lemma link_rule_no_overlap (w rm ra tm ta : F) :
  f_gt w f_zero = false -> link_rule w rm ra tm ta = false.
Proof. intros Hw. unfold link_rule. rewrite Hw. reflexivity. Qed.

Lemma lonely_ref_spec test_data_vect r j t :
  lonely_ref test_data_vect r = true -> test_data_vect !! j = Some t ->
  overlaps r t = false.
Proof.
  unfold lonely_ref. rewrite forallb_forall. intros Hall Ht.
  apply negb_true_iff, Hall, list_elem_of_In, list_elem_of_lookup.
  exists j. exact Ht.
Qed.

Lemma lonely_test_spec ref_data_vect t i r :
  lonely_test ref_data_vect t = true -> ref_data_vect !! i = Some r ->
  overlaps r t = false.
Proof.
  unfold lonely_test. rewrite forallb_forall. intros Hall Hr.
  apply negb_true_iff, Hall, list_elem_of_In, list_elem_of_lookup.
  exists i. exact Hr.
Qed.

(** X7.  In every run on annotations that can be intersected, a
    reference region that overlaps no test region on a positive area is
    counted in [Cm], and a test region that overlaps no reference region
    is counted in [Cf].  When no region overlaps any region of the other
    list, the run reports [Cm = Cr], [Cf = Ct] and nothing else. *)
Theorem lonely_regions_are_errors ref_data_vect test_data_vect :
  intersectable ref_data_vect test_data_vect = true ->
  exists m,
    process ref_data_vect test_data_vect = Ok m
    /\ Z.of_nat (length (List.filter (lonely_ref test_data_vect) ref_data_vect))
       <= Cm m
    /\ Z.of_nat (length (List.filter (lonely_test ref_data_vect) test_data_vect))
       <= Cf m
    /\ (forallb (lonely_ref test_data_vect) ref_data_vect = true ->
        m = {| Tc := 0; To := 0; Tu := 0; Co := 0; Cu := 0;
               Cm := Z.of_nat (length ref_data_vect);
               Cf := Z.of_nat (length test_data_vect);
               Cr := Z.of_nat (length ref_data_vect);
               Ct := Z.of_nat (length test_data_vect) |}).
Proof.
  intros Hint.
  destruct (process_stages ref_data_vect test_data_vect Hint)
    as (W & rm & tm & L & _ & _ & _ & _ & Hrun & _ & _ & HwL & HsL & _ & Hrule).
  set (N := length ref_data_vect) in *. set (M := length test_data_vect) in *.
  assert (forall i j r t,
            ref_data_vect !! i = Some r -> test_data_vect !! j = Some t ->
            overlaps r t = false -> cell L i j = false) as Hcell.
  { intros i j r t Hr Ht Hno. unfold cell.
    destruct (proj1 (intersectable_spec _ _) Hint i j r t Hr Ht)
      as (p & q & Hp & Hq).
    rewrite (Hrule i j r t p q Hr Ht Hp Hq). simpl.
    apply link_rule_no_overlap. unfold overlaps in Hno.
    rewrite Hp, Hq in Hno. exact Hno. }
  assert (forall i r, ref_data_vect !! i = Some r ->
            lonely_ref test_data_vect r = true -> row_degree L i = 0) as Hrow.
  { intros i r Hr Hl. rewrite (row_degree_count L N M HsL).
    apply count_0_all. intros j Hj.
    destruct (lookup_lt_is_Some_2 test_data_vect j Hj) as [t Ht].
    apply (Hcell i j r t Hr Ht), (lonely_ref_spec _ _ j t Hl Ht). }
  assert (forall j t, test_data_vect !! j = Some t ->
            lonely_test ref_data_vect t = true -> col_degree L j = 0) as Hcol.
  { intros j t Ht Hl. rewrite (col_degree_count L N M HsL).
    apply count_0_all. intros i Hi.
    destruct (lookup_lt_is_Some_2 ref_data_vect i Hi) as [r Hr].
    apply (Hcell i j r t Hr Ht), (lonely_test_spec _ _ i r Hl Hr). }
  eexists. split; [rewrite Hrun; apply (compute_statistics_spec L N M HwL HsL)|].
  simpl. split; [|split].
  - rewrite <- count_filter. apply sumz_le. intros i Hi.
    destruct (ref_data_vect !! i) as [r|] eqn:Hr; simpl;
      [|destruct (row_degree L i =? 0); lia].
    destruct (lonely_ref test_data_vect r) eqn:Hl;
      [|destruct (row_degree L i =? 0); lia].
    rewrite (Hrow i r Hr Hl). reflexivity.
  - rewrite <- count_filter. apply sumz_le. intros j Hj.
    destruct (test_data_vect !! j) as [t|] eqn:Ht; simpl;
      [|destruct (col_degree L j =? 0); lia].
    destruct (lonely_test ref_data_vect t) eqn:Hl;
      [|destruct (col_degree L j =? 0); lia].
    rewrite (Hcol j t Ht Hl). reflexivity.
  - intros Hall. rewrite forallb_forall in Hall.
    assert (forall i j, cell L i j = false) as Hnone.
    { intros i j. unfold cell.
      destruct (np.lookup L i j) as [b|] eqn:Hb; [|reflexivity].
      destruct (lookup_Some_in_range L i j b HwL Hb) as [Hi Hj].
      rewrite HsL in Hi, Hj. simpl in Hi, Hj.
      destruct (lookup_lt_is_Some_2 ref_data_vect i Hi) as [r Hr].
      destruct (lookup_lt_is_Some_2 test_data_vect j Hj) as [t Ht].
      assert (cell L i j = false) as Hc.
      2:{ unfold cell in Hc. rewrite Hb in Hc. exact Hc. }
      apply (Hcell i j r t Hr Ht).
      apply (lonely_ref_spec test_data_vect r j t); [|exact Ht].
      apply Hall, list_elem_of_In, list_elem_of_lookup. exists i. exact Hr. }
    assert (forall i, row_degree L i = 0) as Hr0.
    { intros i. rewrite (row_degree_count L N M HsL).
      apply count_0_all. intros j _. apply Hnone. }
    assert (forall j, col_degree L j = 0) as Hc0.
    { intros j. rewrite (col_degree_count L N M HsL).
      apply count_0_all. intros i _. apply Hnone. }
    f_equal.
    + apply count_0_all. intros i _. unfold strict_match. rewrite Hr0.
      reflexivity.
    + apply sumz_0. intros i _. rewrite Hr0. reflexivity.
    + apply sumz_0. intros j _. rewrite Hc0. reflexivity.
    + apply count_0_all. intros i _. rewrite Hr0. reflexivity.
    + apply count_0_all. intros j _. rewrite Hc0. reflexivity.
    + apply count_all. intros i _. rewrite Hr0. reflexivity.
    + apply count_all. intros j _. rewrite Hc0. reflexivity.
Qed.

End LonelyRegions.

(** ** A perfect segmentation *)

Section IdentityLinks.

Local Open Scope Z_scope.

Lemma count_single p n k :
  (k < n)%nat -> p k = true ->
  (forall k', (k' < n)%nat -> k' <> k -> p k' = false) ->
  count p n = 1.
Proof.
  intros Hk Hp Hothers. unfold count.
  rewrite (sumz_single _ n k Hk).
  - rewrite Hp. reflexivity.
  - intros k' Hk' Hne. rewrite (Hothers k' Hk' Hne). reflexivity.
Qed.

(** The metrics of a square link matrix that links [i] to [i] only. *)
Lemma statistics_of_identity (L : ndarray bool) n :
  np.well_shaped L = true -> np.shape L = (n, n) ->
  (forall i, (i < n)%nat -> cell L i i = true) ->
  (forall i j, (i < n)%nat -> (j < n)%nat -> i <> j -> cell L i j = false) ->
  compute_statistics L
  = Ok {| Tc := Z.of_nat n; To := 0; Tu := 0; Co := 0; Cu := 0; Cm := 0;
          Cf := 0; Cr := Z.of_nat n; Ct := Z.of_nat n |}.
Proof.
  intros Hw Hs Hdiag Hoff.
  assert (forall i, (i < n)%nat -> row_degree L i = 1) as Hrow.
  { intros i Hi. rewrite (row_degree_count L n n Hs).
    apply (count_single (cell L i) n i Hi (Hdiag i Hi)).
    intros j Hj Hne. apply Hoff; [exact Hi | exact Hj | congruence]. }
  assert (forall j, (j < n)%nat -> col_degree L j = 1) as Hcol.
  { intros j Hj. rewrite (col_degree_count L n n Hs).
    apply (count_single (fun i => cell L i j) n j Hj (Hdiag j Hj)).
    intros i Hi Hne. apply Hoff; [exact Hi | exact Hj | exact Hne]. }
  rewrite (compute_statistics_spec L n n Hw Hs). f_equal. f_equal.
  - apply count_all. intros i Hi. apply (strict_match_iff L n n Hs).
    split; [apply Hrow, Hi|]. exists i.
    repeat split; [exact Hi | apply Hdiag, Hi | apply Hcol, Hi].
  - apply sumz_0. intros i Hi. rewrite (Hrow i Hi). reflexivity.
  - apply sumz_0. intros j Hj. rewrite (Hcol j Hj). reflexivity.
  - apply count_0_all. intros i Hi. rewrite (Hrow i Hi). reflexivity.
  - apply count_0_all. intros j Hj. rewrite (Hcol j Hj). reflexivity.
  - apply count_0_all. intros i Hi. rewrite (Hrow i Hi). reflexivity.
  - apply count_0_all. intros j Hj. rewrite (Hcol j Hj). reflexivity.
Qed.

End IdentityLinks.

Section ExactArithmetic.

Local Open Scope Q_scope.

Lemma Q_f_sum_single (f : nat -> Q) n k :
  (k < n)%nat -> (forall k', (k' < n)%nat -> k' <> k -> f k' == 0) ->
  f_sum f n == f k.
Proof.
  induction n as [|n IH]; intros Hk Hzero; [lia|]. simpl.
  destruct (decide (k = n)) as [->|Hne].
  - assert (f_sum f n == 0) as ->; [|apply Qplus_0_l].
    clear IH Hk. induction n as [|m IHm]; [reflexivity|]. simpl.
    rewrite IHm by (intros; apply Hzero; lia).
    rewrite (Hzero m) by lia. reflexivity.
  - rewrite IH by (try lia; intros; apply Hzero; lia).
    rewrite (Hzero n) by lia. apply Qplus_0_r.
Qed.

Lemma inject_Z_nonzero (a : Z) : (0 < a)%Z -> ~ inject_Z a == 0.
Proof. intros Ha. unfold Qeq. simpl. lia. Qed.

(** A region that is the only one to overlap itself is linked to itself. *)
Lemma link_rule_self (a : Z) (margin_r margin_t : Q) :
  (0 < a)%Z -> margin_r == inject_Z a ->
  link_rule (inject_Z a) margin_r (inject_Z a) margin_t (inject_Z a) = true.
Proof.
  intros Ha Hm. unfold link_rule. rewrite inject_Z_gt.
  rewrite (proj2 (Z.ltb_lt 0 a) Ha). simpl.
  assert (inject_Z a / margin_r == 1) as Hratio.
  { rewrite Hm. apply Qmult_inv_r, inject_Z_nonzero, Ha. }
  assert (inject_Z a / inject_Z a == 1) as Hself.
  { apply Qmult_inv_r, inject_Z_nonzero, Ha. }
  assert (Qle_bool (1 # 5) (inject_Z a / margin_r) = true) as ->.
  { apply Qle_bool_iff. rewrite Hratio. discriminate. }
  apply negb_true_iff. destruct (Qle_bool _ _) eqn:Hle; [|reflexivity].
  apply Qle_bool_iff in Hle. rewrite Hself in Hle. exfalso.
  apply (Qle_not_lt _ _ Hle). reflexivity.
Qed.

End ExactArithmetic.

Lemma box_inter_self (b : box) : box_inter b b = b.
Proof.
  destruct b as [x0 y0 x1 y1]. unfold box_inter. simpl.
  rewrite !Z.max_id, !Z.min_id. reflexivity.
Qed.

(** X8.  In exact arithmetic, evaluating a list of annotations whose
    shapes are boxes of positive area that overlap each other on no area
    against itself gives the perfect result: every region is a one-to-one
    match ([Tc = Cr = Ct]) and the six error counts are 0. *)
Theorem perfect_segmentation (annots : list (SegmentationAnnotation box))
        (boxes : list box) :
  shape <$> annots = Some <$> boxes ->
  (forall i b, boxes !! i = Some b -> (0 < box_area b)%Z) ->
  pairwise_disjoint boxes ->
  process (F := Q) annots annots
  = Ok {| Tc := Z.of_nat (length annots); To := 0; Tu := 0; Co := 0;
          Cu := 0; Cm := 0; Cf := 0;
          Cr := Z.of_nat (length annots);
          Ct := Z.of_nat (length annots) |}.
Proof.
  intros Hshapes Hpos Hdisj.
  assert (forall i a, annots !! i = Some a ->
            exists b, shape a = Some b /\ boxes !! i = Some b) as Hbox.
  { intros i a Ha.
    assert ((shape <$> annots) !! i = Some (shape a)) as Hl
      by (rewrite list_lookup_fmap, Ha; reflexivity).
    rewrite Hshapes, list_lookup_fmap in Hl.
    destruct (boxes !! i) as [b|]; [|discriminate Hl].
    exists b. split; [|reflexivity]. simpl in Hl. congruence. }
  assert (intersectable annots annots = true) as Hint.
  { apply intersectable_spec. intros i j r t Hr Ht.
    destruct (Hbox i r Hr) as (p & Hp & _), (Hbox j t Ht) as (q & Hq & _).
    eauto. }
  destruct (process_stages (F := Q) annots annots Hint)
    as (W & rm & tm & L & _ & _ & _ & _ & Hrun & HwW & HsW & HwL & HsL
        & Hentries & Hrule).
  rewrite Hrun.
  assert (forall i j a b p q,
            annots !! i = Some a -> annots !! j = Some b ->
            shape a = Some p -> shape b = Some q ->
            i <> j -> entry W i j = 0%Q) as Hoff.
  { intros i j a b p q Ha Hb Hp Hq Hne. unfold entry.
    rewrite (Hentries i j a b p q Ha Hb Hp Hq). simpl.
    destruct (Hbox i a Ha) as (p' & Hp' & Hbp).
    destruct (Hbox j b Hb) as (q' & Hq' & Hbq).
    assert (p' = p) as -> by congruence. assert (q' = q) as -> by congruence.
    rewrite (Hdisj i j p q Hbp Hbq Hne). reflexivity. }
  apply statistics_of_identity; [exact HwL | exact HsL | |].
  - intros i Hi. destruct (lookup_lt_is_Some_2 annots i Hi) as [a Ha].
    destruct (Hbox i a Ha) as (p & Hp & Hbp).
    unfold cell. rewrite (Hrule i i a a p p Ha Ha Hp Hp). simpl.
    rewrite box_inter_self. apply link_rule_self; [apply (Hpos i p Hbp)|].
    unfold row. rewrite sum_exact, HsW. simpl.
    rewrite (Q_f_sum_single _ _ i Hi).
    + unfold entry. rewrite (Hentries i i a a p p Ha Ha Hp Hp). simpl.
      rewrite box_inter_self. reflexivity.
    + intros j Hj Hne. destruct (lookup_lt_is_Some_2 annots j Hj) as [b Hb].
      destruct (Hbox j b Hb) as (q & Hq & _).
      rewrite (Hoff i j a b p q Ha Hb Hp Hq) by congruence. reflexivity.
  - intros i j Hi Hj Hne.
    destruct (lookup_lt_is_Some_2 annots i Hi) as [a Ha].
    destruct (lookup_lt_is_Some_2 annots j Hj) as [b Hb].
    destruct (Hbox i a Ha) as (p & Hp & Hbp).
    destruct (Hbox j b Hb) as (q & Hq & Hbq).
    unfold cell. rewrite (Hrule i j a b p q Ha Hb Hp Hq). simpl.
    apply link_rule_no_overlap. simpl.
    rewrite (Hdisj i j p q Hbp Hbq Hne). reflexivity.
Qed.

(** * The LIF labels ([plugin_numis/lifInputDriver.py]) and the file names
      of [segmenter.py] *)

Section Strings.

Lemma str_getitem_lt (s : string) (i : nat) :
  i < String.length s -> exists c, str_getitem s i = Returned c.
Proof.
  revert i. induction s as [|a s IH]; intros i Hi; simpl in Hi; [lia|].
  destruct i as [|i].
  - eexists. reflexivity.
  - destruct (IH i) as [c Hc]; [lia|]. exists c.
    unfold str_getitem in *. simpl. exact Hc.
Qed.

Lemma str_split_1 (s c0 : string) :
  str_getitem s 0 = Returned c0 -> s = c0 +:+ str_from 1 s.
Proof.
  destruct s as [|a s]; [discriminate|]. unfold str_getitem. simpl.
  intros Hc. inversion Hc. reflexivity.
Qed.

Lemma str_split_2 (s c0 c1 : string) :
  str_getitem s 0 = Returned c0 -> str_getitem s 1 = Returned c1 ->
  s = c0 +:+ c1 +:+ str_from 2 s.
Proof.
  destruct s as [|a [|b s]]; try discriminate. unfold str_getitem. simpl.
  intros H0 H1. inversion H0. inversion H1. reflexivity.
Qed.

Lemma str_from_nonempty (k : nat) (s : string) :
  k < String.length s -> str_from k s <> "".
Proof.
  revert s. induction k as [|k IH]; intros [|a s] Hk; simpl in *;
    try lia; [discriminate | apply IH; lia].
Qed.

Lemma dict_getitem_in (d : dict) (key : string) :
  not_in key d = false -> exists v, d !! key = Some v
                                    /\ dict_getitem d key = Returned v.
Proof.
  unfold not_in, dict_getitem. intros Hin.
  apply bool_decide_eq_false in Hin.
  destruct (d !! key) as [v|]; [|congruence]. exists v. split; reflexivity.
Qed.

End Strings.

Section Labels.

Import lifInputDriver.

Lemma typemapping_lookup (k v : string) :
  typemapping !! k = Some v ->
  (k = "c" /\ v = "coin") \/ (k = "l" /\ v = "label")
  \/ (k = "t" /\ v = "text") \/ (k = "n" /\ v = "noise").
Proof.
  unfold typemapping. intros Hl.
  repeat (rewrite lookup_insert in Hl; case_decide;
          [inversion Hl; subst; tauto|]).
  rewrite lookup_singleton in Hl. case_decide; [|discriminate].
  inversion Hl. subst. tauto.
Qed.

Lemma coinsidemapping_lookup (k v : string) :
  coinsidemapping !! k = Some v ->
  (k = "a" /\ v = "avers") \/ (k = "r" /\ v = "revers")
  \/ (k = "i" /\ v = "isolated").
Proof.
  unfold coinsidemapping. intros Hl.
  repeat (rewrite lookup_insert in Hl; case_decide;
          [inversion Hl; subst; tauto|]).
  rewrite lookup_singleton in Hl. case_decide; [|discriminate].
  inversion Hl. subst. tauto.
Qed.

(** What [parseLabel] returns, read off its branches. *)
Lemma parseLabel_Returned (label atype : string) (attributes : dict) :
  parseLabel label = Returned (atype, attributes) ->
  (exists c1 side,
     atype = "coin" /\ label = "c" +:+ c1 +:+ str_from 2 label
     /\ coinsidemapping !! c1 = Some side /\ str_from 2 label <> ""
     /\ attributes = <["id" := str_from 2 label]> (<["side" := side]> ∅))
  \/ (exists c0,
        (c0 = "l" /\ atype = "label" \/ c0 = "t" /\ atype = "text")
        /\ label = c0 +:+ str_from 1 label /\ str_from 1 label <> ""
        /\ attributes = <["id" := str_from 1 label]> ∅)
  \/ (atype = "noise" /\ label = "n" +:+ str_from 1 label /\ attributes = ∅).
Proof.
  unfold parseLabel.
  assert (forall k, exists s, s = str_from k label) as Hfrom by (eexists; reflexivity).
  destruct (Hfrom 1) as [id1 Hid1]. destruct (Hfrom 2) as [id2 Hid2].
  rewrite <- Hid1, <- Hid2. clear Hfrom.
  case_decide as Hlen; [discriminate|].
  destruct (str_getitem label 0) as [c0|e] eqn:Hc0; simpl; [|discriminate].
  destruct (not_in c0 typemapping) eqn:Hin; [discriminate|].
  destruct (dict_getitem_in _ _ Hin) as (ty & Hty & ->). simpl.
  apply typemapping_lookup in Hty
    as [[-> ->] | [[-> ->] | [[-> ->] | [-> ->]]]].
  - rewrite decide_True by reflexivity.
    case_decide as Hlen3; [discriminate|].
    destruct (str_getitem label 1) as [c1|e] eqn:Hc1; simpl; [|discriminate].
    destruct (not_in c1 coinsidemapping) eqn:Hin1; [discriminate|].
    destruct (dict_getitem_in _ _ Hin1) as (side & Hside & ->). simpl.
    intros Hret. inversion Hret. subst. left. exists c1, side.
    repeat split; [apply (str_split_2 label "c" c1 Hc0 Hc1) | exact Hside |].
    apply str_from_nonempty. lia.
  - rewrite decide_False by discriminate. rewrite decide_True by reflexivity.
    case_decide as Hlen2; [discriminate|]. simpl.
    intros Hret. inversion Hret. subst. right. left. exists "l".
    repeat split; [left; split; reflexivity | apply (str_split_1 label "l" Hc0) |].
    apply str_from_nonempty. lia.
  - rewrite !decide_False by discriminate. rewrite decide_True by reflexivity.
    case_decide as Hlen2; [discriminate|]. simpl.
    intros Hret. inversion Hret. subst. right. left. exists "t".
    repeat split; [right; split; reflexivity | apply (str_split_1 label "t" Hc0) |].
    apply str_from_nonempty. lia.
  - rewrite !decide_False by discriminate. rewrite decide_True by reflexivity.
    simpl. intros Hret. inversion Hret. subst. right. right.
    repeat split. apply (str_split_1 label "n" Hc0).
Qed.

Lemma dict_getitem_Some (d : dict) (key v : string) :
  d !! key = Some v ->
  not_in key d = false /\ dict_getitem d key = Returned v.
Proof.
  intros Hl. unfold not_in, dict_getitem. rewrite Hl. split; [|reflexivity].
  apply bool_decide_eq_false. discriminate.
Qed.

Lemma str_length_app (s1 s2 : string) :
  String.length (s1 +:+ s2) = String.length s1 + String.length s2.
Proof.
  induction s1 as [|a s1 IH]; [reflexivity|].
  change (String a s1 +:+ s2) with (String a (s1 +:+ s2)).
  simpl. rewrite IH. reflexivity.
Qed.

Lemma nonempty_length (s : string) : s <> "" -> 1 <= String.length s.
Proof. destruct s; [congruence | simpl; lia]. Qed.

(** [parseLabel] on the labels of the three kinds. *)
Lemma parseLabel_coin (c1 side id : string) :
  coinsidemapping !! c1 = Some side -> id <> "" ->
  parseLabel ("c" +:+ c1 +:+ id)
  = Returned ("coin", <["id" := id]> (<["side" := side]> ∅)).
Proof.
  intros Hside Hid. pose proof (nonempty_length id Hid) as Hlen.
  assert (exists a, c1 = String a "") as [a ->].
  { apply coinsidemapping_lookup in Hside
      as [[-> _] | [[-> _] | [-> _]]]; eexists; reflexivity. }
  destruct (dict_getitem_Some _ _ _ Hside) as [Hin Hget].
  unfold parseLabel.
  rewrite decide_False by (rewrite !str_length_app; simpl; lia).
  change (str_getitem ("c" +:+ String a "" +:+ id) 0) with (Returned "c").
  change (Returned "c" ≫= ?k) with (k "c"). cbv beta.
  change (not_in "c" typemapping) with false.
  change (dict_getitem typemapping "c") with (Returned "coin").
  change (Returned "coin" ≫= ?k) with (k "coin"). cbv beta.
  rewrite decide_True by reflexivity.
  rewrite decide_False by (rewrite !str_length_app; simpl; lia).
  change (str_getitem ("c" +:+ String a "" +:+ id) 1)
    with (Returned (String a "")).
  change (Returned (String a "") ≫= ?k) with (k (String a "")). cbv beta.
  rewrite Hin, Hget. reflexivity.
Qed.

Lemma parseLabel_with_id (c0 atype id : string) :
  (c0 = "l" /\ atype = "label") \/ (c0 = "t" /\ atype = "text") ->
  id <> "" ->
  parseLabel (c0 +:+ id) = Returned (atype, <["id" := id]> ∅).
Proof.
  intros Hkind Hid. pose proof (nonempty_length id Hid) as Hlen.
  unfold parseLabel.
  destruct Hkind as [[-> ->] | [-> ->]].
  - rewrite decide_False by (rewrite !str_length_app; simpl; lia).
    change (str_getitem ("l" +:+ id) 0) with (Returned "l").
    change (Returned "l" ≫= ?k) with (k "l"). cbv beta.
    change (not_in "l" typemapping) with false.
    change (dict_getitem typemapping "l") with (Returned "label").
    change (Returned "label" ≫= ?k) with (k "label"). cbv beta.
    rewrite decide_False by discriminate. rewrite decide_True by reflexivity.
    rewrite decide_False by (rewrite !str_length_app; simpl; lia). reflexivity.
  - rewrite decide_False by (rewrite !str_length_app; simpl; lia).
    change (str_getitem ("t" +:+ id) 0) with (Returned "t").
    change (Returned "t" ≫= ?k) with (k "t"). cbv beta.
    change (not_in "t" typemapping) with false.
    change (dict_getitem typemapping "t") with (Returned "text").
    change (Returned "text" ≫= ?k) with (k "text"). cbv beta.
    rewrite !decide_False by discriminate. rewrite decide_True by reflexivity.
    rewrite decide_False by (rewrite !str_length_app; simpl; lia). reflexivity.
Qed.

Lemma parseLabel_noise (rest : string) :
  parseLabel ("n" +:+ rest) = Returned ("noise", ∅).
Proof.
  unfold parseLabel. rewrite decide_False by (rewrite !str_length_app; simpl; lia).
  change (str_getitem ("n" +:+ rest) 0) with (Returned "n").
  change (Returned "n" ≫= ?k) with (k "n"). cbv beta.
  change (not_in "n" typemapping) with false.
  change (dict_getitem typemapping "n") with (Returned "noise").
  change (Returned "noise" ≫= ?k) with (k "noise"). cbv beta.
  rewrite !decide_False by discriminate. rewrite decide_True by reflexivity.
  reflexivity.
Qed.

End Labels.

(** One step of a computation that returned. *)
Ltac bind_step :=
  cbv beta match;
  lazymatch goal with
  | |- context [Returned ?x ≫= ?k] =>
      change (Returned x ≫= k) with (k x); cbv beta match
  end.

Section LabelProperties.

Import lifInputDriver.

Lemma parseLabel_Raised (label : string) (e : py_error) :
  parseLabel label = Raised e -> e = ValueError label.
Proof.
  unfold parseLabel.
  assert (forall k, exists s, s = str_from k label) as Hfrom
    by (eexists; reflexivity).
  destruct (Hfrom 1) as [id1 Hid1]. destruct (Hfrom 2) as [id2 Hid2].
  rewrite <- Hid1, <- Hid2. clear Hfrom.
  case_decide as Hlen; [intros Hr; inversion Hr; reflexivity|].
  destruct (str_getitem_lt label 0) as [c0 ->]; [lia|]. simpl.
  destruct (not_in c0 typemapping) eqn:Hin;
    [intros Hr; inversion Hr; reflexivity|].
  destruct (dict_getitem_in _ _ Hin) as (ty & Hty & ->). simpl.
  apply typemapping_lookup in Hty
    as [[-> ->] | [[-> ->] | [[-> ->] | [-> ->]]]].
  - rewrite decide_True by reflexivity.
    case_decide as Hlen3; [intros Hr; inversion Hr; reflexivity|].
    destruct (str_getitem_lt label 1) as [c1 ->]; [lia|]. simpl.
    destruct (not_in c1 coinsidemapping) eqn:Hin1;
      [intros Hr; inversion Hr; reflexivity|].
    destruct (dict_getitem_in _ _ Hin1) as (side & _ & ->). discriminate.
  - rewrite decide_False by discriminate. rewrite decide_True by reflexivity.
    case_decide; [intros Hr; inversion Hr; reflexivity | discriminate].
  - rewrite !decide_False by discriminate. rewrite decide_True by reflexivity.
    case_decide; [intros Hr; inversion Hr; reflexivity | discriminate].
  - rewrite !decide_False by discriminate. rewrite decide_True by reflexivity.
    discriminate.
Qed.

Lemma coin_attributes (side id : string) :
  (<["id" := id]> (<["side" := side]> ∅) : dict)
  = {[ "side" := side; "id" := id ]}.
Proof. rewrite insert_empty. apply insert_insert_ne. discriminate. Qed.

Lemma parseLabel_well_formed (label atype : string) (attributes : dict) :
  parseLabel label = Returned (atype, attributes) ->
  well_formed atype attributes /\ accepted_label label.
Proof.
  intros Hret. apply parseLabel_Returned in Hret
    as [(c1 & side & -> & Hlabel & Hside & Hid & ->)
       | [(c0 & Hkind & Hlabel & Hid & ->) | (-> & Hlabel & ->)]].
  - apply coinsidemapping_lookup in Hside. split.
    + left. split; [reflexivity|]. exists side, (str_from 2 label).
      split; [tauto|]. split; [exact Hid | apply coin_attributes].
    + left. exists c1, (str_from 2 label). split; [tauto|].
      split; [exact Hid | exact Hlabel].
  - split.
    + right. left. split; [tauto|]. exists (str_from 1 label).
      split; [exact Hid | apply insert_empty].
    + right. left. exists c0, (str_from 1 label). split; [tauto|].
      split; [exact Hid | exact Hlabel].
  - split; [right; right; split; reflexivity|].
    right. right. exists (str_from 1 label). exact Hlabel.
Qed.

(** X10.  [parseLabel] accepts exactly the labels made of ["c"], a side
    letter [a], [r] or [i] and a non-empty identifier, of ["l"] or ["t"]
    and a non-empty identifier, or of ["n"] followed by anything.  On
    every other label it raises [ValueError(label)], and never a
    [KeyError] or an [IndexError].  What it returns is a coin with its
    side and identifier, a label or text with its identifier, or noise
    without attributes. *)
Theorem parseLabel_accepts_exactly (label : string) :
  ((exists atype attributes,
      parseLabel label = Returned (atype, attributes))
   <-> accepted_label label)
  /\ (forall e, parseLabel label = Raised e -> e = ValueError label)
  /\ (forall atype attributes,
        parseLabel label = Returned (atype, attributes) ->
        well_formed atype attributes).
Proof.
  split; [split|split].
  - intros (atype & attributes & Hret).
    apply (parseLabel_well_formed label atype attributes Hret).
  - intros [(c1 & id & Hc1 & Hid & ->)
           | [(c0 & id & Hc0 & Hid & ->) | (rest & ->)]].
    + assert (exists side, coinsidemapping !! c1 = Some side) as [side Hside].
      { destruct Hc1 as [-> | [-> | ->]]; eexists; reflexivity. }
      eexists _, _. apply (parseLabel_coin c1 side id Hside Hid).
    + destruct Hc0 as [-> | ->]; eexists _, _;
        apply parseLabel_with_id; tauto.
    + eexists _, _. apply parseLabel_noise.
  - apply parseLabel_Raised.
  - intros atype attributes Hret.
    apply (parseLabel_well_formed label atype attributes Hret).
Qed.

Lemma side_first_letter (c1 side : string) :
  coinsidemapping !! c1 = Some side -> str_getitem side 0 = Returned c1.
Proof.
  intros Hside. apply coinsidemapping_lookup in Hside
    as [[-> ->] | [[-> ->] | [-> ->]]]; reflexivity.
Qed.

(** X11.  The file name that [gen_filename_base] builds for the annotation
    of a label is the label itself, except for noise, where it is ["n"]
    whatever followed the ["n"] of the label. *)
Theorem label_round_trip (label atype : string) (attributes : dict) :
  parseLabel label = Returned (atype, attributes) ->
  gen_filename_base atype attributes
  = Returned (if decide (atype = "noise") then "n" else label).
Proof.
  intros Hret. apply parseLabel_Returned in Hret
    as [(c1 & side & -> & Hlabel & Hside & Hid & ->)
       | [(c0 & Hkind & Hlabel & Hid & ->) | (-> & Hlabel & ->)]].
  - unfold gen_filename_base, dict_getitem.
    rewrite decide_True by reflexivity. case_decide as Hn; [discriminate Hn|].
    assert ("id" <> "side") as Hne by discriminate.
    rewrite (lookup_insert_ne _ "id" "side" _ Hne), !lookup_insert_eq.
    repeat bind_step. rewrite (side_first_letter c1 side Hside).
    repeat bind_step. rewrite <- Hlabel. reflexivity.
  - unfold gen_filename_base, dict_getitem.
    destruct Hkind as [[-> ->] | [-> ->]].
    + rewrite !decide_False by discriminate. rewrite decide_True by reflexivity.
      rewrite lookup_insert_eq. bind_step. rewrite <- Hlabel. reflexivity.
    + rewrite !decide_False by discriminate. rewrite decide_True by reflexivity.
      rewrite lookup_insert_eq. bind_step. rewrite <- Hlabel. reflexivity.
  - reflexivity.
Qed.

(** X12.  Conversely, for a coin with a side and a non-empty identifier, a
    label or text with a non-empty identifier, or noise,
    [gen_filename_base] returns a name that [parseLabel] reads back as the
    same annotation. *)
Theorem annotation_round_trip (atype : string) (attributes : dict) :
  well_formed atype attributes ->
  exists label,
    gen_filename_base atype attributes = Returned label
    /\ parseLabel label = Returned (atype, attributes).
Proof.
  intros [(-> & side & id & Hside & Hid & ->)
         | [(Hkind & id & Hid & ->) | (-> & ->)]].
  - assert (exists c1, coinsidemapping !! c1 = Some side
                       /\ str_getitem side 0 = Returned c1) as (c1 & Hc1 & H0).
    { destruct Hside as [-> | [-> | ->]];
        [exists "a" | exists "r" | exists "i"]; split; reflexivity. }
    exists ("c" +:+ c1 +:+ id). split.
    + unfold gen_filename_base, dict_getitem.
      rewrite decide_True by reflexivity.
      assert ("side" <> "id") as Hne by discriminate.
      rewrite (lookup_insert_ne _ "side" "id" _ Hne), lookup_singleton_eq.
      rewrite lookup_insert_eq. repeat bind_step. rewrite H0.
      repeat bind_step. reflexivity.
    + rewrite (parseLabel_coin c1 side id Hc1 Hid), coin_attributes.
      reflexivity.
  - destruct Hkind as [-> | ->].
    + exists ("l" +:+ id). split.
      * unfold gen_filename_base, dict_getitem.
        rewrite !decide_False by discriminate.
        rewrite decide_True by reflexivity.
        rewrite lookup_singleton_eq. reflexivity.
      * rewrite (parseLabel_with_id "l" "label" id) by tauto.
        rewrite insert_empty. reflexivity.
    + exists ("t" +:+ id). split.
      * unfold gen_filename_base, dict_getitem.
        rewrite !decide_False by discriminate.
        rewrite decide_True by reflexivity.
        rewrite lookup_singleton_eq. reflexivity.
      * rewrite (parseLabel_with_id "t" "text" id) by tauto.
        rewrite insert_empty. reflexivity.
  - exists "n". split; [reflexivity | apply (parseLabel_noise "")].
Qed.

End LabelProperties.

(** * Loading with the first compatible driver
      ([drivers/InputDriver.py]) *)

Section Drivers.

Context {A : Type}.
Implicit Types (input_drivers before after : list (driver (A := A))).

Lemma try_drivers_skip filename before after :
  Forall (unsupported filename) before ->
  try_drivers filename (before ++ after) = try_drivers filename after.
Proof.
  induction 1 as [|d before [f Hd] _ IH]; [reflexivity|].
  simpl. rewrite Hd. exact IH.
Qed.

(** X13.  [loadWithAnyDriver] asks the drivers in order and stops at the
    first one that does not raise [UnsupportedFile]: it returns what that
    driver read, or lets its exception through, and the drivers after it
    are never asked.  When every driver raises [UnsupportedFile] (or there
    is none), and also when the first compatible driver returns [None],
    it raises [NoInputDriverCompatibleError]. *)
Theorem loadWithAnyDriver_first_compatible filename before after
        (d : driver (A := A)) :
  Forall (unsupported filename) before ->
  loadWithAnyDriver filename before
  = Raised (NoInputDriverCompatibleError filename)
  /\ (forall data,
        d filename = Returned (Some data) ->
        loadWithAnyDriver filename (before ++ d :: after) = Returned data)
  /\ (d filename = Returned None ->
      loadWithAnyDriver filename (before ++ d :: after)
      = Raised (NoInputDriverCompatibleError filename))
  /\ (forall e,
        d filename = Raised e -> (forall f, e <> UnsupportedFile f) ->
        loadWithAnyDriver filename (before ++ d :: after) = Raised e).
Proof.
  intros Hbefore. unfold loadWithAnyDriver. repeat split.
  - rewrite <- (app_nil_r before), (try_drivers_skip _ _ [] Hbefore).
    reflexivity.
  - intros data Hd. rewrite (try_drivers_skip _ _ _ Hbefore). simpl.
    rewrite Hd. reflexivity.
  - intros Hd. rewrite (try_drivers_skip _ _ _ Hbefore). simpl.
    rewrite Hd. reflexivity.
  - intros e Hd Hne. rewrite (try_drivers_skip _ _ _ Hbefore). simpl.
    rewrite Hd. destruct e; try reflexivity. exfalso. apply (Hne filename0).
    reflexivity.
Qed.

End Drivers.

(** * The content handler of the XML driver
      ([plugin_numis/catinfoXMLInputDriver.py]) *)

Section CoinSide.

Import catinfoXMLInputDriver.

Lemma str_upto_length (k : nat) (s : string) :
  String.length (str_upto k s) <= k.
Proof.
  revert s. induction k as [|k IH]; intros [|a s]; simpl; try lia.
  specialize (IH s). lia.
Qed.

Lemma parseCoinSide_result (attrs : dict) :
  _parseCoinSide attrs
  = match attrs !! "face" with
    | Some _ => Returned "isolated"
    | None => Raised (KeyError "face")
    end.
Proof.
  unfold _parseCoinSide, getValue.
  destruct (attrs !! "face") as [face|]; [|reflexivity]. bind_step.
  assert (String.length (str_upto (Nat.min 3 (String.length face)) face) <= 3)
    as Hlen.
  { pose proof (str_upto_length (Nat.min 3 (String.length face)) face). lia. }
  rewrite !decide_False; [reflexivity | |];
    intros Heq; rewrite Heq in Hlen; simpl in Hlen; lia.
Qed.

(** X14.  [_parseCoinSide] compares the first three characters of the
    [face] attribute with the four-character strings ['aver'] and
    ['reve']: whatever the face, it returns ["isolated"]; it never returns
    ["avers"] or ["revers"].  Without a [face] attribute it raises
    [KeyError]. *)
Theorem coin_side_is_always_isolated (attrs : dict) :
  _parseCoinSide attrs
  = match attrs !! "face" with
    | Some _ => Returned "isolated"
    | None => Raised (KeyError "face")
    end.
Proof. apply parseCoinSide_result. Qed.

End CoinSide.

Section HandlerFacts.

Import catinfoXMLInputDriver.

Context {F P : Type} `{Float F} `{Shapes F P}.
Implicit Types (self : handler (P := P)) (attrs : dict).

Lemma pop_app (l : list string) (x : string) : pop (l ++ [x]) = Some (x, l).
Proof. unfold pop. rewrite rev_unit, rev_involutive. reflexivity. Qed.

Lemma pop_Some (l r : list string) (x : string) :
  pop l = Some (x, r) -> l = r ++ [x].
Proof.
  unfold pop. destruct (rev l) as [|y t] eqn:Hrev; [discriminate|].
  intros Heq. inversion Heq. subst.
  rewrite <- (rev_involutive l), Hrev. reflexivity.
Qed.

Lemma pop_None (l : list string) : pop l = None -> l = [].
Proof.
  unfold pop. destruct (rev l) as [|y t] eqn:Hrev; [|discriminate].
  intros _. rewrite <- (rev_involutive l), Hrev. reflexivity.
Qed.

Lemma float_attr_cases attrs name :
  (exists s v, attrs !! name = Some s /\ float_of_string s = Some v
               /\ float_attr attrs name = Returned v)
  \/ (attrs !! name = None /\ float_attr attrs name = Raised (KeyError name))
  \/ (exists s, attrs !! name = Some s /\ float_of_string s = None
                /\ float_attr attrs name = Raised (ValueError s)).
Proof.
  unfold float_attr, getValue. destruct (attrs !! name) as [s|] eqn:Hs.
  - bind_step. destruct (float_of_string s) as [v|] eqn:Hv.
    + left. exists s, v. repeat split; assumption.
    + right. right. exists s. repeat split; assumption.
  - right. left. split; reflexivity.
Qed.

(** [_parseShapeAttr] reads the handler only to store the shape: it sets
    [cShape] to the rectangle that the attributes describe, or raises an
    exception that depends on the attributes alone and is not an
    [XMLFileError]. *)
Lemma parseShapeAttr_uniform attrs :
  (exists shape,
     describes attrs shape
     /\ forall self,
          _parseShapeAttr self attrs = Returned (set_cShape (Some shape) self))
  \/ (exists e,
        (forall msg, e <> XMLFileError msg)
        /\ (forall shape, ~ describes attrs shape)
        /\ forall self, _parseShapeAttr self attrs = Raised e).
Proof.
  unfold _parseShapeAttr.
  destruct (float_attr_cases attrs "x")
    as [(sx & x & Hsx & Hx & ->) | [[Hsx ->] | (sx & Hsx & Hx & ->)]].
  2:{ right. eexists. (split; [|split]); cycle 2; [reflexivity | discriminate |].
      intros shape (? & ? & ? & ? & ? & ? & ? & ? & Hd & _). congruence. }
  2:{ right. eexists. (split; [|split]); cycle 2; [reflexivity | discriminate |].
      intros shape (? & ? & ? & ? & ? & ? & ? & ? & Hd & Hd' & _). congruence. }
  destruct (float_attr_cases attrs "y")
    as [(sy & y & Hsy & Hy & ->) | [[Hsy ->] | (sy & Hsy & Hy & ->)]].
  2:{ right. eexists. (split; [|split]); cycle 2; [reflexivity | discriminate |].
      intros shape (? & ? & ? & ? & ? & ? & ? & ? & _ & _ & Hd & _).
      congruence. }
  2:{ right. eexists. (split; [|split]); cycle 2; [reflexivity | discriminate |].
      intros shape (? & ? & ? & ? & ? & ? & ? & ? & _ & _ & Hd & Hd' & _).
      congruence. }
  destruct (float_attr_cases attrs "w")
    as [(sw & w & Hsw & Hw & ->) | [[Hsw ->] | (sw & Hsw & Hw & ->)]].
  2:{ right. eexists. (split; [|split]); cycle 2; [reflexivity | discriminate |].
      intros shape (? & ? & ? & ? & ? & ? & ? & ? & _ & _ & _ & _ & Hd & _).
      congruence. }
  2:{ right. eexists. (split; [|split]); cycle 2; [reflexivity | discriminate |].
      intros shape
        (? & ? & ? & ? & ? & ? & ? & ? & _ & _ & _ & _ & Hd & Hd' & _).
      congruence. }
  destruct (float_attr_cases attrs "h")
    as [(sh & h & Hsh & Hh & ->) | [[Hsh ->] | (sh & Hsh & Hh & ->)]].
  2:{ right. eexists. (split; [|split]); cycle 2; [reflexivity | discriminate |].
      intros shape
        (? & ? & ? & ? & ? & ? & ? & ? & _ & _ & _ & _ & _ & _ & Hd & _).
      congruence. }
  2:{ right. eexists. (split; [|split]); cycle 2; [reflexivity | discriminate |].
      intros shape
        (? & ? & ? & ? & ? & ? & ? & ? & _ & _ & _ & _ & _ & _ & Hd & Hd' & _).
      congruence. }
  destruct (isSelfIntersecting
              (Polygon_of [(x, y); (x, f_add y h);
                           (f_add x w, f_add y h); (f_add x w, y)]))
    eqn:Hself.
  - right. exists (NameError "BadPolygon").
    split; [discriminate|]. split.
    + intros shape (sx' & sy' & sw' & sh' & x' & y' & w' & h'
                    & Hx1 & Hx2 & Hy1 & Hy2 & Hw1 & Hw2 & Hh1 & Hh2 & -> & Hok).
      assert (x' = x) as -> by congruence. assert (y' = y) as -> by congruence.
      assert (w' = w) as -> by congruence. assert (h' = h) as -> by congruence.
      congruence.
    + intros self. repeat bind_step. rewrite Hself. reflexivity.
  - left. eexists. split.
    + exists sx, sy, sw, sh, x, y, w, h. repeat split; try eassumption.
    + intros self. repeat bind_step. rewrite Hself. reflexivity.
Qed.

Lemma describes_functional attrs (shape shape' : P) :
  describes attrs shape -> describes attrs shape' -> shape = shape'.
Proof.
  intros (sx & sy & sw & sh & x & y & w & h
          & Hx1 & Hx2 & Hy1 & Hy2 & Hw1 & Hw2 & Hh1 & Hh2 & -> & _)
         (sx' & sy' & sw' & sh' & x' & y' & w' & h'
          & Hx1' & Hx2' & Hy1' & Hy2' & Hw1' & Hw2' & Hh1' & Hh2' & -> & _).
  assert (x' = x) as -> by congruence. assert (y' = y) as -> by congruence.
  assert (w' = w) as -> by congruence. assert (h' = h) as -> by congruence.
  reflexivity.
Qed.

Lemma parseShapeAttr_describes self attrs shape :
  describes attrs shape ->
  _parseShapeAttr self attrs = Returned (set_cShape (Some shape) self).
Proof.
  intros Hd. destruct (parseShapeAttr_uniform attrs)
    as [(shape' & Hd' & Hrun) | (e & _ & Hnone & _)].
  - rewrite Hrun, (describes_functional attrs shape shape' Hd Hd').
    reflexivity.
  - destruct (Hnone shape Hd).
Qed.

Lemma startElement_fields self name attrs self' :
  startElement self name attrs = Returned self' ->
  eltStack self' = eltStack self ++ [name]
  /\ annotations self' = annotations self
  /\ cAutoId self'
     = (cAutoId self + if decide (name = tag_coin) then 1 else 0)%Z.
Proof.
  unfold startElement.
  case_decide as Hcoins; [subst; intros Hr; inversion Hr; simpl;
                          repeat split; lia|].
  case_decide as Hcoin; [subst; intros Hr; inversion Hr; simpl;
                         repeat split|].
  case_decide as Hlabel.
  { destruct (parseShapeAttr_uniform attrs)
      as [(shape & _ & ->) | (e & _ & _ & ->)]; [|discriminate].
    bind_step. intros Hr. inversion Hr. simpl. repeat split. lia. }
  case_decide as Himage.
  { destruct (parseShapeAttr_uniform attrs)
      as [(shape & _ & ->) | (e & _ & _ & ->)]; [|discriminate].
    bind_step. destruct (_parseCoinSide attrs) as [side|e]; [|discriminate].
    bind_step. intros Hr. inversion Hr. simpl. repeat split. lia. }
  intros Hr. inversion Hr. simpl. repeat split. lia.
Qed.

Lemma startElement_error self name attrs e :
  startElement self name attrs = Raised e -> forall msg, e <> XMLFileError msg.
Proof.
  unfold startElement.
  case_decide; [discriminate|]. case_decide; [discriminate|].
  case_decide.
  { destruct (parseShapeAttr_uniform attrs)
      as [(shape & _ & ->) | (e' & He' & _ & ->)]; [discriminate|].
    intros Hr. inversion Hr. subst. exact He'. }
  case_decide; [|discriminate].
  destruct (parseShapeAttr_uniform attrs)
    as [(shape & _ & ->) | (e' & He' & _ & ->)].
  - bind_step. rewrite parseCoinSide_result.
    destruct (attrs !! "face"); [discriminate|].
    intros Hr. inversion Hr. discriminate.
  - intros Hr. inversion Hr. subst. exact He'.
Qed.

Lemma endElement_fields self name self' :
  endElement self name = Returned self' ->
  pop (eltStack self) = Some (name, eltStack self')
  /\ cAutoId self' = cAutoId self
  /\ annotations self'
     = annotations self
       ++ (if decide (name = tag_label \/ name = tag_image)
           then [mk_annotation (cShape self) (cType self) (cAttrib self)]
           else []).
Proof.
  unfold endElement. destruct (pop (eltStack self)) as [[prev stack]|];
    [|discriminate].
  case_decide as Hne; [discriminate|].
  assert (name = prev) as <- by (destruct (decide (name = prev)); tauto).
  assert (forall s : handler (P := P),
            eltStack s = stack -> cAutoId s = cAutoId self ->
            forall r,
            match insideUnk s with
            | Some level =>
                if decide (length (eltStack s) < level)
                then Returned (set_insideUnk None s) else Returned s
            | None => Returned s
            end = Returned r ->
            eltStack r = stack /\ cAutoId r = cAutoId self
            /\ annotations r = annotations s) as Hlast.
  { intros s Hs Hid r. destruct (insideUnk s); [case_decide|];
      intros Hr; inversion Hr; subst r; simpl; repeat split; assumption. }
  case_decide as Hcoins.
  { bind_step. intros Hr. apply Hlast in Hr as (Hs & Hid & Han);
      [|reflexivity|reflexivity].
    rewrite Hs, Hid, Han. subst name. repeat split.
    case_decide as Hd; [destruct Hd as [Hx|Hx]; discriminate Hx|].
    symmetry. apply app_nil_r. }
  case_decide as Hcoin.
  { bind_step. intros Hr. apply Hlast in Hr as (Hs & Hid & Han);
      [|reflexivity|reflexivity].
    rewrite Hs, Hid, Han. subst name. repeat split.
    case_decide as Hd; [destruct Hd as [Hx|Hx]; discriminate Hx|].
    symmetry. apply app_nil_r. }
  case_decide as Hlabel.
  { bind_step. intros Hr. apply Hlast in Hr as (Hs & Hid & Han);
      [|reflexivity|reflexivity].
    rewrite Hs, Hid, Han. repeat split.
    case_decide as Hd; [reflexivity | tauto]. }
  case_decide as Himage.
  { destruct (cAttrib (set_eltStack stack self)) as [attrib|] eqn:Hattr;
      [|discriminate].
    destruct (dict_getitem attrib "side"); [|discriminate].
    repeat bind_step. intros Hr. apply Hlast in Hr as (Hs & Hid & Han);
      [|reflexivity|reflexivity].
    rewrite Hs, Hid, Han. repeat split.
    case_decide as Hd; [reflexivity | tauto]. }
  bind_step. intros Hr. apply Hlast in Hr as (Hs & Hid & Han);
    [|reflexivity|reflexivity].
  rewrite Hs, Hid, Han. repeat split.
  case_decide as Hd; [tauto|]. symmetry. apply app_nil_r.
Qed.

Lemma endElement_XMLFileError self name msg :
  endElement self name = Raised (XMLFileError msg) ->
  pop (eltStack self) = None
  \/ exists prev stack, pop (eltStack self) = Some (prev, stack)
                        /\ name <> prev.
Proof.
  unfold endElement. destruct (pop (eltStack self)) as [[prev stack]|];
    [|left; reflexivity].
  case_decide as Hne; [right; exists prev, stack; split; tauto|].
  intros Hr. exfalso. revert Hr.
  assert (forall s : handler (P := P),
            match insideUnk s with
            | Some level =>
                if decide (length (eltStack s) < level)
                then Returned (set_insideUnk None s) else Returned s
            | None => Returned s
            end <> Raised (XMLFileError msg)) as Hlast.
  { intros s. destruct (insideUnk s); [case_decide|]; discriminate. }
  repeat case_decide; try (bind_step; apply Hlast).
  simpl. destruct (cAttrib self) as [attrib|]; [|discriminate].
  unfold dict_getitem. destruct (attrib !! "side"); [|discriminate].
  repeat bind_step. apply Hlast.
Qed.

End HandlerFacts.

Section HandlerProperties.

Import catinfoXMLInputDriver.

Context {F P : Type} `{Float F} `{Shapes F P}.
Implicit Types (self : handler (P := P)) (attrs : dict) (events : list event).

Lemma feed_nesting events : forall self self',
  feed events self = Returned self' ->
  nesting events (eltStack self) = Some (eltStack self').
Proof.
  induction events as [|ev rest IH]; intros self self' Hrun; simpl in *.
  - inversion Hrun. reflexivity.
  - destruct (handle self ev) as [s1|e] eqn:Hstep; [|discriminate].
    simpl in Hrun. specialize (IH s1 self' Hrun).
    destruct ev as [name attrs | name | content]; simpl in Hstep.
    + apply startElement_fields in Hstep as (Hstack & _). rewrite <- Hstack.
      exact IH.
    + apply endElement_fields in Hstep as (Hpop & _). rewrite Hpop.
      rewrite decide_True by reflexivity. exact IH.
    + inversion Hstep. subst. exact IH.
Qed.

Lemma feed_XMLFileError events : forall self msg,
  feed events self = Raised (XMLFileError msg) ->
  nesting events (eltStack self) = None.
Proof.
  induction events as [|ev rest IH]; intros self msg Hrun; simpl in *;
    [discriminate|].
  destruct (handle self ev) as [s1|e] eqn:Hstep; simpl in Hrun.
  - specialize (IH s1 msg Hrun).
    destruct ev as [name attrs | name | content]; simpl in Hstep.
    + apply startElement_fields in Hstep as (Hstack & _). rewrite <- Hstack.
      exact IH.
    + apply endElement_fields in Hstep as (Hpop & _). rewrite Hpop.
      rewrite decide_True by reflexivity. exact IH.
    + inversion Hstep. subst. exact IH.
  - inversion Hrun. subst e.
    destruct ev as [name attrs | name | content]; simpl in Hstep.
    + destruct (startElement_error _ _ _ _ Hstep msg). reflexivity.
    + apply endElement_XMLFileError in Hstep
        as [-> | (prev & stack & -> & Hne)]; [reflexivity|].
      rewrite decide_False by exact Hne. reflexivity.
    + discriminate.
Qed.

(** X15.  The handler checks that the elements are properly nested.  A
    closing tag with no open element, or that does not close the element
    opened last, raises [XMLFileError] with a message naming both.  Over a
    sequence of events: when the handler returns, every closing tag closed
    the element opened last and [eltStack] holds the elements still open;
    when it raises [XMLFileError], some closing tag did not. *)
Theorem handler_checks_nesting events self :
  (forall self', feed events self = Returned self' ->
                 nesting events (eltStack self) = Some (eltStack self'))
  /\ (forall msg, feed events self = Raised (XMLFileError msg) ->
                  nesting events (eltStack self) = None)
  /\ (forall name,
        eltStack self = [] ->
        endElement self name
        = Raised (XMLFileError ("Got unexpected element end: '" +:+ name
                                +:+ "'. Expected start of document.")))
  /\ (forall name stack prevElt,
        eltStack self = stack ++ [prevElt] -> name <> prevElt ->
        endElement self name
        = Raised (XMLFileError ("Got unexpected element end: '" +:+ name
                                +:+ "'. Expected closing '" +:+ prevElt
                                +:+ "'."))).
Proof.
  split; [apply feed_nesting|]. split; [apply feed_XMLFileError|]. split.
  - intros name Hempty. unfold endElement. rewrite Hempty. reflexivity.
  - intros name stack prevElt Hstack Hne. unfold endElement.
    rewrite Hstack, pop_app. rewrite decide_True by exact Hne. reflexivity.
Qed.

(** X16.  The handler only ever appends to [annotations]: when it returns,
    the list is the former one followed by one annotation for each closing
    [label] or [image] tag, and [cAutoId] has grown by the number of
    opening [coin] tags. *)
Theorem handler_commits_per_closing_tag events : forall self self',
  feed events self = Returned self' ->
  exists new,
    annotations self' = annotations self ++ new
    /\ length new = closed_regions events
    /\ cAutoId self' = (cAutoId self + Z.of_nat (opened_coins events))%Z.
Proof.
  induction events as [|ev rest IH]; intros self self' Hrun; simpl in *.
  - inversion Hrun. exists []. rewrite app_nil_r. repeat split. lia.
  - destruct (handle self ev) as [s1|e] eqn:Hstep; [|discriminate].
    simpl in Hrun. destruct (IH s1 self' Hrun) as (new & Han & Hlen & Hid).
    destruct ev as [name attrs | name | content]; simpl in Hstep.
    + apply startElement_fields in Hstep as (_ & Han1 & Hid1).
      exists new. rewrite Han, Han1, Hid, Hid1.
      repeat split; [exact Hlen|]. case_decide; lia.
    + apply endElement_fields in Hstep as (_ & Hid1 & Han1).
      eexists. rewrite Han, Han1, <- app_assoc. split; [reflexivity|].
      rewrite length_app, Hlen, Hid, Hid1. split; [|lia].
      case_decide; reflexivity.
    + inversion Hstep. subst. exists new. repeat split; assumption.
Qed.

End HandlerProperties.

Section HandlerRegions.

Import catinfoXMLInputDriver.

Context {F P : Type} `{Float F} `{Shapes F P}.
Implicit Types (self : handler (P := P)) (attrs : dict) (events : list event).

Lemma feed_app events1 events2 self :
  feed (events1 ++ events2) self = feed events1 self ≫= feed events2.
Proof.
  revert self. induction events1 as [|ev rest IH]; intros self; simpl.
  - reflexivity.
  - destruct (handle self ev) as [s1|e]; simpl; [apply IH | reflexivity].
Qed.

Lemma feed_cons ev events self :
  feed (ev :: events) self = handle self ev ≫= feed events.
Proof. reflexivity. Qed.

Lemma feed_characters (contents : list string) self :
  feed (Characters <$> contents) self = Returned self.
Proof. induction contents as [|c rest IH]; [reflexivity | exact IH]. Qed.

Lemma startElement_label self attrs shape :
  describes attrs shape ->
  startElement self tag_label attrs
  = Returned
      (set_cAttrib (Some {[ "id" := _autoIdStr self ]})
         (set_cShape (Some shape)
            (set_cType (Some "label")
               (set_eltStack (eltStack self ++ [tag_label]) self)))).
Proof.
  intros Hd. unfold startElement.
  rewrite (parseShapeAttr_describes _ attrs shape Hd). reflexivity.
Qed.

Lemma startElement_image self attrs shape :
  describes attrs shape -> is_Some (attrs !! "face") ->
  startElement self tag_image attrs
  = Returned
      (set_cAttrib (Some {[ "id" := _autoIdStr self; "side" := "isolated" ]})
         (set_cShape (Some shape)
            (set_cType (Some "coin")
               (set_eltStack (eltStack self ++ [tag_image]) self)))).
Proof.
  intros Hd [face Hface]. unfold startElement.
  rewrite !(parseShapeAttr_describes _ attrs shape Hd).
  rewrite parseCoinSide_result, Hface. reflexivity.
Qed.

(** Closing the element opened last: what is left of the handler. *)
Lemma endElement_last self name stack :
  eltStack self = stack ++ [name] ->
  (name = tag_image -> exists attrib side,
      cAttrib self = Some attrib /\ attrib !! "side" = Some side) ->
  exists self',
    endElement self name = Returned self'
    /\ eltStack self' = stack
    /\ cAutoId self' = cAutoId self
    /\ (name = tag_label \/ name = tag_image ->
        annotations self'
        = annotations self
          ++ [mk_annotation (cShape self) (cType self) (cAttrib self)]
        /\ cType self' = None /\ cShape self' = None /\ cAttrib self' = None).
Proof.
  intros Hstack Himage.
  assert (forall s : handler (P := P),
            exists r,
              match insideUnk s with
              | Some level =>
                  if decide (length (eltStack s) < level)
                  then Returned (set_insideUnk None s) else Returned s
              | None => Returned s
              end = Returned r
              /\ set_insideUnk None r = set_insideUnk None s) as Hlast.
  { intros s. destruct (insideUnk s) eqn:Hu; [case_decide|];
      eexists; (split; [reflexivity|]); reflexivity. }
  assert (forall r s : handler (P := P),
            set_insideUnk None r = set_insideUnk None s ->
            eltStack r = eltStack s /\ cAutoId r = cAutoId s
            /\ annotations r = annotations s /\ cType r = cType s
            /\ cShape r = cShape s /\ cAttrib r = cAttrib s) as Hsame.
  { intros [] [] Heq. inversion Heq. simpl. repeat split; reflexivity. }
  unfold endElement. rewrite Hstack, pop_app.
  rewrite decide_False by (intros Hne; apply Hne; reflexivity).
  case_decide as Hcoins.
  { bind_step. destruct (Hlast (set_eltStack stack self)) as (r & -> & Hr).
    apply Hsame in Hr as (Hr1 & Hr2 & Hr3 & Hr4 & Hr5 & Hr6).
    exists r. split; [reflexivity|]. split; [exact Hr1|].
    split; [exact Hr2|]. subst name. intros [Hx | Hx]; discriminate Hx. }
  case_decide as Hcoin.
  { bind_step. destruct (Hlast (set_eltStack stack self)) as (r & -> & Hr).
    apply Hsame in Hr as (Hr1 & Hr2 & Hr3 & Hr4 & Hr5 & Hr6).
    exists r. split; [reflexivity|]. split; [exact Hr1|].
    split; [exact Hr2|]. subst name. intros [Hx | Hx]; discriminate Hx. }
  case_decide as Hlabel.
  { bind_step.
    destruct (Hlast (_commitAnnot (set_eltStack stack self))) as (r & -> & Hr).
    apply Hsame in Hr as (Hr1 & Hr2 & Hr3 & Hr4 & Hr5 & Hr6).
    exists r. split; [reflexivity|]. split; [exact Hr1|].
    split; [exact Hr2|]. intros _.
    split; [exact Hr3|]. split; [exact Hr4|]. split; [exact Hr5 | exact Hr6]. }
  case_decide as Himg.
  { destruct (Himage Himg) as (attrib & side & Hattr & Hside).
    change (cAttrib (set_eltStack stack self)) with (cAttrib self).
    rewrite Hattr. unfold dict_getitem. rewrite Hside. repeat bind_step.
    destruct (Hlast (_commitAnnot (set_eltStack stack self))) as (r & -> & Hr).
    apply Hsame in Hr as (Hr1 & Hr2 & Hr3 & Hr4 & Hr5 & Hr6).
    exists r. split; [reflexivity|]. split; [exact Hr1|].
    split; [exact Hr2|]. intros _.
    split; [rewrite Hr3; simpl; rewrite Hattr; reflexivity|].
    split; [exact Hr4|]. split; [exact Hr5 | exact Hr6]. }
  bind_step. destruct (Hlast (set_eltStack stack self)) as (r & -> & Hr).
  apply Hsame in Hr as (Hr1 & Hr2 & Hr3 & Hr4 & Hr5 & Hr6).
  exists r. split; [reflexivity|]. split; [exact Hr1|].
  split; [exact Hr2|]. tauto.
Qed.

(** Closing an [image] element when the handler holds no attributes: the
    debug message of [endElement] subscripts [None]. *)
Lemma endElement_image_without_region self stack :
  eltStack self = stack ++ [tag_image] -> cAttrib self = None ->
  endElement self tag_image = Raised TypeError.
Proof.
  intros Hstack Hattr. unfold endElement. rewrite Hstack, pop_app.
  rewrite decide_False by (intros Hne; apply Hne; reflexivity).
  do 3 (case_decide; [discriminate|]).
  case_decide as Himg; [|destruct Himg; reflexivity].
  change (cAttrib (set_eltStack stack self)) with (cAttrib self).
  rewrite Hattr. reflexivity.
Qed.

(** A step of the handler does not depend on [insideUnk]. *)
Lemma handle_insideUnk ev self u :
  without_insideUnk (handle (set_insideUnk u self) ev)
  = without_insideUnk (handle self ev).
Proof.
  destruct ev as [name attrs | name | content].
  - change (without_insideUnk (startElement (set_insideUnk u self) name attrs)
            = without_insideUnk (startElement self name attrs)).
    unfold startElement.
    case_decide as Hcoins; [destruct self; reflexivity|].
    case_decide as Hcoin; [destruct self; reflexivity|].
    case_decide as Hlabel.
    { destruct (parseShapeAttr_uniform attrs)
        as [(shape & _ & Hs) | (e & _ & _ & He)].
      - rewrite !Hs. repeat bind_step. destruct self; reflexivity.
      - rewrite !He. reflexivity. }
    case_decide as Himage.
    { destruct (parseShapeAttr_uniform attrs)
        as [(shape & _ & Hs) | (e & _ & _ & He)].
      - rewrite !Hs. repeat bind_step. rewrite parseCoinSide_result.
        destruct (attrs !! "face"); [|reflexivity].
        repeat bind_step. destruct self; reflexivity.
      - rewrite !He. reflexivity. }
    destruct self; reflexivity.
  - change (without_insideUnk (endElement (set_insideUnk u self) name)
            = without_insideUnk (endElement self name)).
    destruct self as [st an ty sh att id unk]. unfold endElement.
    change (eltStack (set_insideUnk u (mk_handler st an ty sh att id unk)))
      with st.
    change (eltStack (mk_handler st an ty sh att id unk)) with st.
    destruct (pop st) as [[prev stack]|]; [|reflexivity].
    case_decide as Hne; [reflexivity|].
    repeat case_decide; simpl;
      try (destruct att as [attrib|]; [|reflexivity];
           unfold dict_getitem; destruct (attrib !! "side"); [|reflexivity];
           simpl);
      destruct u, unk; simpl; repeat case_decide; reflexivity.
  - destruct self; reflexivity.
Qed.

Lemma feed_same events : forall s1 s2 : handler (P := P),
  set_insideUnk None s1 = set_insideUnk None s2 ->
  without_insideUnk (feed events s1) = without_insideUnk (feed events s2).
Proof.
  induction events as [|ev rest IH]; intros s1 s2 Hsame.
  - simpl. rewrite Hsame. reflexivity.
  - rewrite !feed_cons.
    assert (without_insideUnk (handle s1 ev)
            = without_insideUnk (handle s2 ev)) as Hstep.
    { rewrite <- (handle_insideUnk ev s1 None),
              <- (handle_insideUnk ev s2 None), Hsame. reflexivity. }
    destruct (handle s1 ev) as [r1|e1], (handle s2 ev) as [r2|e2];
      simpl in Hstep; try discriminate Hstep.
    + repeat bind_step. apply IH. congruence.
    + exact Hstep.
Qed.

(** A region element that contains text only: what it leaves in the
    handler. *)
Lemma feed_region self name attrs shape contents :
  describes attrs shape ->
  name = tag_label \/ (name = tag_image /\ is_Some (attrs !! "face")) ->
  exists self',
    feed (StartElement name attrs :: (Characters <$> contents)
            ++ [EndElement name]) self
    = Returned self'
    /\ annotations self'
       = annotations self
         ++ [mk_annotation (Some shape)
               (Some (if decide (name = tag_label) then "label" else "coin"))
               (Some (if decide (name = tag_label)
                      then {[ "id" := _autoIdStr self ]}
                      else {[ "id" := _autoIdStr self;
                              "side" := "isolated" ]}))]
    /\ eltStack self' = eltStack self
    /\ cAutoId self' = cAutoId self
    /\ cType self' = None /\ cShape self' = None /\ cAttrib self' = None.
Proof.
  intros Hd Hname. rewrite feed_cons.
  change (handle self (StartElement name attrs))
    with (startElement self name attrs).
  destruct Hname as [-> | [-> Hface]].
  - rewrite (startElement_label self attrs shape Hd). bind_step.
    rewrite feed_app, feed_characters. bind_step. rewrite feed_cons.
    match goal with
    | |- context [handle ?s (EndElement ?n)] =>
        change (handle s (EndElement n)) with (endElement s n);
        destruct (endElement_last s n (eltStack self))
          as (r & Hend & Hstack & Hid & Hrest);
        [reflexivity | discriminate |]
    end.
    destruct Hrest as (Han & Hty & Hsh & Hat); [left; reflexivity|].
    exists r. rewrite Hend. bind_step.
    rewrite decide_True by reflexivity.
    split; [reflexivity|]. split; [exact Han|]. split; [exact Hstack|].
    split; [exact Hid|]. split; [exact Hty|]. split; [exact Hsh | exact Hat].
  - rewrite (startElement_image self attrs shape Hd Hface). bind_step.
    rewrite feed_app, feed_characters. bind_step. rewrite feed_cons.
    match goal with
    | |- context [handle ?s (EndElement ?n)] =>
        change (handle s (EndElement n)) with (endElement s n);
        destruct (endElement_last s n (eltStack self))
          as (r & Hend & Hstack & Hid & Hrest);
        [reflexivity | |]
    end.
    { intros _. eexists _, "isolated". split; [reflexivity|].
      assert ("id" <> "side") as Hne by discriminate.
      rewrite (lookup_insert_ne _ "id" "side" _ Hne).
      apply lookup_singleton_eq. }
    destruct Hrest as (Han & Hty & Hsh & Hat); [right; reflexivity|].
    exists r. rewrite Hend. bind_step.
    rewrite decide_False by discriminate.
    split; [reflexivity|]. split; [exact Han|]. split; [exact Hstack|].
    split; [exact Hid|]. split; [exact Hty|]. split; [exact Hsh | exact Hat].
Qed.

(** X17.  An element [label] or [image] whose attributes [x], [y], [w],
    [h] describe an accepted rectangle, and that contains text only, adds
    one annotation: that rectangle, with type ["label"] or ["coin"], the
    identifier generated from the number of [coin] tags opened so far
    (the attribute [id] of the file is not read) and, for a coin, the side
    ["isolated"].  The handler is then as before, with no current
    region. *)
Theorem region_element_is_committed self name attrs shape contents :
  describes attrs shape ->
  name = tag_label \/ (name = tag_image /\ is_Some (attrs !! "face")) ->
  exists self',
    feed (StartElement name attrs :: (Characters <$> contents)
            ++ [EndElement name]) self
    = Returned self'
    /\ annotations self'
       = annotations self
         ++ [mk_annotation (Some shape)
               (Some (if decide (name = tag_label) then "label" else "coin"))
               (Some (if decide (name = tag_label)
                      then {[ "id" := _autoIdStr self ]}
                      else {[ "id" := _autoIdStr self;
                              "side" := "isolated" ]}))]
    /\ eltStack self' = eltStack self
    /\ cAutoId self' = cAutoId self
    /\ cType self' = None /\ cShape self' = None /\ cAttrib self' = None.
Proof. apply feed_region. Qed.

(** X18.  The handler holds one current region.  A region element inside
    a [label] element replaces the region of the [label]: the inner
    region is committed as in X17, and the closing tag of the [label]
    then commits an annotation without shape, type or attributes.  Inside
    an [image] element, the closing tag of the [image] raises a
    [TypeError] instead. *)
Theorem region_inside_region self attrs_o shape_o inner attrs_i shape_i
        contents :
  describes attrs_o shape_o -> describes attrs_i shape_i ->
  inner = tag_label \/ (inner = tag_image /\ is_Some (attrs_i !! "face")) ->
  (exists self' a,
     feed (StartElement tag_label attrs_o
             :: (StartElement inner attrs_i :: (Characters <$> contents)
                   ++ [EndElement inner])
             ++ [EndElement tag_label]) self
     = Returned self'
     /\ annotations self'
        = annotations self ++ [a; mk_annotation None None None]
     /\ shape a = Some shape_i)
  /\ (is_Some (attrs_o !! "face") ->
      feed (StartElement tag_image attrs_o
              :: (StartElement inner attrs_i :: (Characters <$> contents)
                    ++ [EndElement inner])
              ++ [EndElement tag_image]) self
      = Raised TypeError).
Proof.
  intros Hdo Hdi Hinner. split.
  - rewrite feed_cons.
    change (handle self (StartElement tag_label attrs_o))
      with (startElement self tag_label attrs_o).
    rewrite (startElement_label self attrs_o shape_o Hdo). bind_step.
    rewrite feed_app.
    match goal with
    | |- context [feed _ ?s ≫= _] =>
        destruct (feed_region s inner attrs_i shape_i contents Hdi Hinner)
          as (s2 & -> & Han & Hstack & Hid & Hty & Hsh & Hat)
    end.
    bind_step. rewrite feed_cons.
    change (handle s2 (EndElement tag_label)) with (endElement s2 tag_label).
    destruct (endElement_last s2 tag_label (eltStack self))
      as (r & Hend & _ & _ & Hrest); [exact Hstack | discriminate |].
    destruct Hrest as (Han' & _); [left; reflexivity|].
    exists r. eexists. rewrite Hend. bind_step.
    split; [reflexivity|].
    rewrite Han', Han, Hty, Hsh, Hat, <- app_assoc.
    split; reflexivity.
  - intros Hface. rewrite feed_cons.
    change (handle self (StartElement tag_image attrs_o))
      with (startElement self tag_image attrs_o).
    rewrite (startElement_image self attrs_o shape_o Hdo Hface). bind_step.
    rewrite feed_app.
    match goal with
    | |- context [feed _ ?s ≫= _] =>
        destruct (feed_region s inner attrs_i shape_i contents Hdi Hinner)
          as (s2 & -> & Han & Hstack & Hid & Hty & Hsh & Hat)
    end.
    bind_step. rewrite feed_cons.
    change (handle s2 (EndElement tag_image)) with (endElement s2 tag_image).
    rewrite (endElement_image_without_region s2 (eltStack self) Hstack Hat).
    reflexivity.
Qed.

(** X19.  The handler records in [insideUnk] the depth of an unknown
    opening tag and resets it at the closing tag, but never reads it to
    decide anything: whatever [insideUnk] holds, the same events give the
    same exception, or the same handler up to [insideUnk].  The content
    of an unknown element is parsed like any other. *)
Theorem insideUnk_is_never_consulted events self u :
  without_insideUnk (feed events (set_insideUnk u self))
  = without_insideUnk (feed events self).
Proof. apply feed_same. destruct self; reflexivity. Qed.

End HandlerRegions.

Section Restriction.

Context {F P : Type} `{Float F} `{Geometry F P}.

Lemma restrict_other_type types (a : SegmentationAnnotation P) before after :
  types <> [] -> (forall t, type a = Some t -> t ∉ types) ->
  restrict (Some types) (before ++ a :: after)
  = restrict (Some types) (before ++ after).
Proof.
  intros Hne Hnot. unfold restrict. destruct types as [|t0 types]; [tauto|].
  rewrite !List.filter_app. simpl List.filter.
  assert (type_in (t0 :: types) a = false) as ->; [|reflexivity].
  unfold type_in. destruct (type a) as [t|]; [|reflexivity].
  apply bool_decide_eq_false_2, Hnot. reflexivity.
Qed.

(** X9.  Under a type restriction, an annotation whose type is not
    listed, or that has no type, has no influence on the result, whether
    it stands in the reference or in the test file: the metrics, [Cr] and
    [Ct] included, are those of the run without it. *)
Theorem restriction_ignores_other_types types (a : SegmentationAnnotation P)
        before after others :
  types <> [] -> (forall t, type a = Some t -> t ∉ types) ->
  evaluate (Some types) (before ++ a :: after) others
  = evaluate (Some types) (before ++ after) others
  /\ evaluate (Some types) others (before ++ a :: after)
     = evaluate (Some types) others (before ++ after).
Proof.
  intros Hne Hnot. unfold evaluate.
  rewrite (restrict_other_type types a before after Hne Hnot).
  split; reflexivity.
Qed.

End Restriction.

(** ** Examples *)

Section Examples.

Import lifInputDriver catinfoXMLInputDriver.
Local Open Scope Z_scope.

(** X3 on the sample links. *)
Lemma component_counts_are_degree_counts_witness :
  find_num_over_segmentation_components sample_links = Ok 1
  /\ find_num_under_segmentation_components sample_links = Ok 1
  /\ find_num_missed_components sample_links = Ok 1
  /\ find_num_false_alarm_components sample_links = Ok 2.
Proof.
  apply (component_counts_are_degree_counts sample_links). reflexivity.
Defined.

(** X4 on the sample links. *)
Lemma metrics_are_consistent_witness :
  exists m,
    compute_statistics sample_links = Ok m
    /\ 0 <= Tc m /\ 0 <= Co m <= To m /\ 0 <= Cu m <= Tu m
    /\ 0 <= Cm m /\ 0 <= Cf m
    /\ Tc m <= Z.min (Cr m) (Ct m)
    /\ Co m <= Cr m /\ Cm m <= Cr m /\ Cu m <= Ct m /\ Cf m <= Ct m
    /\ (To m = 0 <-> Co m = 0) /\ (Tu m = 0 <-> Cu m = 0).
Proof.
  apply (metrics_are_consistent sample_links). reflexivity.
Defined.

(** X5 on the sample links: four links, counted from either side. *)
Lemma links_balance_witness :
  exists m,
    compute_statistics sample_links = Ok m
    /\ To m + (Cr m - Cm m) = 4
    /\ Tu m + (Ct m - Cf m) = 4
    /\ To m + Cr m - Cm m = Tu m + Ct m - Cf m.
Proof.
  apply (links_balance sample_links). reflexivity.
Defined.

(** X6 on the sample links. *)
Lemma statistics_of_transpose_witness :
  exists m,
    compute_statistics sample_links = Ok m
    /\ compute_statistics (transpose sample_links) = Ok (mirror m).
Proof.
  apply (statistics_of_transpose sample_links). reflexivity.
Defined.

(** X7 on the samples: [far_square] overlaps no test region and is
    missed. *)
Lemma lonely_regions_are_errors_witness :
  exists m,
    process (F := Q) sample_refs sample_tests = Ok m
    /\ 1 <= Cm m /\ 0 <= Cf m.
Proof.
  destruct (lonely_regions_are_errors (F := Q) sample_refs sample_tests)
    as (m & Hm & Hcm & Hcf & _); [reflexivity|].
  exists m. split; [exact Hm|]. split; [exact Hcm | exact Hcf].
Defined.

(** X8 on the two sample reference squares. *)
Lemma perfect_segmentation_witness :
  process (F := Q) sample_refs sample_refs
  = Ok {| Tc := 2; To := 0; Tu := 0; Co := 0; Cu := 0; Cm := 0; Cf := 0;
          Cr := 2; Ct := 2 |}.
Proof.
  apply (perfect_segmentation sample_refs
           [mk_box 0 0 10 10; mk_box 20 20 30 30]).
  - reflexivity.
  - intros [|[|i]] b Hb; inversion Hb; reflexivity.
  - intros [|[|i]] [|[|j]] a b Ha Hb Hij; inversion Ha; inversion Hb;
      solve [reflexivity | destruct Hij; reflexivity].
Defined.

(** X9: a text region among coins, with the restriction to coins. *)
Lemma restriction_ignores_other_types_witness :
  evaluate (F := Q) (Some ["coin"]) ([square] ++ sample_text :: [far_square])
           sample_tests
  = evaluate (F := Q) (Some ["coin"]) ([square] ++ [far_square]) sample_tests
  /\ evaluate (F := Q) (Some ["coin"]) sample_tests
              ([square] ++ sample_text :: [far_square])
     = evaluate (F := Q) (Some ["coin"]) sample_tests
                ([square] ++ [far_square]).
Proof.
  apply (restriction_ignores_other_types ["coin"] sample_text [square]
           [far_square] sample_tests).
  - discriminate.
  - intros t Ht Hin. inversion Ht. subst t.
    inversion Hin as [|? ? ? Hnil]; inversion Hnil.
Defined.

(** X11 on the label of the avers of coin 12. *)
Lemma label_round_trip_witness :
  gen_filename_base "coin" {[ "side" := "avers"; "id" := "12" ]}
  = Returned "ca12".
Proof.
  apply (label_round_trip "ca12" "coin" {[ "side" := "avers"; "id" := "12" ]}).
  vm_compute. reflexivity.
Defined.

(** X12 on label 7. *)
Lemma annotation_round_trip_witness :
  exists label,
    gen_filename_base "label" {[ "id" := "7" ]} = Returned label
    /\ parseLabel label = Returned ("label", {[ "id" := "7" ]}).
Proof.
  apply (annotation_round_trip "label" {[ "id" := "7" ]}).
  right. left. split; [left; reflexivity|].
  exists "7". split; [discriminate | reflexivity].
Defined.

(** X13: a driver that does not support the file, one that reads it, and
    one that is never asked. *)
Lemma loadWithAnyDriver_first_compatible_witness :
  loadWithAnyDriver "a.lif"
    [(fun f => Raised (UnsupportedFile f)); (fun _ => Returned (Some 7%nat));
     (fun _ => Raised TypeError)]
  = Returned 7%nat.
Proof.
  destruct (loadWithAnyDriver_first_compatible "a.lif"
              [(fun f => Raised (UnsupportedFile f))]
              [(fun _ => Raised TypeError)]
              (fun _ => Returned (Some 7%nat)))
    as (_ & Hfound & _).
  - constructor; [exists "a.lif"; reflexivity | constructor].
  - apply (Hfound 7%nat). reflexivity.
Defined.

(** X16 on a document with one coin, one image and an unknown element. *)
Lemma handler_commits_per_closing_tag_witness :
  exists self',
    feed [StartElement "coins" ∅; StartElement "coin" ∅;
          StartElement "image" sample_attrs; EndElement "image";
          StartElement "note" ∅; EndElement "note";
          EndElement "coin"; EndElement "coins"] init
    = Returned self'
    /\ exists new,
         annotations self' = annotations init ++ new
         /\ length new = 1%nat
         /\ cAutoId self' = 1.
Proof.
  eexists. split; [vm_compute; reflexivity|].
  apply (handler_commits_per_closing_tag
           [StartElement "coins" ∅; StartElement "coin" ∅;
            StartElement "image" sample_attrs; EndElement "image";
            StartElement "note" ∅; EndElement "note";
            EndElement "coin"; EndElement "coins"] init).
  vm_compute. reflexivity.
Defined.

(** X17 on an [image] element of the first coin side. *)
Lemma region_element_is_committed_witness :
  exists self',
    feed (StartElement "image" sample_attrs :: (Characters <$> ["text"])
            ++ [EndElement "image"]) init
    = Returned self'
    /\ annotations self'
       = [mk_annotation (Some sample_rectangle) (Some "coin")
            (Some {[ "id" := "_autogen_0000"; "side" := "isolated" ]})]
    /\ eltStack self' = []
    /\ cAutoId self' = 0
    /\ cType self' = None /\ cShape self' = None /\ cAttrib self' = None.
Proof.
  apply (region_element_is_committed init "image" sample_attrs
           sample_rectangle ["text"]).
  - exists "2", "3", "10", "5", 2%Q, 3%Q, 10%Q, 5%Q.
    repeat split; vm_compute; reflexivity.
  - right. split; [reflexivity|]. exists "avers". vm_compute. reflexivity.
Defined.

(** X18 on an [image] element inside a [label] and inside an [image]. *)
Lemma region_inside_region_witness :
  (exists self' a,
     feed (StartElement "label" sample_attrs
             :: (StartElement "image" sample_attrs :: (Characters <$> [])
                   ++ [EndElement "image"])
             ++ [EndElement "label"]) init
     = Returned self'
     /\ annotations self'
        = annotations init ++ [a; mk_annotation None None None]
     /\ shape a = Some sample_rectangle)
  /\ feed (StartElement "image" sample_attrs
             :: (StartElement "image" sample_attrs :: (Characters <$> [])
                   ++ [EndElement "image"])
             ++ [EndElement "image"]) init
     = Raised TypeError.
Proof.
  destruct (region_inside_region init sample_attrs sample_rectangle "image"
              sample_attrs sample_rectangle [])
    as [Hlabel Himage].
  - exists "2", "3", "10", "5", 2%Q, 3%Q, 10%Q, 5%Q.
    repeat split; vm_compute; reflexivity.
  - exists "2", "3", "10", "5", 2%Q, 3%Q, 10%Q, 5%Q.
    repeat split; vm_compute; reflexivity.
  - right. split; [reflexivity|]. exists "avers". vm_compute. reflexivity.
  - split; [exact Hlabel|]. apply Himage.
    exists "avers". vm_compute. reflexivity.
Defined.

End Examples.
